(** * UOM Results Ranking tool: the extraction, merge and ranking core

    A shallow embedding of [modules/config.py], [modules/security.py],
    [modules/pdf_processor.py], [modules/data_processor.py] and, of [app.py],
    of the checks of the two uploaders, of the "Add This Result" handler and
    of the summary of the modules, followed by the properties the
    specification states about them and by further properties of the code.

    Python values are modelled as follows.
    - [str] is [string]; a character is a code point below 256.
    - [float] is the kernel's binary64 [float]; the arithmetic of the source
      ([+], [*], [/], [==], [<]) is the IEEE arithmetic of [PrimFloat].
    - a pandas [DataFrame] is its list of column labels and its list of rows,
      each row holding one [cell] per label.
    - a [dict] with string keys is a [gmap string _].
    - a raised exception is the [Raise] alternative of [result]. *)

From Stdlib Require Import ZArith Floats Ascii String List Lia Permutation Sorted.
From Stdlib Require Import DecimalString.
From Stdlib.Strings Require Import Byte.
From stdpp Require Import gmap strings list sorting.

Set Warnings "-inexact-float".
Local Open Scope string_scope.
Local Open Scope list_scope.

(** ** Values, frames and exceptions *)

Inductive cell : Type :=
  | Str (s : string)      (* a Python str *)
  | NaN                   (* the missing value pandas writes for "no data" *)
  | Flt (x : float)       (* a Python / numpy float *)
  | Int (n : Z).          (* a Python / numpy int *)

Record DataFrame : Type := mkFrame {
  columns : list string;
  rows : list (list cell)
}.

(** The exceptions of Python and pandas the program can meet. A [msg] tells
    the conditions apart in the words of the library; the full wording of
    pandas, which names dtypes and labels and varies with its version, is
    not modelled. *)
Inductive exn : Type :=
  | KeyError (label : string)
  | ValueError (msg : string)
  | MergeError (msg : string).

Inductive result (A : Type) : Type :=
  | Ok (a : A)
  | Raise (e : exn).
Arguments Ok {A} a.
Arguments Raise {A} e.

Definition bind {A B : Type} (r : result A) (k : A -> result B) : result B :=
  match r with
  | Ok a => k a
  | Raise e => Raise e
  end.

Notation "'do' x <- r ; k" := (bind r (fun x => k))
  (at level 10, x name, r at level 100, k at level 200).

Definition string_eqb (a b : string) : bool := bool_decide (a = b).

(** [label in frame.columns] *)
Definition has_column (label : string) (cols : list string) : bool :=
  existsb (string_eqb label) cols.

(** The number of columns carrying [label]. *)
Definition count_label (label : string) (cols : list string) : nat :=
  length (filter (fun c => string_eqb label c = true) cols).

(** Position of the first column carrying [label]. *)
Fixpoint column_index (label : string) (cols : list string) : option nat :=
  match cols with
  | [] => None
  | c :: cols' =>
      if string_eqb label c then Some 0
      else option_map S (column_index label cols')
  end.

(** [row[label]] for a label that occurs once. *)
Definition row_get (cols : list string) (row : list cell) (label : string) : option cell :=
  match column_index label cols with
  | Some i => nth_error row i
  | None => None
  end.

(** The values of one column, top to bottom. *)
Definition column_values (df : DataFrame) (label : string) : option (list cell) :=
  match column_index label (columns df) with
  | Some i => Some (map (fun row => nth i row NaN) (rows df))
  | None => None
  end.

(** [frame.drop(label, axis=1)]: every column carrying the label goes. *)
Fixpoint drop_cells {A : Type} (label : string) (cols : list string) (xs : list A) : list A :=
  match cols, xs with
  | c :: cols', x :: xs' =>
      if string_eqb label c then drop_cells label cols' xs'
      else x :: drop_cells label cols' xs'
  | _, _ => []
  end.

Definition drop_column (label : string) (df : DataFrame) : DataFrame :=
  mkFrame (drop_cells label (columns df) (columns df))
          (map (drop_cells label (columns df)) (rows df)).

(** Rewrite the cells of every column carrying [label] with [f]. *)
Fixpoint map_cells (f : cell -> cell) (label : string) (cols : list string)
    (row : list cell) : list cell :=
  match cols, row with
  | c :: cols', x :: row' =>
      (if string_eqb label c then f x else x) :: map_cells f label cols' row'
  | _, _ => row
  end.

(** [frame[label] = values]: an existing column is overwritten in place, a
    new one is appended on the right. [values] has one entry per row. *)
Definition set_label (label : string) (cols : list string) : list string :=
  if has_column label cols then cols else cols ++ [label].

Definition set_cell (label : string) (cols : list string) (row : list cell) (v : cell)
    : list cell :=
  if has_column label cols then map_cells (fun _ => v) label cols row
  else row ++ [v].

Fixpoint zip_with_rows (f : list cell -> cell -> list cell)
    (rs : list (list cell)) (vs : list cell) : list (list cell) :=
  match rs, vs with
  | r :: rs', v :: vs' => f r v :: zip_with_rows f rs' vs'
  | _, _ => []
  end.

Definition set_column (label : string) (values : list cell) (df : DataFrame) : DataFrame :=
  mkFrame (set_label label (columns df))
          (zip_with_rows (set_cell label (columns df)) (rows df) values).

(** ** modules/data_processor.py: merge_grades_with_department *)

(** One row of the grades frame [process_pdf] builds: the dictionary
    [{'Index_No': ..., 'Grade': ...}] of [parse_grades]. *)
Record GradeRecord : Type := mkGrade {
  Index_No : string;
  Grade : string
}.

(** [pd.isna] on one cell. *)
Definition isna (c : cell) : bool :=
  match c with
  | NaN => true
  | Flt x => PrimFloat.is_nan x
  | _ => false
  end.

(** [Series.fillna(v)] on one cell. *)
Definition fillna (v : cell) (c : cell) : cell := if isna c then v else c.

(** pandas reads a non-empty column without any string as a numeric column. *)
Definition is_numeric (c : cell) : bool :=
  match c with
  | Str _ => false
  | _ => true
  end.

Definition numeric_dtype (cs : list cell) : bool :=
  match cs with
  | [] => false
  | _ => forallb is_numeric cs
  end.

(** [labels.duplicated()]: true at every occurrence of a label but its first. *)
Fixpoint duplicated_from (seen : list string) (labels : list string) : list bool :=
  match labels with
  | [] => []
  | l :: labels' => has_column l seen :: duplicated_from (l :: seen) labels'
  end.

Definition duplicated (labels : list string) : list bool := duplicated_from [] labels.

(** The labels of one side of a merge after the suffix is put on the labels
    both sides carry. *)
Definition add_suffix (overlap : list string) (suffix : string) (labels : list string)
    : list string :=
  map (fun l => if has_column l overlap then l +:+ suffix else l) labels.

(** A renaming that makes two labels of one side collide is refused. *)
Definition suffix_collision (old new : list string) : bool :=
  existsb (fun p : bool * bool => andb (fst p) (negb (snd p)))
          (combine (duplicated new) (duplicated old)).

(** The key of a roster row equals the student id of a record: only a string
    cell compares equal to a string. *)
Definition key_matches (key : cell) (g : GradeRecord) : bool :=
  match key with
  | Str s => string_eqb s (Index_No g)
  | _ => false
  end.

(** The rows a left join makes of one roster row: one per matching record,
    in the order of the records, or the row itself with missing values on the
    right when no record matches. *)
Definition join_row (ki : nat) (grades : list GradeRecord) (row : list cell)
    : list (list cell) :=
  match filter (fun g => key_matches (nth ki row NaN) g = true) grades with
  | [] => [row ++ [NaN; NaN]]
  | ms => map (fun g => row ++ [Str (Index_No g); Str (Grade g)]) ms
  end.

(** [dept_df.merge(grades_merge, left_on='Index', right_on='Index_No', how='left')]
    where [grades_merge] has the two columns [Index_No] and [grade_column].
    pandas looks the key up first (a missing label is a [KeyError], a label
    that two columns carry a [ValueError]), then compares the dtypes of the
    two keys, then puts the suffixes on the labels both sides carry. *)
Definition merge_left (dept_df : DataFrame) (grades : list GradeRecord)
    (grade_column : string) : result DataFrame :=
  match column_index "Index" (columns dept_df) with
  | None => Raise (KeyError "Index")
  | Some ki =>
      let right := ["Index_No"; grade_column] in
      if Nat.ltb 1 (count_label "Index" (columns dept_df)) then
        Raise (ValueError "The column label 'Index' is not unique.")
      else if numeric_dtype (map (fun row => nth ki row NaN) (rows dept_df)) then
        Raise (ValueError "You are trying to merge on numeric and object columns")
      else
        let overlap := filter (fun l => has_column l right = true) (columns dept_df) in
        let llabels := add_suffix overlap "_x" (columns dept_df) in
        let rlabels := add_suffix overlap "_y" right in
        if suffix_collision (columns dept_df) llabels then
          Raise (MergeError "Passing 'suffixes' which cause duplicate columns")
        else
          Ok (mkFrame (llabels ++ rlabels)
                      (flat_map (join_row ki grades) (rows dept_df)))
  end.

Definition merge_grades_with_department (dept_df : DataFrame)
    (grades_df : list GradeRecord) (module_code : string) : result DataFrame :=
  let grade_column := module_code +:+ "_Grade" in
  (* grades_df[['Index_No', 'Grade']]: a frame built from no record has no column *)
  match grades_df with
  | [] => Raise (KeyError "['Index_No', 'Grade']")
  | _ =>
      do merged_df <- merge_left dept_df grades_df grade_column;
      let merged_df :=
        if has_column "Index_No" (columns merged_df)
        then drop_column "Index_No" merged_df
        else merged_df in
      if has_column grade_column (columns merged_df) then
        Ok (mkFrame (columns merged_df)
                    (map (map_cells (fillna (Str "N/A")) grade_column (columns merged_df))
                         (rows merged_df)))
      else Raise (KeyError grade_column)
  end.

(** ** modules/config.py *)

Definition GRADE_POINTS : gmap string float :=
  list_to_map
    [ ("A+", 4.0%float); ("A", 4.0%float); ("A-", 3.7%float);
      ("B+", 3.3%float); ("B", 3.0%float); ("B-", 2.7%float);
      ("C+", 2.3%float); ("C", 2.0%float); ("C-", 1.7%float);
      ("D", 1.0%float); ("I-we", 0.0%float); ("I-ca", 0.0%float);
      ("F", 0.0%float); ("AB", 0.0%float) ].

(** ** modules/config.py: the limits of an upload *)

Definition MAX_FILE_SIZE_MB : Z := 10.

Definition MAX_FILE_SIZE_BYTES : Z := MAX_FILE_SIZE_MB * 1024 * 1024.

Definition ALLOWED_DEPT_EXTENSIONS : list string := [".csv"; ".xlsx"; ".xls"].

Definition ALLOWED_PDF_EXTENSION : string := ".pdf".

(** ** Python's str methods used by the ranking *)

(** [s.endswith(suffix)] *)
Fixpoint endswith (s suffix : string) : bool :=
  if string_eqb s suffix then true
  else match s with
       | EmptyString => false
       | String _ s' => endswith s' suffix
       end.

(** [s.replace(old, new)] for a non-empty [old]: every occurrence of [old],
    found from the left without overlap, is replaced. [skip] counts the
    characters of an occurrence that are still to be passed over. *)
Fixpoint replace_from (old new : string) (skip : nat) (s : string) : string :=
  match s with
  | EmptyString => EmptyString
  | String c s' =>
      match skip with
      | S k => replace_from old new k s'
      | O =>
          if String.prefix old s
          then new +:+ replace_from old new (String.length old - 1) s'
          else String c (replace_from old new 0 s')
      end
  end.

Definition str_replace (s old new : string) : string := replace_from old new 0 s.

(** ** Python's round(x, ndigits) on a float *)

(** The integer nearest to [n / d] for [d > 0], a tie going to the even one. *)
Definition round_half_even (n d : Z) : Z :=
  let q := (n / d)%Z in
  let r := (n mod d)%Z in
  match (2 * r ?= d)%Z with
  | Lt => q
  | Gt => (q + 1)%Z
  | Eq => if Z.even q then q else (q + 1)%Z
  end.

(** CPython rounds the exact value of the double to [ndigits] decimals, half
    to even, and returns the double nearest to that decimal; zeros, infinities
    and nan are returned as they are. *)
Definition py_round (x : float) (ndigits : nat) : float :=
  match Prim2SF x with
  | S754_finite sign m e =>
      let p := (10 ^ Z.of_nat ndigits)%Z in
      let n := if (0 <=? e)%Z
               then (Zpos m * 2 ^ e * p)%Z
               else round_half_even (Zpos m * p) (2 ^ (- e)) in
      match n, p with
      | Zpos n', Zpos p' =>
          SF2Prim (SFdiv prec emax (S754_finite sign n' 0) (S754_finite false p' 0))
      | _, _ => SF2Prim (S754_zero sign)
      end
  | _ => x
  end.

(** ** modules/data_processor.py: calculate_sgpa_and_rank *)

Definition grade_columns_of (cols : list string) : list string :=
  filter (fun col => endswith col "_Grade" = true) cols.

(** One turn of the loop of [calc_student_sgpa] over [grade_columns]; the
    accumulator is [(total_weighted_points, total_credits)]. *)
Definition sgpa_step (weights : gmap string float) (cols : list string)
    (row : list cell) (acc : float * float) (col : string) : float * float :=
  let grade := row_get cols row col in
  let module_code := str_replace col "_Grade" "" in
  match grade with
  | Some (Str g) =>
      match GRADE_POINTS !! g, weights !! module_code with
      | Some points, Some weight =>
          (PrimFloat.add (fst acc) (PrimFloat.mul points weight),
           PrimFloat.add (snd acc) weight)
      | _, _ => acc
      end
  | _ => acc
  end.

Definition calc_student_sgpa (weights : gmap string float) (cols : list string)
    (row : list cell) : float :=
  let '(total_weighted_points, total_credits) :=
    fold_left (sgpa_step weights cols row) (grade_columns_of cols)
              (0.0%float, 0.0%float) in
  if PrimFloat.eqb total_credits 0%float then 0.0%float
  else py_round (PrimFloat.div total_weighted_points total_credits) 3.

(** [Series.rank(method='min', ascending=False)]: one plus the number of
    values that are greater; a missing value has no rank. *)
Definition rank_min_descending (xs : list float) : list (option Z) :=
  map (fun x =>
         if PrimFloat.is_nan x then None
         else Some (1 + Z.of_nat (length (filter (fun y => PrimFloat.ltb x y = true) xs)))%Z)
      xs.

(** [Series.astype(int)]: a missing value cannot be cast. *)
Fixpoint astype_int (xs : list (option Z)) : result (list Z) :=
  match xs with
  | [] => Ok []
  | Some n :: xs' => do ns <- astype_int xs'; Ok (n :: ns)
  | None :: _ => Raise (ValueError "Cannot convert non-finite values (NA or inf) to integer")
  end.

(** A label that the function reads or sorts by must name one column only:
    with two, [row[col]], [df['SGPA']] or [sort_values('Rank')] raise. *)
Definition ambiguous_labels (cols : list string) : bool :=
  existsb (fun l => Nat.ltb 1 (count_label l cols))
          ("SGPA" :: "Rank" :: grade_columns_of cols).

Section Ranking.

(** [sort_values] asks numpy for the order of the rows: a list of row
    positions. numpy's default kind is not a stable sort, so the function
    is taken as it is; what is known of it is stated where it is used. *)
Variable argsort : list Z -> list nat.

(** [df.sort_values(label)] given the keys found in that column. *)
Definition sort_values (keys : list Z) (df : DataFrame) : DataFrame :=
  mkFrame (columns df) (map (fun i => nth i (rows df) []) (argsort keys)).

Definition calculate_sgpa_and_rank (df : DataFrame) (weights : gmap string float)
    : result DataFrame :=
  if ambiguous_labels (columns df) then
    Raise (ValueError "label is not unique")
  else
    let sgpa := map (calc_student_sgpa weights (columns df)) (rows df) in
    let df := set_column "SGPA" (map Flt sgpa) df in
    do rank <- astype_int (rank_min_descending sgpa);
    let df := set_column "Rank" (map Int rank) df in
    Ok (sort_values rank df).

End Ranking.

(** ** modules/data_processor.py: get_existing_modules *)

Definition get_existing_modules (df : DataFrame) : list string :=
  let grade_columns := grade_columns_of (columns df) in
  map (fun col => str_replace col "_Grade" "") grade_columns.

(** A stable instance of the sorting routine: insertion into a sorted list of
    (key, position) pairs, a later row going after the rows of equal key. *)
Fixpoint insert_by_key (k : Z) (i : nat) (l : list (Z * nat)) : list (Z * nat) :=
  match l with
  | [] => [(k, i)]
  | (k', i') :: l' =>
      if (k <? k')%Z then (k, i) :: l
      else (k', i') :: insert_by_key k i l'
  end.

Fixpoint insertion_pairs (keys : list Z) (i : nat) (acc : list (Z * nat)) : list (Z * nat) :=
  match keys with
  | [] => acc
  | k :: keys' => insertion_pairs keys' (S i) (insert_by_key k i acc)
  end.

Definition stable_argsort (keys : list Z) : list nat :=
  map snd (insertion_pairs keys 0 []).

(** An instance of the sorting routine that is not stable: the stable order
    of the keys read from the last to the first, so that of two rows of equal
    key the later one goes first. *)
Definition reversing_argsort (keys : list Z) : list nat :=
  map (fun j => length keys - 1 - j) (stable_argsort (rev keys)).

(** ** Python's re: the part of it the patterns of this program use

    A quantifier is only ever put on a character class in the source, so
    [Rep] carries the class itself; this keeps the matcher structural on the
    text. Alternatives are tried in the order they are written, a greedy
    quantifier tries the longest run first and a lazy one the shortest, and
    the matcher backtracks into all of them, as [re] does. *)

Inductive regex : Type :=
  | Chr (p : ascii -> bool)                      (* one character of a class *)
  | Eps                                          (* the empty pattern *)
  | Seq (r1 r2 : regex)                          (* r1r2 *)
  | Alt (r1 r2 : regex)                          (* r1|r2 *)
  | Rep (greedy : bool) (lo : nat) (hi : option nat) (p : ascii -> bool)
                                                 (* [p]{lo,hi}, [p]*, [p]+?, ... *)
  | Group (n : nat) (r : regex)                  (* (r), the n-th group *)
  | Ahead (r : regex)                            (* (?=r) *)
  | Dollar.                                      (* $ *)

(** The text of the groups matched so far, the latest first. *)
Definition captures : Type := list (nat * string).

Fixpoint group_text (n : nat) (c : captures) : option string :=
  match c with
  | [] => None
  | (m, s) :: c' => if Nat.eqb n m then Some s else group_text n c'
  end.

(** [m.group(n)] of a group that took part in the match; [findall] gives the
    empty string for one that did not. *)
Definition group (n : nat) (c : captures) : string :=
  match group_text n c with
  | Some s => s
  | None => ""
  end.

Definition in_range (lo hi : nat) (a : ascii) : bool :=
  let n := nat_of_ascii a in Nat.leb lo n && Nat.leb n hi.

Definition is_char (c : ascii) (a : ascii) : bool := Nat.eqb (nat_of_ascii a) (nat_of_ascii c).

(** [\d] on a str pattern: below code point 256 the decimal digits are 0-9. *)
Definition is_digit : ascii -> bool := in_range 48 57.

(** [[A-Z]] *)
Definition is_upper : ascii -> bool := in_range 65 90.

(** [[a-z]] *)
Definition is_lower : ascii -> bool := in_range 97 122.

(** [\s] on a str pattern, and the characters [str.strip()] removes: below
    code point 256 these are tab to carriage return, the four separators
    0x1c-0x1f, the space, NEL and the no-break space. *)
Definition is_space (a : ascii) : bool :=
  in_range 9 13 a || in_range 28 32 a || is_char (ascii_of_nat 133) a
  || is_char (ascii_of_nat 160) a.

Definition newline : ascii := ascii_of_nat 10.

(** A literal string is the sequence of its characters. *)
Fixpoint Lit (s : string) : regex :=
  match s with
  | EmptyString => Eps
  | String a EmptyString => Chr (is_char a)
  | String a s' => Seq (Chr (is_char a)) (Lit s')
  end.

(** The first [String.length s - String.length rest] characters of [s]: the
    text a match that started at [s] and stopped at [rest] has consumed. *)
Definition consumed (s rest : string) : string :=
  substring 0 (String.length s - String.length rest) s.

Definition hi_allows (hi : option nat) : bool :=
  match hi with
  | Some O => false
  | _ => true
  end.

Definition hi_pred (hi : option nat) : option nat := option_map Nat.pred hi.

Section Matcher.

Context {R : Type}.

(** Longest run first, then the shorter ones. *)
Fixpoint rep_greedy (p : ascii -> bool) (lo : nat) (hi : option nat)
    (k : string -> option R) (s : string) : option R :=
  let stop := match lo with O => k s | S _ => None end in
  match s with
  | String a s' =>
      if p a && hi_allows hi then
        match rep_greedy p (Nat.pred lo) (hi_pred hi) k s' with
        | Some x => Some x
        | None => stop
        end
      else stop
  | EmptyString => stop
  end.

(** Shortest run first, then the longer ones. *)
Fixpoint rep_lazy (p : ascii -> bool) (lo : nat) (hi : option nat)
    (k : string -> option R) (s : string) : option R :=
  let go :=
    match s with
    | String a s' =>
        if p a && hi_allows hi
        then rep_lazy p (Nat.pred lo) (hi_pred hi) k s'
        else None
    | EmptyString => None
    end in
  match lo with
  | O => match k s with
         | Some x => Some x
         | None => go
         end
  | S _ => go
  end.

End Matcher.

(** [$] without MULTILINE: the end of the text, or just before a newline that
    ends the text. *)
Definition at_end (s : string) : bool :=
  match s with
  | EmptyString => true
  | String a EmptyString => is_char newline a
  | _ => false
  end.

(** The backtracking matcher, in continuation style: [k] is what remains of
    the pattern, and receives the rest of the text and the groups. *)
Fixpoint rmatch (r : regex) {R : Type} (s : string) (c : captures)
    (k : string -> captures -> option R) : option R :=
  match r with
  | Chr p =>
      match s with
      | String a s' => if p a then k s' c else None
      | EmptyString => None
      end
  | Eps => k s c
  | Seq r1 r2 => rmatch r1 s c (fun s1 c1 => rmatch r2 s1 c1 k)
  | Alt r1 r2 =>
      match rmatch r1 s c k with
      | Some x => Some x
      | None => rmatch r2 s c k
      end
  | Rep greedy lo hi p =>
      (if greedy then rep_greedy else rep_lazy) p lo hi (fun s' => k s' c) s
  | Group n r' => rmatch r' s c (fun s' c' => k s' ((n, consumed s s') :: c'))
  | Ahead r' =>
      match rmatch r' s c (fun _ c' => Some c') with
      | Some c' => k s c'
      | None => None
      end
  | Dollar => if at_end s then k s c else None
  end.

(** A match object: the text matched and the groups. *)
Record Match : Type := mkMatch {
  group0 : string;
  groups : captures
}.

(** [pattern.match(text)]: a match that starts at the first character. *)
Definition re_match (r : regex) (s : string) : option Match :=
  rmatch r s [] (fun rest c => Some (mkMatch (consumed s rest) c)).

(** [re.search(pattern, text)]: the match at the leftmost position that has one. *)
Fixpoint re_search (r : regex) (s : string) : option Match :=
  match re_match r s with
  | Some m => Some m
  | None =>
      match s with
      | EmptyString => None
      | String _ s' => re_search r s'
      end
  end.

(** [re.findall(pattern, text)]: the matches from left to right, each search
    starting where the previous match ended. [skip] counts the characters of
    the last match that are still to be passed over. (No pattern of this
    program matches the empty string; after such a match the scan moves on by
    one character here.) *)
Fixpoint findall_from (r : regex) (skip : nat) (s : string) : list Match :=
  match skip with
  | S k =>
      match s with
      | EmptyString => []
      | String _ s' => findall_from r k s'
      end
  | O =>
      match re_match r s with
      | Some m =>
          m :: match s with
               | EmptyString => []
               | String _ s' => findall_from r (String.length (group0 m) - 1) s'
               end
      | None =>
          match s with
          | EmptyString => []
          | String _ s' => findall_from r 0 s'
          end
      end
  end.

Definition re_findall (r : regex) (s : string) : list Match := findall_from r 0 s.

(** [re.sub(pattern, '', s)] for a pattern that is one character class. *)
Fixpoint remove_chars (p : ascii -> bool) (s : string) : string :=
  match s with
  | EmptyString => EmptyString
  | String a s' => if p a then remove_chars p s' else String a (remove_chars p s')
  end.

(** [s.lstrip()], [s.rstrip()] and [s.strip()] *)
Fixpoint lstrip (s : string) : string :=
  match s with
  | String a s' => if is_space a then lstrip s' else s
  | EmptyString => EmptyString
  end.

Fixpoint rstrip (s : string) : string :=
  match s with
  | EmptyString => EmptyString
  | String a s' =>
      match rstrip s' with
      | EmptyString => if is_space a then EmptyString else String a EmptyString
      | t => String a t
      end
  end.

Definition strip (s : string) : string := rstrip (lstrip s).

(** ** modules/security.py: sanitize_string *)

(** The class [[<>{}|\\^~\[\]`]]. *)
Definition is_dangerous (a : ascii) : bool :=
  existsb (fun c => is_char c a)
          (list_ascii_of_string "<>{}|\^~[]`").

Definition sanitize_string (s : string) : string := remove_chars is_dangerous s.

(** ** Python's str.lower, os.path.splitext and number formatting *)

(** [c.lower()] below code point 256: the letters A-Z and the Latin-1
    capitals 0xC0-0xDE, the multiplication sign 0xD7 apart, move up by 32. *)
Definition lower_char (a : ascii) : ascii :=
  if is_upper a || (in_range 192 222 a && negb (is_char (ascii_of_nat 215) a))
  then ascii_of_nat (nat_of_ascii a + 32)
  else a.

(** [s.lower()] *)
Fixpoint lower (s : string) : string :=
  match s with
  | EmptyString => EmptyString
  | String a s' => String (lower_char a) (lower s')
  end.

(** [p.rfind(c)] for one character [c]: the last position that holds it,
    or -1. *)
Fixpoint rfind (c : ascii) (p : string) : Z :=
  match p with
  | EmptyString => (-1)%Z
  | String a p' =>
      let i := rfind c p' in
      if (0 <=? i)%Z then (i + 1)%Z
      else if is_char c a then 0%Z else (-1)%Z
  end.

(** [p[:i]] and [p[i:]] *)
Definition slice_to (i : nat) (p : string) : string := substring 0 i p.

Definition slice_from (i : nat) (p : string) : string :=
  substring i (String.length p - i) p.

(** The loop of [genericpath._splitext] over the dots that lead the last
    component: [n] positions from [filenameIndex] on, all of them dots. *)
Fixpoint leading_dots (p : string) (filenameIndex n : nat) : bool :=
  match n with
  | O => true
  | S n' =>
      match String.get filenameIndex p with
      | Some a => is_char "." a && leading_dots p (S filenameIndex) n'
      | None => false
      end
  end.

(** [os.path.splitext(p)] of [posixpath]: the extension starts at the last
    dot of the last component, unless only dots come before it there. *)
Definition splitext (p : string) : string * string :=
  let sepIndex := rfind "/" p in
  let dotIndex := rfind "." p in
  if (sepIndex <? dotIndex)%Z
     && negb (leading_dots p (Z.to_nat (sepIndex + 1))
                           (Z.to_nat (dotIndex - (sepIndex + 1))))
  then (slice_to (Z.to_nat dotIndex) p, slice_from (Z.to_nat dotIndex) p)
  else (p, "").

(** [str(n)] of an integer that is not negative. *)
Definition str_of_Z (n : Z) : string := NilZero.string_of_uint (N.to_uint (Z.to_N n)).

(** [f"{x:.2f}"]: the exact value of the double rounded to two decimals,
    half to even. *)
Definition format_2f (x : spec_float) : string :=
  match x with
  | S754_finite sign m e =>
      let n := if (0 <=? e)%Z
               then (Zpos m * 2 ^ e * 100)%Z
               else round_half_even (Zpos m * 100) (2 ^ (- e)) in
      let cents := (n mod 100)%Z in
      (if sign then "-" else "") +:+ str_of_Z (n / 100) +:+ "." +:+
      (if (cents <? 10)%Z then "0" else "") +:+ str_of_Z cents
  | S754_zero sign => (if sign then "-" else "") +:+ "0.00"
  | S754_infinity sign => (if sign then "-" else "") +:+ "inf"
  | S754_nan => "nan"
  end.

(** [n / d] of two integers, the divisor positive: the double nearest to the
    quotient. *)
Definition int_truediv (n : Z) (d : positive) : spec_float :=
  match n with
  | Zpos n' => SFdiv prec emax (S754_finite false n' 0) (S754_finite false d 0)
  | Zneg n' => SFdiv prec emax (S754_finite true n' 0) (S754_finite false d 0)
  | Z0 => S754_zero false
  end.

(** ** modules/security.py: the checks on an upload *)

(** What the checks read of a Streamlit [UploadedFile]: its name and the
    number of its bytes. *)
Record UploadedFile : Type := mkUpload {
  file_name : string;
  file_size : Z
}.

Definition validate_file_size (uploaded_file : option UploadedFile) : bool * string :=
  match uploaded_file with
  | None => (false, "No file uploaded")
  | Some f =>
      if (MAX_FILE_SIZE_BYTES <? file_size f)%Z then
        (false,
         "File size ("
         +:+ format_2f (SFdiv prec emax (int_truediv (file_size f) 1024)
                                        (S754_finite false 1024 0))
         +:+ " MB) exceeds limit of " +:+ str_of_Z MAX_FILE_SIZE_MB +:+ " MB")
      else (true, "File size OK")
  end.

Definition validate_file_extension (filename : string) (allowed_extensions : list string)
    : bool * string :=
  if string_eqb filename "" then (false, "No filename provided")
  else
    let ext := snd (splitext (lower filename)) in
    if negb (has_column ext allowed_extensions) then
      (false, "Invalid file type. Allowed: " +:+ String.concat ", " allowed_extensions)
    else (true, "File type OK").

(** ** modules/pdf_processor.py *)

(** [r'([A-Z]{2}\d{4})\s*-\s*([A-Za-z\s]+?)(?=\n|Intake|$)'] *)
Definition module_pattern : regex :=
  Seq (Group 1 (Seq (Rep true 2 (Some 2) is_upper) (Rep true 4 (Some 4) is_digit)))
 (Seq (Rep true 0 None is_space)
 (Seq (Chr (is_char "-"))
 (Seq (Rep true 0 None is_space)
 (Seq (Group 2 (Rep false 1 None (fun a => is_upper a || is_lower a || is_space a)))
      (Ahead (Alt (Chr (is_char newline)) (Alt (Lit "Intake") Dollar))))))).

(** [r'[A-Z]{2}\d{4}'] *)
Definition code_pattern : regex :=
  Seq (Rep true 2 (Some 2) is_upper) (Rep true 4 (Some 4) is_digit).

Definition extract_module_info (text : string) : string * string :=
  match re_search module_pattern text with
  | Some m =>
      let module_code := strip (group 1 (groups m)) in
      let module_name := strip (group 2 (groups m)) in
      (module_code, module_name)
  | None =>
      match re_search code_pattern text with
      | Some m => (group0 m, "Unknown Module")
      | None => ("Unknown", "Unknown Module")
      end
  end.

(** [r'(\d{6}[A-Z])\s+(I-we|I-ca|[A-Z][+-]?|F|D)'] *)
Definition grade_pattern : regex :=
  Seq (Group 1 (Seq (Rep true 6 (Some 6) is_digit) (Chr is_upper)))
 (Seq (Rep true 1 None is_space)
      (Group 2 (Alt (Lit "I-we")
               (Alt (Lit "I-ca")
               (Alt (Seq (Chr is_upper)
                         (Rep true 0 (Some 1) (fun a => is_char "+" a || is_char "-" a)))
               (Alt (Chr (is_char "F")) (Chr (is_char "D")))))))).

Definition parse_grades (text : string) : list GradeRecord :=
  map (fun m => mkGrade (sanitize_string (group 1 (groups m)))
                        (sanitize_string (group 2 (groups m))))
      (re_findall grade_pattern text).

(** The frame [process_pdf] returns: one row per record, and the module's
    code and name repeated in two more columns. *)
Record GradesFrame : Type := mkGrades {
  grade_rows : list GradeRecord;
  Module_Code : string;
  Module_Name : string
}.

Section Pdf.

(** PyPDF2 with the pdfplumber fallback: the text of the pages, or the
    empty string when both readers fail. *)
Variable extract_text_from_pdf_bytes : list byte -> string.

Definition process_pdf (pdf_bytes : list byte) (filename : string)
    : option GradesFrame * string * string :=
  let text := extract_text_from_pdf_bytes pdf_bytes in
  if string_eqb text "" then (None, "", "")
  else
    let '(module_code, module_name) := extract_module_info text in
    let grades_data := parse_grades text in
    match grades_data with
    | [] => (None, module_code, module_name)
    | _ => (Some (mkGrades grades_data module_code module_name),
            module_code, module_name)
    end.

(** ** app.py: the "Add This Result" button *)

Record Session : Type := mkSession {
  department_df : DataFrame;
  weights : gmap string float;
  processed_modules : list string
}.

Inductive outcome : Type :=
  | Stopped                          (* "Could not read PDF file", st.stop() *)
  | NothingToMerge                   (* "Could not extract grades from PDF" *)
  | Added (module_code module_name : string) (n : nat)
  | Failed (e : exn).                (* an exception left the handler *)

Definition add_result (st : Session) (cached_bytes : option (list byte))
    (cached_name : string) (new_weight : float) : Session * outcome :=
  match cached_bytes with
  | None | Some [] => (st, Stopped)
  | Some pdf_bytes =>
      let '(grades_df, module_code, module_name) := process_pdf pdf_bytes cached_name in
      match grades_df with
      | None => (st, NothingToMerge)
      | Some grades =>
          match grade_rows grades with
          | [] => (st, NothingToMerge)
          | _ =>
              let old_col := module_code +:+ "_Grade" in
              let st :=
                if has_column module_code (processed_modules st)
                   && has_column old_col (columns (department_df st))
                then mkSession (drop_column old_col (department_df st))
                               (weights st) (processed_modules st)
                else st in
              match merge_grades_with_department (department_df st)
                                                 (grade_rows grades) module_code with
              | Raise e => (st, Failed e)
              | Ok merged =>
                  (mkSession merged
                             (<[module_code := new_weight]> (weights st))
                             (if has_column module_code (processed_modules st)
                              then processed_modules st
                              else processed_modules st ++ [module_code]),
                   Added module_code module_name (length (grade_rows grades)))
              end
          end
      end
  end.

End Pdf.

(** ** app.py: the checks of the two uploaders

    Only the two checks and the branch on them are embedded. After them the
    uploader of result documents reads the file and caches its bytes; the
    uploader of rosters reads the file only when its name is not the name of
    the roster already loaded. *)

Inductive upload_check : Type :=
  | Rejected (msg : string)      (* st.error shows the message *)
  | Accepted.                    (* both checks passed: the else branch is taken *)

Definition check_upload (file : UploadedFile) (allowed_extensions : list string)
    : upload_check :=
  let '(is_valid_size, size_msg) := validate_file_size (Some file) in
  let '(is_valid_ext, ext_msg) :=
    validate_file_extension (file_name file) allowed_extensions in
  if negb is_valid_size then Rejected size_msg
  else if negb is_valid_ext then Rejected ext_msg
  else Accepted.

(** ** modules/data_processor.py: load_department_data *)

Section Loading.

(** [pd.read_csv] and [pd.read_excel] on the bytes of the file: a frame, or
    an exception. *)
Variable read_csv : list byte -> result DataFrame.
Variable read_excel : list byte -> result DataFrame.

Definition load_department_data (file_bytes : list byte) (filename : string)
    : option DataFrame :=
  match (if endswith filename ".csv" then read_csv file_bytes
         else read_excel file_bytes) with
  | Ok df => if negb (has_column "Index" (columns df)) then None else Some df
  | Raise _ => None
  end.

End Loading.

(** ** app.py: the summary of the modules and the check before the ranking *)

(** [cell != s] as pandas compares one cell of a column with a string. *)
Definition cell_ne (c : cell) (s : string) : bool :=
  match c with
  | Str t => negb (string_eqb t s)
  | _ => true
  end.

(** "Grades Found": [(df[grade_col] != 'N/A').sum()], or 0 without the
    column. *)
Definition grades_found (df : DataFrame) (module : string) : nat :=
  let grade_col := module +:+ "_Grade" in
  if has_column grade_col (columns df) then
    match column_values df grade_col with
    | Some values => length (filter (fun c => cell_ne c "N/A" = true) values)
    | None => 0
    end
  else 0.

(** [all(module in weights for module in processed_modules)] *)
Definition all_weights_set (st : Session) : bool :=
  forallb (fun module => bool_decide (is_Some (weights st !! module)))
          (processed_modules st).

(** * The vocabulary of the properties *)

(** ** Rosters and the merge *)

(** A frame is well formed when every row has one cell per label. *)
Definition well_formed (df : DataFrame) : Prop :=
  Forall (fun row => length row = length (columns df)) (rows df).

(** The cells of the key column, top to bottom. *)
Definition index_cells (df : DataFrame) : list cell :=
  match column_index "Index" (columns df) with
  | Some ki => map (fun row => nth ki row NaN) (rows df)
  | None => []
  end.

(** [well_formed] as a test. *)
Definition well_formed_b (df : DataFrame) : bool :=
  forallb (fun row => Nat.eqb (length row) (length (columns df))) (rows df).

(** What the merge of a module asks of the roster: complete rows, exactly
    one column labelled [Index], holding strings, and neither the temporary
    key column [Index_No] nor the module's grade column among its labels. *)
Definition merge_ready (dept_df : DataFrame) (module_code : string) : bool :=
  well_formed_b dept_df
  && Nat.eqb (count_label "Index" (columns dept_df)) 1
  && negb (numeric_dtype (index_cells dept_df))
  && negb (has_column "Index_No" (columns dept_df))
  && negb (has_column (module_code +:+ "_Grade") (columns dept_df)).

(** The grades the records hold for one key, in the order of the records. *)
Definition grades_for (key : cell) (grades : list GradeRecord) : list string :=
  map Grade (filter (fun g => key_matches key g = true) grades).

(** The rows the merge makes of one roster row. *)
Definition merged_rows (ki : nat) (grades : list GradeRecord) (row : list cell)
    : list (list cell) :=
  match grades_for (nth ki row NaN) grades with
  | [] => [row ++ [Str "N/A"]]
  | gs => map (fun g => row ++ [Str g]) gs
  end.

(** The one cell the merge writes for a key when student ids are unique. *)
Definition grade_cell (key : cell) (grades : list GradeRecord) : cell :=
  match grades_for key grades with
  | [] => Str "N/A"
  | g :: _ => Str g
  end.

(** A roster of one student, and two records of that student. *)
Definition roster_one : DataFrame := mkFrame ["Index"] [[Str "200145A"]].

Definition twice_listed : list GradeRecord :=
  [mkGrade "200145A" "A"; mkGrade "200145A" "B"].

(** The roster and the records of the merge scenario of the specification. *)
Definition roster_two : DataFrame :=
  mkFrame ["Index"] [[Str "200145A"]; [Str "200146B"]].

Definition one_record : list GradeRecord := [mkGrade "200145A" "B+"].

(** The key cell of a row is the string [id]. *)
Definition row_has_id (ki : nat) (id : string) (row : list cell) : bool :=
  match nth ki row NaN with
  | Str s => string_eqb s id
  | _ => false
  end.

(** The label of a roster column in the merged roster when the roster has a
    column [Index_No]: that column gets the suffix of the left side. *)
Definition left_label (l : string) : string :=
  if string_eqb l "Index_No" then "Index_No_x" else l.

(** The rows the merge makes of one roster row when the roster has a column
    [Index_No]: the key of the record stays in the row, under [Index_No_y]. *)
Definition kept_key_rows (ki : nat) (grades : list GradeRecord) (row : list cell)
    : list (list cell) :=
  match filter (fun g => key_matches (nth ki row NaN) g = true) grades with
  | [] => [row ++ [NaN; Str "N/A"]]
  | ms => map (fun g => row ++ [Str (Index_No g); Str (Grade g)]) ms
  end.

(** A roster with a column [Index_No] of its own. *)
Definition roster_with_temp : DataFrame :=
  mkFrame ["Index"; "Index_No"] [[Str "200145A"; Str "7"]; [Str "200146B"; Str "8"]].

(** ** The order of floats and the ranks *)

(** The place of a float in the order of the IEEE comparison: minus
    infinity, the negative finite numbers, the two zeros, the positive finite
    numbers, plus infinity; nan has no place. *)
Definition sf_key (f : spec_float) : option (Z * Z * Z) :=
  match f with
  | S754_nan => None
  | S754_infinity true => Some (-2, 0, 0)%Z
  | S754_finite true m e => Some (-1, - e, - Zpos m)%Z
  | S754_zero _ => Some (0, 0, 0)%Z
  | S754_finite false m e => Some (1, e, Zpos m)%Z
  | S754_infinity false => Some (2, 0, 0)%Z
  end.

Definition float_key (x : float) : option (Z * Z * Z) := sf_key (Prim2SF x).

(** The order of the places, component after component. *)
Definition key_lt (a b : Z * Z * Z) : Prop :=
  let '(a1, a2, a3) := a in
  let '(b1, b2, b3) := b in
  (a1 < b1 \/ (a1 = b1 /\ (a2 < b2 \/ (a2 = b2 /\ a3 < b3))))%Z.

(** The number of values above [x]. *)
Definition greater (x : float) (xs : list float) : nat :=
  length (filter (fun y => PrimFloat.ltb x y = true) xs).

(** The values that tie with [x]. *)
Definition tied (x : float) (xs : list float) : nat :=
  length (filter (fun y => PrimFloat.eqb x y = true) xs).

(** The rank of [x] among [xs] by the minimum method, descending. *)
Definition min_rank (x : float) (xs : list float) : Z := (1 + Z.of_nat (greater x xs))%Z.

(** ** The derived columns *)

(** A row after [frame['SGPA'] = a] and [frame['Rank'] = b]. *)
Definition with_cells (cols : list string) (row : list cell) (a b : cell) : list cell :=
  set_cell "Rank" (set_label "SGPA" cols) (set_cell "SGPA" cols row a) b.

(** A roster row with its two derived cells written. *)
Definition with_sgpa_rank (cols : list string) (row : list cell) (sgpa : float)
    (rank : Z) : list cell :=
  with_cells cols row (Flt sgpa) (Int rank).

(** The labels of a frame after the two assignments. *)
Definition ranked_labels (cols : list string) : list string :=
  set_label "Rank" (set_label "SGPA" cols).

(** ** The SGPA in the words of the specification *)

(** The module code of a grade column. *)
Definition module_code_of (col : string) : string := str_replace col "_Grade" "".

(** What a grade column contributes for a row: the points of the grade and
    the weight of the module, when the cell is a grade symbol of
    [GRADE_POINTS] and the module has a weight; nothing otherwise. *)
Definition countable (weights : gmap string float) (cols : list string)
    (row : list cell) (col : string) : option (float * float) :=
  match row_get cols row col with
  | Some (Str g) =>
      match GRADE_POINTS !! g, weights !! module_code_of col with
      | Some points, Some weight => Some (points, weight)
      | _, _ => None
      end
  | _ => None
  end.

(** The contributions of the grade columns of a row, in column order. *)
Definition countable_modules (weights : gmap string float) (cols : list string)
    (row : list cell) : list (float * float) :=
  omap (countable weights cols row) (grade_columns_of cols).

(** A sum of floats, taken from the left starting at 0.0. *)
Definition float_sum (xs : list float) : float := fold_left PrimFloat.add xs 0%float.

(** The sum of points times weight, and the sum of the weights. *)
Definition weighted_sum (cs : list (float * float)) : float :=
  float_sum (map (fun c => PrimFloat.mul (fst c) (snd c)) cs).

Definition weight_sum (cs : list (float * float)) : float := float_sum (map snd cs).

(** The weighted sum over the weight sum, rounded to 3 decimals; 0.0 when
    the weight sum is zero. *)
Definition sgpa_of (weights : gmap string float) (cols : list string)
    (row : list cell) : float :=
  let cs := countable_modules weights cols row in
  if PrimFloat.eqb (weight_sum cs) 0%float then 0%float
  else py_round (PrimFloat.div (weighted_sum cs) (weight_sum cs)) 3.

(** ** The columns the function computes *)

(** The SGPA of every row, and the rank of every row. *)
Definition sgpa_column (weights : gmap string float) (cols : list string)
    (rws : list (list cell)) : list float :=
  map (calc_student_sgpa weights cols) rws.

Definition rank_column (weights : gmap string float) (cols : list string)
    (rws : list (list cell)) : list Z :=
  map (fun s => min_rank s (sgpa_column weights cols rws)) (sgpa_column weights cols rws).

(** The rows with their SGPA and their rank written, before they are sorted. *)
Definition ranked_rows (weights : gmap string float) (cols : list string)
    (rws : list (list cell)) : list (list cell) :=
  map (fun row =>
         with_sgpa_rank cols row (calc_student_sgpa weights cols row)
           (min_rank (calc_student_sgpa weights cols row) (sgpa_column weights cols rws)))
      rws.

(** No value of the list is nan. *)
Definition no_nan (xs : list float) : Prop :=
  Forall (fun x => PrimFloat.is_nan x = false) xs.

(** The rows of the roster in the order the sort puts them. *)
Definition sorted_rows (argsort : list Z -> list nat) (weights : gmap string float)
    (df : DataFrame) : list (list cell) :=
  map (fun i => nth i (rows df) [])
      (argsort (rank_column weights (columns df) (rows df))).

(** [row'] is the complete row [row] with some cells written under [SGPA]
    and [Rank]. *)
Definition rewritten (cols : list string) (row' row : list cell) : Prop :=
  length row = length cols /\ exists a b, row' = with_cells cols row a b.

(** ** The sorting routine and the scenarios *)

(** Every pair holds a position and the key found there. *)
Definition holds_keys (all : list Z) (l : list (Z * nat)) : Prop :=
  Forall (fun p => nth (snd p) all 0%Z = fst p) l.

(** One student with grade A in a module of weight 3 and grade B+ in a
    module of weight 2. *)
Definition roster_a_bplus : DataFrame :=
  mkFrame ["Index"; "MA1014_Grade"; "CS2023_Grade"]
          [[Str "200145A"; Str "A"; Str "B+"]].

(** Weight 3 for MA1014 and weight 2 for CS2023. *)
Definition weights_3_2 : gmap string float :=
  <["MA1014" := 3.0%float]> (<["CS2023" := 2.0%float]> ∅).

(** Two students with SGPA 3.0 and one with SGPA 2.0. *)
Definition roster_tie : DataFrame :=
  mkFrame ["Index"; "CS2023_Grade"]
          [[Str "200145A"; Str "B"]; [Str "200146B"; Str "C"]; [Str "200147C"; Str "B"]].

(** The roster [calculate_sgpa_and_rank] makes of [roster_tie]. *)
Definition ranked_tie : DataFrame :=
  mkFrame ["Index"; "CS2023_Grade"; "SGPA"; "Rank"]
          [[Str "200145A"; Str "B"; Flt 3.0%float; Int 1];
           [Str "200147C"; Str "B"; Flt 3.0%float; Int 1];
           [Str "200146B"; Str "C"; Flt 2.0%float; Int 3]].

(** ** What a pattern matches *)

(** Every character of [w] is of the class [p]. *)
Fixpoint all_chars (p : ascii -> bool) (w : string) : bool :=
  match w with
  | EmptyString => true
  | String a w' => p a && all_chars p w'
  end.

(** [n] repetitions are within the upper bound of a quantifier. *)
Definition within (hi : option nat) (n : nat) : Prop :=
  match hi with
  | Some h => n <= h
  | None => True
  end.

(** [Matches r s c rest c']: the pattern [r] matches a prefix of [s] and
    leaves [rest]; the groups go from [c] to [c']. *)
Inductive Matches : regex -> string -> captures -> string -> captures -> Prop :=
  | M_Chr p a s c :
      p a = true -> Matches (Chr p) (String a s) c s c
  | M_Eps s c :
      Matches Eps s c s c
  | M_Seq r1 r2 s c s1 c1 s2 c2 :
      Matches r1 s c s1 c1 -> Matches r2 s1 c1 s2 c2 ->
      Matches (Seq r1 r2) s c s2 c2
  | M_AltL r1 r2 s c s' c' :
      Matches r1 s c s' c' -> Matches (Alt r1 r2) s c s' c'
  | M_AltR r1 r2 s c s' c' :
      Matches r2 s c s' c' -> Matches (Alt r1 r2) s c s' c'
  | M_Rep greedy lo hi p w s c :
      all_chars p w = true -> lo <= String.length w -> within hi (String.length w) ->
      Matches (Rep greedy lo hi p) (w +:+ s) c s c
  | M_Group n r s c s' c' :
      Matches r s c s' c' ->
      Matches (Group n r) s c s' ((n, consumed s s') :: c')
  | M_Ahead r s c s' c' :
      Matches r s c s' c' -> Matches (Ahead r) s c s c'
  | M_Dollar s c :
      at_end s = true -> Matches Dollar s c s c.

(** Two uppercase letters and four digits. *)
Definition module_code_shape (code : string) : Prop :=
  exists letters digits,
    code = letters +:+ digits /\
    String.length letters = 2 /\ all_chars is_upper letters = true /\
    String.length digits = 4 /\ all_chars is_digit digits = true.

(** A character of the class [[A-Za-z\s]]. *)
Definition name_char (a : ascii) : bool := is_upper a || is_lower a || is_space a.

(** Where the name of the module stops: before a newline, before the word
    [Intake], or at the end of the text. *)
Definition stops (rest : string) : Prop :=
  (exists t, rest = String newline t) \/ (exists t, rest = "Intake" +:+ t) \/ rest = "".

(** The text holds a header: a module code, spaces, a dash, spaces, a name
    of letters and spaces, and then a stop. *)
Definition header (text pre code ws1 ws2 name rest : string) : Prop :=
  text = pre +:+ code +:+ ws1 +:+ "-" +:+ ws2 +:+ name +:+ rest /\
  module_code_shape code /\
  all_chars is_space ws1 = true /\ all_chars is_space ws2 = true /\
  name <> "" /\ all_chars name_char name = true /\ stops rest.





(** Six digits and an uppercase letter. *)
Definition student_id_shape (id : string) : Prop :=
  exists digits letter,
    id = digits +:+ String letter "" /\
    String.length digits = 6 /\ all_chars is_digit digits = true /\
    is_upper letter = true.

(** What [grade_pattern] takes for a grade: one of the two "incomplete"
    tokens, or one uppercase letter, any, with a plus or a minus after it
    when the text has one there. *)
Definition emitted_grade (g : string) : Prop :=
  g = "I-we" \/ g = "I-ca" \/
  exists letter sign,
    g = String letter sign /\ is_upper letter = true /\
    (sign = "" \/ sign = "+" \/ sign = "-").

(** ** The handler *)

(** The handler went as far as the merge. *)
Definition reached_merge (o : outcome) : bool :=
  match o with
  | Added _ _ _ | Failed _ => true
  | Stopped | NothingToMerge => false
  end.

(** A session that holds the roster of the merge scenario and no module. *)
Definition empty_session : Session := mkSession roster_two ∅ [].

(** ** The documents, the session and the names of files *)

(** The text holds a grade record somewhere: a student id, whitespace and
    an uppercase letter. *)
Definition has_record (text : string) : Prop :=
  exists pre id ws letter post,
    text = pre +:+ id +:+ ws +:+ String letter post /\
    student_id_shape id /\
    ws <> "" /\ all_chars is_space ws = true /\
    is_upper letter = true.

(** A grade column that is the grade column of its own module code. *)
Definition canonical (col : string) : Prop :=
  col = str_replace col "_Grade" "" +:+ "_Grade".

(** The session lists the modules of its roster: the grade columns are
    distinct, each is the grade column of its module code, and
    [processed_modules] holds the module codes of the grade columns, in some
    order. *)
Definition consistent (st : Session) : Prop :=
  NoDup (grade_columns_of (columns (department_df st))) /\
  Forall canonical (grade_columns_of (columns (department_df st))) /\
  Permutation (processed_modules st) (get_existing_modules (department_df st)).

(** The session at the moment of the merge: the old column of a module that
    is merged again has been dropped. *)
Definition before_merge (st : Session) (module_code : string) : Session :=
  if has_column module_code (processed_modules st)
     && has_column (module_code +:+ "_Grade") (columns (department_df st))
  then mkSession (drop_column (module_code +:+ "_Grade") (department_df st))
                 (weights st) (processed_modules st)
  else st.

(** The session after a merge that has returned [merged]. *)
Definition after_merge (st : Session) (module_code : string) (new_weight : float)
    (merged : DataFrame) : Session :=
  mkSession merged (<[module_code := new_weight]> (weights st))
            (if has_column module_code (processed_modules st)
             then processed_modules st
             else processed_modules st ++ [module_code]).

(** A result document: its header and one record. *)
Definition result_document : string := "CS2023 - Data Structures Intake 21 200145A B+".

(** A text reader that finds [result_document] in every file. *)
Definition read_result_document (pdf_bytes : list byte) : string := result_document.

(** The bytes of some file. *)
Definition some_bytes : list byte := [x25; x50; x44; x46].

(** A session whose roster has a numeric [Index] column and holds the
    grades of CS2023. *)
Definition session_numeric_index : Session :=
  mkSession (mkFrame ["Index"; "CS2023_Grade"] [[Int 200145; Str "B"]])
            (<["CS2023" := 3.0%float]> ∅) ["CS2023"].

(** The string holds no character [c]. *)
Definition free_of (c : ascii) (s : string) : bool :=
  all_chars (fun a => negb (is_char c a)) s.

(** The last component of a path has a name: a character that is neither a
    dot nor a slash, with no slash after it. *)
Definition named (stem : string) : Prop :=
  exists a x b,
    stem = a +:+ String x b /\
    is_char "." x = false /\ is_char "/" x = false /\ free_of "/" b = true.

(** The path is a named stem followed by the extension [ext], a dot and
    characters that are neither dots nor slashes. *)
Definition has_extension (p ext : string) : Prop :=
  exists stem e,
    p = stem +:+ ext /\ ext = String "." e /\
    free_of "." e = true /\ free_of "/" e = true /\ named stem.

(** * Properties *)

(** ** Labels and cells *)

Lemma string_eqb_true (a b : string) : string_eqb a b = true <-> a = b.
Proof. unfold string_eqb. apply bool_decide_eq_true. Qed.

Lemma string_eqb_false (a b : string) : string_eqb a b = false <-> a <> b.
Proof. unfold string_eqb. apply bool_decide_eq_false. Qed.

Lemma string_eqb_refl (a : string) : string_eqb a a = true.
Proof. now apply string_eqb_true. Qed.

Lemma has_column_true (l : string) (cols : list string) :
  has_column l cols = true <-> l ∈ cols.
Proof.
  unfold has_column. rewrite existsb_exists. split.
  - intros (c & Hin & Heq). apply string_eqb_true in Heq. subst c.
    now apply list_elem_of_In.
  - intros Hin. exists l. split; [now apply list_elem_of_In | apply string_eqb_refl].
Qed.

Lemma has_column_false (l : string) (cols : list string) :
  has_column l cols = false <-> l ∉ cols.
Proof.
  rewrite <- has_column_true. destruct (has_column l cols); split; congruence.
Qed.

Lemma count_label_present (l : string) (cols : list string) :
  count_label l cols <> 0 -> l ∈ cols.
Proof.
  unfold count_label. induction cols as [|c cols IH]; [now intros []|].
  rewrite filter_cons. destruct (decide (string_eqb l c = true)) as [E|E].
  - intros _. apply string_eqb_true in E. subst c. apply list_elem_of_here.
  - intros H. apply list_elem_of_further. now apply IH.
Qed.

Lemma has_column_app (l : string) (xs ys : list string) :
  has_column l (xs ++ ys) = has_column l xs || has_column l ys.
Proof. unfold has_column. apply existsb_app. Qed.

Lemma column_index_Some (l : string) (cols : list string) (i : nat) :
  column_index l cols = Some i -> cols !! i = Some l /\ i < length cols.
Proof.
  revert i. induction cols as [|c cols IH]; intros i; simpl; [discriminate|].
  destruct (string_eqb l c) eqn:E.
  - intros [= <-]. apply string_eqb_true in E. subst. split; [reflexivity | lia].
  - destruct (column_index l cols) as [j|]; simpl; [|discriminate].
    intros [= <-]. destruct (IH j eq_refl) as [H1 H2]. split; [exact H1 | lia].
Qed.

Lemma column_index_None (l : string) (cols : list string) :
  column_index l cols = None <-> l ∉ cols.
Proof.
  induction cols as [|c cols IH]; simpl.
  - split; [intros _; apply not_elem_of_nil | reflexivity].
  - rewrite not_elem_of_cons. destruct (string_eqb l c) eqn:E.
    + apply string_eqb_true in E. split; [discriminate | intros [? _]; contradiction].
    + apply string_eqb_false in E.
      destruct (column_index l cols); simpl.
      * split; [discriminate | intros [_ H]; now apply IH in H].
      * split; [intros _; split; [exact E | now apply IH] | reflexivity].
Qed.

Lemma column_index_app_l (l : string) (xs ys : list string) :
  l ∈ xs -> column_index l (xs ++ ys) = column_index l xs.
Proof.
  induction xs as [|c xs IH]; simpl; intros Hin.
  - now apply elem_of_nil in Hin.
  - destruct (string_eqb l c) eqn:E; [reflexivity|].
    apply string_eqb_false in E. apply elem_of_cons in Hin as [?|Hin]; [contradiction|].
    now rewrite IH.
Qed.

Lemma column_index_app_r (l : string) (xs ys : list string) :
  l ∉ xs -> column_index l (xs ++ ys) = option_map (Nat.add (length xs)) (column_index l ys).
Proof.
  induction xs as [|c xs IH]; simpl; intros Hnin.
  - now destruct (column_index l ys).
  - apply not_elem_of_cons in Hnin as [Hne Hnin].
    apply string_eqb_false in Hne. rewrite Hne, (IH Hnin).
    now destruct (column_index l ys).
Qed.

Lemma drop_cells_absent {A : Type} (l : string) (cols : list string) (xs : list A) :
  l ∉ cols -> length xs = length cols -> drop_cells l cols xs = xs.
Proof.
  revert xs. induction cols as [|c cols IH]; intros [|x xs] Hnin Hlen;
    simpl in *; try discriminate; try reflexivity.
  apply not_elem_of_cons in Hnin as [Hne Hnin]. apply string_eqb_false in Hne.
  rewrite Hne. f_equal. apply IH; [exact Hnin | lia].
Qed.

Lemma drop_cells_app {A : Type} (l : string) (cols cols' : list string) (xs xs' : list A) :
  l ∉ cols -> length xs = length cols ->
  drop_cells l (cols ++ cols') (xs ++ xs') = xs ++ drop_cells l cols' xs'.
Proof.
  revert xs. induction cols as [|c cols IH]; intros [|x xs] Hnin Hlen;
    simpl in *; try discriminate; try reflexivity.
  apply not_elem_of_cons in Hnin as [Hne Hnin]. apply string_eqb_false in Hne.
  rewrite Hne. f_equal. apply IH; [exact Hnin | lia].
Qed.

Lemma map_cells_app (f : cell -> cell) (l : string) (cols cols' : list string)
    (row row' : list cell) :
  l ∉ cols -> length row = length cols ->
  map_cells f l (cols ++ cols') (row ++ row') = row ++ map_cells f l cols' row'.
Proof.
  revert row. induction cols as [|c cols IH]; intros [|x row] Hnin Hlen;
    simpl in *; try discriminate; try reflexivity.
  apply not_elem_of_cons in Hnin as [Hne Hnin]. apply string_eqb_false in Hne.
  rewrite Hne. f_equal. apply IH; [exact Hnin | lia].
Qed.

Lemma row_get_app_l (cols cols' : list string) (row row' : list cell) (l : string) :
  l ∈ cols -> length row = length cols ->
  row_get (cols ++ cols') (row ++ row') l = row_get cols row l.
Proof.
  intros Hin Hlen. unfold row_get. rewrite (column_index_app_l _ _ _ Hin).
  destruct (column_index l cols) as [i|] eqn:E; [|reflexivity].
  apply column_index_Some in E as [_ Hi].
  apply nth_error_app1. lia.
Qed.

Lemma row_get_last (cols : list string) (row : list cell) (l : string) (x : cell) :
  l ∉ cols -> length row = length cols ->
  row_get (cols ++ [l]) (row ++ [x]) l = Some x.
Proof.
  intros Hnin Hlen. unfold row_get. rewrite (column_index_app_r _ _ _ Hnin).
  simpl. rewrite string_eqb_refl. simpl.
  rewrite nth_error_app2 by lia.
  replace (length cols + 0 - length row) with 0 by lia. reflexivity.
Qed.

(** ** merge_grades_with_department *)

Lemma string_app_cons (x : ascii) (a b : string) :
  String x a +:+ b = String x (a +:+ b).
Proof. reflexivity. Qed.

Lemma string_app_nil_l (a : string) : "" +:+ a = a.
Proof. reflexivity. Qed.

Lemma string_app_assoc (a b c : string) : (a +:+ b) +:+ c = a +:+ (b +:+ c).
Proof.
  induction a as [|x a IH]; [reflexivity|].
  rewrite !string_app_cons. now rewrite IH.
Qed.

Lemma string_app_nil_r (a : string) : a +:+ "" = a.
Proof.
  induction a as [|x a IH]; [reflexivity|].
  rewrite string_app_cons. now rewrite IH.
Qed.

Lemma string_length_app (a b : string) :
  String.length (a +:+ b) = String.length a + String.length b.
Proof. induction a as [|c a IH]; simpl; [reflexivity | now rewrite IH]. Qed.

(** The grade column of a module is never the temporary key column. *)
Lemma grade_column_not_temp (module_code : string) :
  module_code +:+ "_Grade" <> "Index_No".
Proof.
  intros H. assert (Hlen := f_equal String.length H).
  rewrite string_length_app in Hlen. simpl in Hlen.
  destruct module_code as [|a [|b [|c s]]]; simpl in *; try lia.
  discriminate H.
Qed.

Lemma well_formed_b_true (df : DataFrame) :
  well_formed_b df = true <-> well_formed df.
Proof.
  unfold well_formed_b, well_formed. rewrite forallb_forall, List.Forall_forall.
  split; intros H row Hin; specialize (H row Hin); now apply Nat.eqb_eq.
Qed.

Lemma add_suffix_nil (suffix : string) (labels : list string) :
  add_suffix [] suffix labels = labels.
Proof.
  unfold add_suffix. rewrite <- (map_id labels) at 2.
  apply map_ext. intros l. reflexivity.
Qed.

Lemma suffix_collision_same (labels : list string) :
  suffix_collision labels labels = false.
Proof.
  unfold suffix_collision, duplicated. generalize (@nil string) as seen.
  induction labels as [|l ls IH]; intros seen; simpl; [reflexivity|].
  rewrite IH. now destruct (has_column l seen).
Qed.

Lemma filter_labels_nil (right cols : list string) :
  (forall l, l ∈ cols -> l ∉ right) ->
  filter (fun l => has_column l right = true) cols = [].
Proof.
  induction cols as [|c cols IH]; intros H; [reflexivity|].
  rewrite filter_cons. destruct (decide (has_column c right = true)) as [Hc|Hc].
  - apply has_column_true in Hc. exfalso. apply (H c); [apply list_elem_of_here | exact Hc].
  - apply IH. intros l Hl. apply H. now apply list_elem_of_further.
Qed.

Lemma join_row_merged (ki : nat) (grades : list GradeRecord) (gc : string)
    (cols : list string) (row : list cell) :
  "Index_No" ∉ cols -> gc ∉ cols -> gc <> "Index_No" -> length row = length cols ->
  map (map_cells (fillna (Str "N/A")) gc (cols ++ [gc]))
      (map (drop_cells "Index_No" (cols ++ ["Index_No"; gc])) (join_row ki grades row))
  = merged_rows ki grades row.
Proof.
  intros Htemp Hgc Hne Hlen. unfold join_row, merged_rows, grades_for.
  assert (Hdrop : forall a b : cell,
    drop_cells "Index_No" (cols ++ ["Index_No"; gc]) (row ++ [a; b]) = row ++ [b]).
  { intros a b. rewrite drop_cells_app by assumption. cbn [drop_cells].
    rewrite string_eqb_refl.
    assert (E : string_eqb "Index_No" gc = false) by (apply string_eqb_false; congruence).
    now rewrite E. }
  assert (Hfill : forall b : cell,
    map_cells (fillna (Str "N/A")) gc (cols ++ [gc]) (row ++ [b])
    = row ++ [fillna (Str "N/A") b]).
  { intros b. rewrite map_cells_app by assumption. cbn [map_cells].
    now rewrite string_eqb_refl. }
  destruct (filter _ grades) as [|g ms]; simpl.
  - now rewrite Hdrop, Hfill.
  - rewrite Hdrop, Hfill. simpl. f_equal.
    rewrite !map_map. apply map_ext. intros g'. now rewrite Hdrop, Hfill.
Qed.

(** The merge of a ready roster with a non-empty list of records succeeds;
    its result has the roster's labels and the grade column after them, and
    the rows [merged_rows] makes of the roster's rows, in the roster's order. *)
Lemma merge_ready_result (dept_df : DataFrame) (grades : list GradeRecord)
    (module_code : string) :
  merge_ready dept_df module_code = true -> grades <> [] ->
  exists ki,
    column_index "Index" (columns dept_df) = Some ki /\
    merge_grades_with_department dept_df grades module_code
    = Ok (mkFrame (columns dept_df ++ [module_code +:+ "_Grade"])
                  (flat_map (merged_rows ki grades) (rows dept_df))).
Proof.
  unfold merge_ready. intros Hready Hne.
  repeat (apply andb_prop in Hready as [Hready ?]).
  apply well_formed_b_true in Hready.
  rewrite negb_true_iff in *.
  match goal with H : Nat.eqb (count_label "Index" _) 1 = true |- _ =>
    apply Nat.eqb_eq in H; rename H into Hone end.
  assert (Hidx : "Index" ∈ columns dept_df) by (apply count_label_present; lia).
  match goal with H : has_column "Index_No" _ = false |- _ => apply has_column_false in H; rename H into Htemp end.
  match goal with H : has_column (_ +:+ _) _ = false |- _ => apply has_column_false in H; rename H into Hgc end.
  match goal with H : numeric_dtype _ = false |- _ => rename H into Hnum end.
  set (gc := module_code +:+ "_Grade") in *.
  destruct (column_index "Index" (columns dept_df)) as [ki|] eqn:Eki;
    [|apply column_index_None in Eki; contradiction].
  exists ki. split; [reflexivity|].
  unfold merge_grades_with_department. destruct grades as [|g0 grades]; [contradiction|].
  fold gc. unfold merge_left. rewrite Eki, Hone. change (Nat.ltb 1 1) with false. cbv iota.
  unfold index_cells in Hnum. rewrite Eki in Hnum. rewrite Hnum.
  rewrite (filter_labels_nil ["Index_No"; gc]).
  2:{ intros l Hl Hr. apply elem_of_cons in Hr as [->|Hr]; [contradiction|].
      apply list_elem_of_singleton in Hr. subst l. contradiction. }
  rewrite !add_suffix_nil, suffix_collision_same. cbn [bind columns rows].
  assert (Hne' : gc <> "Index_No") by apply grade_column_not_temp.
  assert (H1 : has_column "Index_No" (columns dept_df ++ ["Index_No"; gc]) = true).
  { apply has_column_true, elem_of_app. right. apply list_elem_of_here. }
  rewrite H1. unfold drop_column. cbn [columns rows].
  assert (H2 : drop_cells "Index_No" (columns dept_df ++ ["Index_No"; gc])
                 (columns dept_df ++ ["Index_No"; gc]) = columns dept_df ++ [gc]).
  { rewrite drop_cells_app by (assumption || reflexivity). cbn [drop_cells].
    rewrite string_eqb_refl.
    assert (E : string_eqb "Index_No" gc = false) by (apply string_eqb_false; congruence).
    now rewrite E. }
  rewrite H2.
  assert (H3 : has_column gc (columns dept_df ++ [gc]) = true).
  { apply has_column_true, elem_of_app. right. apply list_elem_of_here. }
  rewrite H3. do 2 f_equal. clear Hnum.
  unfold well_formed in Hready. induction Hready as [|row rs Hrow _ IH]; [reflexivity|].
  cbn [flat_map]. rewrite !map_app, IH. f_equal.
  now apply join_row_merged.
Qed.

Lemma nth_error_nth_default (row : list cell) (i : nat) :
  i < length row -> nth_error row i = Some (nth i row NaN).
Proof. intros Hi. now apply nth_error_nth'. Qed.

Lemma row_get_index (cols : list string) (row : list cell) (ki : nat) :
  column_index "Index" cols = Some ki -> length row = length cols ->
  row_get cols row "Index" = Some (nth ki row NaN).
Proof.
  intros Eki Hlen. unfold row_get. rewrite Eki.
  apply column_index_Some in Eki as [_ Hi]. apply nth_error_nth_default. lia.
Qed.

Lemma grades_for_matches (key : cell) (grades : list GradeRecord) (g : string) :
  g ∈ grades_for key grades ->
  exists r, r ∈ grades /\ key = Str (Index_No r) /\ g = Grade r.
Proof.
  unfold grades_for. rewrite list_elem_of_In, in_map_iff.
  intros (r & <- & Hin). apply list_elem_of_In, list_elem_of_filter in Hin as [Hm Hin].
  exists r. repeat split; [exact Hin|].
  destruct key; simpl in Hm; try discriminate.
  apply string_eqb_true in Hm. now subst.
Qed.

Lemma grades_for_nil (key : cell) (grades : list GradeRecord) :
  grades_for key grades = [] ->
  forall r, r ∈ grades -> key <> Str (Index_No r).
Proof.
  unfold grades_for. intros Hnil r Hin ->.
  apply map_eq_nil in Hnil.
  assert (Hr : r ∈ filter (fun g => key_matches (Str (Index_No r)) g = true) grades).
  { apply list_elem_of_filter. split; [simpl; apply string_eqb_refl | exact Hin]. }
  rewrite Hnil in Hr. now apply elem_of_nil in Hr.
Qed.

(** Student ids that differ pairwise give a key at most one grade. *)
Lemma grades_for_unique (key : cell) (grades : list GradeRecord) :
  NoDup (map Index_No grades) -> length (grades_for key grades) <= 1.
Proof.
  unfold grades_for. rewrite length_map.
  induction grades as [|r grades IH]; simpl; intros Hnd; [lia|].
  apply NoDup_cons in Hnd as [Hnin Hnd].
  rewrite filter_cons. destruct (decide (key_matches key r = true)) as [Hm|Hm];
    [|now apply IH].
  simpl. destruct (filter _ grades) as [|r' rest] eqn:E; [simpl; lia|].
  exfalso. apply Hnin.
  assert (Hr' : r' ∈ filter (fun g => key_matches key g = true) grades)
    by (rewrite E; apply list_elem_of_here).
  apply list_elem_of_filter in Hr' as [Hm' Hin'].
  destruct key; simpl in Hm, Hm'; try discriminate.
  apply string_eqb_true in Hm, Hm'. rewrite <- Hm, Hm'.
  apply list_elem_of_In, in_map, list_elem_of_In, Hin'.
Qed.

Lemma merged_rows_unique (ki : nat) (grades : list GradeRecord) (row : list cell) :
  NoDup (map Index_No grades) ->
  merged_rows ki grades row = [row ++ [grade_cell (nth ki row NaN) grades]].
Proof.
  intros Hnd. unfold merged_rows, grade_cell.
  pose proof (grades_for_unique (nth ki row NaN) grades Hnd) as Hlen.
  destruct (grades_for _ grades) as [|g [|g' gs]]; simpl in *; try reflexivity; lia.
Qed.

Lemma flat_map_singleton {A B : Type} (f : A -> B) (g : A -> list B) (l : list A) :
  (forall x, g x = [f x]) -> flat_map g l = map f l.
Proof.
  intros H. induction l as [|x l IH]; simpl; [reflexivity|]. now rewrite H, IH.
Qed.

(** With unique student ids the merge appends one cell to every row. *)
Lemma merge_unique_result (dept_df : DataFrame) (grades : list GradeRecord)
    (module_code : string) :
  merge_ready dept_df module_code = true -> grades <> [] ->
  NoDup (map Index_No grades) ->
  exists ki,
    column_index "Index" (columns dept_df) = Some ki /\
    merge_grades_with_department dept_df grades module_code
    = Ok (mkFrame (columns dept_df ++ [module_code +:+ "_Grade"])
                  (map (fun row => row ++ [grade_cell (nth ki row NaN) grades])
                       (rows dept_df))).
Proof.
  intros Hready Hne Hnd.
  destruct (merge_ready_result dept_df grades module_code Hready Hne) as (ki & Eki & Hm).
  exists ki. split; [exact Eki|]. rewrite Hm. do 2 f_equal.
  apply flat_map_singleton. intros row. now apply merged_rows_unique.
Qed.

Lemma merge_ready_well_formed (dept_df : DataFrame) (module_code : string) :
  merge_ready dept_df module_code = true -> well_formed dept_df.
Proof.
  unfold merge_ready. intros H. repeat (apply andb_prop in H as [H _]).
  now apply well_formed_b_true.
Qed.

Lemma merge_ready_no_grade (dept_df : DataFrame) (module_code : string) :
  merge_ready dept_df module_code = true ->
  (module_code +:+ "_Grade") ∉ columns dept_df.
Proof.
  unfold merge_ready. intros H. apply andb_prop in H as [_ H].
  apply negb_true_iff in H. now apply has_column_false.
Qed.

Lemma column_values_extended (df : DataFrame) (new : string) (f : list cell -> cell)
    (label : string) :
  well_formed df -> label ∈ columns df ->
  column_values (mkFrame (columns df ++ [new]) (map (fun row => row ++ [f row]) (rows df)))
                label
  = column_values df label.
Proof.
  intros Hwf Hin. unfold column_values. cbn [columns rows].
  rewrite (column_index_app_l _ _ _ Hin).
  destruct (column_index label (columns df)) as [i|] eqn:Ei; [|reflexivity].
  apply column_index_Some in Ei as [_ Hi]. f_equal.
  rewrite map_map. apply map_ext_in. intros row Hrow.
  unfold well_formed in Hwf. rewrite List.Forall_forall in Hwf.
  apply app_nth1. rewrite (Hwf row Hrow). exact Hi.
Qed.

(** C3, as amended. A roster that is ready for the module (complete rows,
    exactly one column labelled [Index], holding strings, and no column
    labelled [Index_No] or [<module_code>_Grade]), merged with a non-empty
    list of records in which no student id occurs twice, gives a roster with
    as many rows, with the labels of the input followed by the one new label
    [<module_code>_Grade], and with every column of the input holding the
    values it held. *)
Theorem merge_shape_unique_ids (dept_df : DataFrame) (grades : list GradeRecord)
    (module_code : string) :
  merge_ready dept_df module_code = true -> grades <> [] ->
  NoDup (map Index_No grades) ->
  exists out,
    merge_grades_with_department dept_df grades module_code = Ok out /\
    length (rows out) = length (rows dept_df) /\
    columns out = columns dept_df ++ [module_code +:+ "_Grade"] /\
    (forall label, label ∈ columns dept_df ->
       column_values out label = column_values dept_df label).
Proof.
  intros Hready Hne Hnd.
  destruct (merge_unique_result dept_df grades module_code Hready Hne Hnd)
    as (ki & Eki & Hm).
  eexists. split; [exact Hm|]. cbn [columns rows]. repeat split.
  - apply length_map.
  - intros label Hin.
    apply (column_values_extended dept_df _ (fun row => grade_cell (nth ki row NaN) grades)).
    + now apply (merge_ready_well_formed _ module_code).
    + exact Hin.
Qed.

(** C3 fails as stated: one roster row, two records of that student, two rows. *)
Lemma merge_row_count_counterexample :
  exists out,
    merge_grades_with_department roster_one twice_listed "CS2023" = Ok out /\
    length (rows out) <> length (rows roster_one).
Proof.
  eexists. split; [vm_compute; reflexivity|]. cbn. lia.
Qed.

Lemma merge_shape_witness :
  exists out,
    merge_grades_with_department roster_two one_record "CS2023" = Ok out /\
    length (rows out) = length (rows roster_two) /\
    columns out = columns roster_two ++ ["CS2023_Grade"] /\
    (forall label, label ∈ columns roster_two ->
       column_values out label = column_values roster_two label).
Proof.
  apply (merge_shape_unique_ids roster_two one_record "CS2023").
  - reflexivity.
  - discriminate.
  - repeat constructor. apply not_elem_of_nil.
Defined.

(** ** The roster a merge returns *)

Lemma string_app_last (a b : string) (x y : ascii) :
  a +:+ String x "" = b +:+ String y "" -> x = y.
Proof.
  revert b. induction a as [|c a IH]; intros [|d b] H.
  - now injection H.
  - rewrite string_app_nil_l, string_app_cons in H. injection H as _ H.
    destruct b; discriminate H.
  - rewrite string_app_nil_l, string_app_cons in H. injection H as _ H.
    destruct a; discriminate H.
  - rewrite !string_app_cons in H. injection H as _ H. now apply (IH b).
Qed.

Lemma grade_column_last (module_code s : string) (x : ascii) :
  x <> "e"%char -> s +:+ String x "" <> module_code +:+ "_Grade".
Proof.
  intros Hx H. apply Hx.
  apply (string_app_last s (module_code +:+ "_Grad")).
  now rewrite string_app_assoc.
Qed.

Lemma endswith_app (a b : string) : endswith (a +:+ b) b = true.
Proof.
  induction a as [|c a IH].
  - rewrite string_app_nil_l. destruct b; cbn [endswith]; now rewrite string_eqb_refl.
  - rewrite string_app_cons. cbn [endswith]. rewrite IH. now destruct (string_eqb _ b).
Qed.

Lemma drop_cells_subset (l : string) (cols : list string) (c : string) :
  c ∈ drop_cells l cols cols -> c ∈ cols.
Proof.
  induction cols as [|c' cols IH]; simpl; [easy|].
  destruct (string_eqb l c').
  - intros H. apply list_elem_of_further. now apply IH.
  - intros [->|H]%elem_of_cons; [apply list_elem_of_here|].
    apply list_elem_of_further. now apply IH.
Qed.

Lemma grade_columns_drop (l : string) (cols : list string) :
  endswith l "_Grade" = false ->
  grade_columns_of (drop_cells l cols cols) = grade_columns_of cols.
Proof.
  intros Hl. unfold grade_columns_of. induction cols as [|c cols IH]; [reflexivity|].
  simpl. destruct (string_eqb l c) eqn:E.
  - apply string_eqb_true in E. subst c.
    rewrite filter_cons_False by (rewrite Hl; discriminate). exact IH.
  - rewrite !filter_cons. destruct (decide (endswith c "_Grade" = true)); now rewrite IH.
Qed.

Lemma grade_columns_add_suffix (overlap cols : list string) :
  (forall l, l ∈ overlap -> l = "Index_No") ->
  grade_columns_of (add_suffix overlap "_x" cols) = grade_columns_of cols.
Proof.
  intros Hov. unfold grade_columns_of, add_suffix.
  induction cols as [|c cols IH]; [reflexivity|].
  cbn [map]. destruct (has_column c overlap) eqn:E.
  - apply has_column_true, Hov in E. subst c.
    rewrite !filter_cons_False by (vm_compute; discriminate). exact IH.
  - rewrite !filter_cons. destruct (decide (endswith c "_Grade" = true)); now rewrite IH.
Qed.

Lemma join_row_nonempty (ki : nat) (grades : list GradeRecord) (row : list cell) :
  0 < length (join_row ki grades row).
Proof.
  unfold join_row. destruct (filter _ grades); simpl; lia.
Qed.

Lemma flat_map_length_le {A B : Type} (f : A -> list B) (l : list A) :
  (forall a, 0 < length (f a)) -> length l <= length (flat_map f l).
Proof.
  intros H. induction l as [|a l IH]; simpl; [lia|].
  rewrite length_app. specialize (H a). lia.
Qed.

(** The roster a merge returns: the module had no column before, the grade
    columns are those of the input and the module's after them, and no row
    of the input is lost. *)
Lemma merge_Ok_inv (dept_df : DataFrame) (grades : list GradeRecord)
    (module_code : string) (merged : DataFrame) :
  merge_grades_with_department dept_df grades module_code = Ok merged ->
  has_column (module_code +:+ "_Grade") (columns dept_df) = false /\
  grade_columns_of (columns merged)
  = grade_columns_of (columns dept_df) ++ [module_code +:+ "_Grade"] /\
  length (rows dept_df) <= length (rows merged).
Proof.
  unfold merge_grades_with_department.
  set (gc := module_code +:+ "_Grade").
  destruct grades as [|g0 grades]; [discriminate|].
  unfold merge_left.
  destruct (column_index "Index" (columns dept_df)) as [ki|]; [|discriminate].
  destruct (Nat.ltb 1 (count_label "Index" (columns dept_df))); [discriminate|].
  destruct (numeric_dtype _); [discriminate|].
  set (overlap := filter (fun l => has_column l ["Index_No"; gc] = true) (columns dept_df)).
  destruct (suffix_collision _ _); [discriminate|]. cbn [bind].
  set (llabels := add_suffix overlap "_x" (columns dept_df)).
  set (rlabels := add_suffix overlap "_y" ["Index_No"; gc]).
  set (joined := flat_map (join_row ki (g0 :: grades)) (rows dept_df)).
  intros H.
  assert (Hov : forall l, l ∈ overlap -> l ∈ columns dept_df /\ (l = "Index_No" \/ l = gc)).
  { intros l [Hl Hin]%list_elem_of_filter. split; [exact Hin|].
    apply has_column_true in Hl. apply elem_of_cons in Hl as [->|Hl]; [now left|].
    apply list_elem_of_singleton in Hl. now right. }
  assert (Hrows : length (rows dept_df) <= length joined).
  { apply flat_map_length_le. intros row. apply join_row_nonempty. }
  assert (Hgce : endswith gc "_Grade" = true) by apply endswith_app.
  destruct (has_column gc (columns dept_df)) eqn:Hgc.
  - (* the module has a column: the suffixes rename both, and the check fails *)
    exfalso. revert H. 
    assert (Hin : gc ∈ overlap).
    { apply list_elem_of_filter. split.
      - apply has_column_true. apply list_elem_of_further, list_elem_of_here.
      - now apply has_column_true. }
    assert (Hno : gc ∉ llabels ++ rlabels).
    { intros [Hl|Hr]%elem_of_app.
      - unfold llabels, add_suffix in Hl. apply list_elem_of_fmap in Hl as (l & Hl & Hlin).
        destruct (has_column l overlap) eqn:El.
        + symmetry in Hl. revert Hl.
          replace (l +:+ "_x") with ((l +:+ "_") +:+ "x") by now rewrite string_app_assoc.
          now apply grade_column_last.
        + subst l. apply has_column_false in El. contradiction.
      - unfold rlabels, add_suffix in Hr. cbn [map] in Hr.
        apply has_column_true in Hin. rewrite Hin in Hr.
        apply elem_of_cons in Hr as [Hr|Hr].
        + destruct (has_column "Index_No" overlap); revert Hr.
          * change ("Index_No" +:+ "_y") with ("Index_No_" +:+ "y"). intros Hr. symmetry in Hr.
            revert Hr. now apply grade_column_last.
          * change "Index_No" with ("Index_N" +:+ "o"). intros Hr. symmetry in Hr.
            revert Hr. now apply grade_column_last.
        + apply list_elem_of_singleton in Hr.
          assert (Hlen := f_equal String.length Hr).
          rewrite string_length_app in Hlen. simpl in Hlen. lia. }
    destruct (has_column "Index_No" (columns (mkFrame (llabels ++ rlabels) joined))).
    + unfold drop_column. cbn [columns rows].
      assert (Hno' : has_column gc (drop_cells "Index_No" (llabels ++ rlabels) (llabels ++ rlabels)) = false).
      { apply has_column_false. intros Hd. apply Hno. now apply drop_cells_subset in Hd. }
      now rewrite Hno'.
    + cbn [columns rows]. apply has_column_false in Hno. now rewrite Hno.
  - (* the module has no column *)
    assert (Hov' : forall l, l ∈ overlap -> l = "Index_No").
    { intros l Hl. destruct (Hov l Hl) as [Hin [->| ->]]; [reflexivity|].
      apply has_column_false in Hgc. contradiction. }
    assert (Hll : grade_columns_of llabels = grade_columns_of (columns dept_df))
      by now apply grade_columns_add_suffix.
    assert (Hrl : grade_columns_of rlabels = [gc]).
    { unfold rlabels, add_suffix. cbn [map].
      assert (E : has_column gc overlap = false).
      { apply has_column_false. intros Hin. apply Hov in Hin as [Hin _].
        apply has_column_false in Hgc. contradiction. }
      rewrite E. unfold grade_columns_of.
      rewrite filter_cons_False
        by (destruct (has_column "Index_No" overlap); vm_compute; discriminate).
      rewrite filter_cons_True by exact Hgce. reflexivity. }
    assert (Hall : grade_columns_of (llabels ++ rlabels)
                   = grade_columns_of (columns dept_df) ++ [gc]).
    { unfold grade_columns_of in *. now rewrite filter_app, Hll, Hrl. }
    split; [reflexivity|].
    destruct (has_column "Index_No" (columns (mkFrame (llabels ++ rlabels) joined))).
    + unfold drop_column in H. cbn [columns rows] in H.
      destruct (has_column gc _); [|discriminate]. injection H as <-.
      cbn [columns rows]. split.
      * now rewrite grade_columns_drop by reflexivity.
      * now rewrite !length_map.
    + cbn [columns rows] in H.
      destruct (has_column gc _); [|discriminate]. injection H as <-.
      cbn [columns rows]. split; [exact Hall | now rewrite length_map].
Qed.

Lemma count_label_in (l : string) (cols : list string) :
  l ∈ cols -> count_label l cols <> 0.
Proof.
  unfold count_label. induction cols as [|c cols IH]; [now intros ?%elem_of_nil|].
  rewrite filter_cons. destruct (decide (string_eqb l c = true)) as [E|E]; [discriminate|].
  intros [->|H]%elem_of_cons; [|now apply IH].
  exfalso. apply E, string_eqb_refl.
Qed.

(** What a merge that returns has found in the roster. *)
Lemma merge_Ok_conditions (dept_df : DataFrame) (grades : list GradeRecord)
    (module_code : string) (merged : DataFrame) :
  merge_grades_with_department dept_df grades module_code = Ok merged ->
  grades <> [] /\
  exists ki,
    column_index "Index" (columns dept_df) = Some ki /\
    count_label "Index" (columns dept_df) = 1 /\
    numeric_dtype (index_cells dept_df) = false.
Proof.
  unfold merge_grades_with_department, merge_left, index_cells.
  destruct grades as [|g0 grades]; [discriminate|].
  destruct (column_index "Index" (columns dept_df)) as [ki|] eqn:Eki; [|discriminate].
  destruct (Nat.ltb 1 (count_label "Index" (columns dept_df))) eqn:Eone; [discriminate|].
  destruct (numeric_dtype _) eqn:Enum; [discriminate|].
  intros _. split; [discriminate|]. exists ki. split; [reflexivity|]. split; [|reflexivity].
  apply Nat.ltb_ge in Eone.
  assert (Hin : "Index" ∈ columns dept_df).
  { apply column_index_Some in Eki as [Hl _]. now apply list_elem_of_lookup_2 in Hl. }
  apply count_label_in in Hin. lia.
Qed.

(** A well-formed roster without a column [Index_No] for which the merge
    returns is ready for the module. *)
Lemma merge_Ok_ready (dept_df : DataFrame) (grades : list GradeRecord)
    (module_code : string) (merged : DataFrame) :
  well_formed_b dept_df = true ->
  has_column "Index_No" (columns dept_df) = false ->
  merge_grades_with_department dept_df grades module_code = Ok merged ->
  merge_ready dept_df module_code = true.
Proof.
  intros Hwf Htemp Hm.
  destruct (merge_Ok_conditions _ _ _ _ Hm) as (_ & ki & _ & Hone & Hnum).
  apply merge_Ok_inv in Hm as (Hgc & _).
  unfold merge_ready. now rewrite Hwf, Hone, Hnum, Htemp, Hgc.
Qed.

Lemma left_label_not_temp (l : string) : left_label l <> "Index_No".
Proof.
  unfold left_label. destruct (string_eqb l "Index_No") eqn:E; [discriminate|].
  now apply string_eqb_false in E.
Qed.

Lemma column_index_left_label (cols : list string) :
  column_index "Index" (map left_label cols) = column_index "Index" cols.
Proof.
  induction cols as [|c cols IH]; [reflexivity|]. cbn [map column_index].
  rewrite IH. f_equal. unfold left_label.
  destruct (string_eqb c "Index_No") eqn:E; [|reflexivity].
  apply string_eqb_true in E. now subst c.
Qed.

(** The result of the merge into a roster that has a column [Index_No]:
    that column is renamed, the key of the records stays beside the grade. *)
Lemma merge_kept_key_result (dept_df : DataFrame) (grades : list GradeRecord)
    (module_code : string) (merged : DataFrame) :
  well_formed_b dept_df = true ->
  has_column "Index_No" (columns dept_df) = true ->
  merge_grades_with_department dept_df grades module_code = Ok merged ->
  exists ki,
    column_index "Index" (columns dept_df) = Some ki /\
    merged = mkFrame (map left_label (columns dept_df)
                      ++ ["Index_No_y"; module_code +:+ "_Grade"])
                     (flat_map (kept_key_rows ki grades) (rows dept_df)).
Proof.
  intros Hwf Htemp Hm. apply well_formed_b_true in Hwf.
  pose proof (merge_Ok_inv _ _ _ _ Hm) as (Hgc & _).
  revert Hm. unfold merge_grades_with_department.
  set (gc := module_code +:+ "_Grade") in *.
  destruct grades as [|g0 grades]; [discriminate|].
  unfold merge_left.
  destruct (column_index "Index" (columns dept_df)) as [ki|] eqn:Eki; [|discriminate].
  destruct (Nat.ltb 1 (count_label "Index" (columns dept_df))); [discriminate|].
  destruct (numeric_dtype _); [discriminate|].
  set (overlap := filter (fun l => has_column l ["Index_No"; gc] = true) (columns dept_df)).
  destruct (suffix_collision _ _); [discriminate|]. cbn [bind].
  assert (Hov : forall l, has_column l overlap = true <-> l = "Index_No").
  { intros l. rewrite has_column_true. unfold overlap. rewrite list_elem_of_filter.
    rewrite has_column_true. split.
    - intros [[->|Hl]%elem_of_cons Hin]; [reflexivity|].
      apply list_elem_of_singleton in Hl. subst l.
      apply has_column_false in Hgc. contradiction.
    - intros ->. split; [apply list_elem_of_here | now apply has_column_true]. }
  assert (Hll : add_suffix overlap "_x" (columns dept_df) = map left_label (columns dept_df)).
  { unfold add_suffix. apply map_ext. intros l. unfold left_label.
    destruct (string_eqb l "Index_No") eqn:E.
    - apply string_eqb_true in E. subst l.
      now rewrite (proj2 (Hov "Index_No") eq_refl).
    - apply string_eqb_false in E. destruct (has_column l overlap) eqn:El; [|reflexivity].
      apply Hov in El. contradiction. }
  assert (Hrl : add_suffix overlap "_y" ["Index_No"; gc] = ["Index_No_y"; gc]).
  { unfold add_suffix. cbn [map]. rewrite (proj2 (Hov "Index_No") eq_refl).
    destruct (has_column gc overlap) eqn:El; [|reflexivity].
    apply Hov in El. now apply grade_column_not_temp in El. }
  rewrite Hll, Hrl. set (llabels := map left_label (columns dept_df)).
  assert (Hl1 : "Index_No" ∉ llabels).
  { unfold llabels. intros (l & Hl & _)%list_elem_of_fmap.
    symmetry in Hl. now apply left_label_not_temp in Hl. }
  assert (Hl2 : gc ∉ llabels).
  { unfold llabels. intros (l & Hl & Hin)%list_elem_of_fmap.
    unfold left_label in Hl. destruct (string_eqb l "Index_No").
    - revert Hl. unfold gc. change "Index_No_x" with ("Index_No_" +:+ "x").
      intros Hl. symmetry in Hl. revert Hl. now apply grade_column_last.
    - subst l. apply has_column_false in Hgc. contradiction. }
  assert (H1 : has_column "Index_No" (llabels ++ ["Index_No_y"; gc]) = false).
  { apply has_column_false. intros [H|H]%elem_of_app; [contradiction|].
    apply elem_of_cons in H as [H|H]; [discriminate H|].
    apply list_elem_of_singleton in H. symmetry in H.
    now apply grade_column_not_temp in H. }
  cbn [columns]. rewrite H1. cbn [columns rows].
  assert (H2 : has_column gc (llabels ++ ["Index_No_y"; gc]) = true).
  { apply has_column_true, elem_of_app. right.
    apply list_elem_of_further, list_elem_of_here. }
  rewrite H2. intros [= <-]. exists ki. split; [reflexivity|]. f_equal.
  unfold well_formed in Hwf. induction Hwf as [|row rs Hrow _ IH]; [reflexivity|].
  cbn [flat_map]. rewrite map_app, IH. f_equal.
  assert (Hfill : forall a b : cell,
    map_cells (fillna (Str "N/A")) gc (llabels ++ ["Index_No_y"; gc]) (row ++ [a; b])
    = row ++ [a; fillna (Str "N/A") b]).
  { intros a b. rewrite map_cells_app;
      [|exact Hl2 | unfold llabels; now rewrite length_map].
    cbn [map_cells]. rewrite string_eqb_refl.
    assert (E : string_eqb gc "Index_No_y" = false).
    { apply string_eqb_false. unfold gc. change "Index_No_y" with ("Index_No_" +:+ "y").
      apply not_eq_sym. now apply grade_column_last. }
    now rewrite E. }
  unfold join_row, kept_key_rows.
  destruct (filter _ (g0 :: grades)) as [|g ms]; cbn [map].
  - now rewrite Hfill.
  - rewrite Hfill. cbn [fillna isna]. f_equal.
    rewrite map_map. apply map_ext. intros g'. now rewrite Hfill.
Qed.

(** C4. For every roster with complete rows: the merge of a roster that
    is ready for the module with a non-empty list of records returns; and
    whenever the merge returns a roster, every row of that roster is made of
    a row of the input, with the same [Index], and holds in the new grade
    column the grade of a record whose student id is that [Index], or
    ["N/A"] when no record has that id. A record whose id is in no row of
    the roster leaves no row. *)
Theorem merge_grade_column (dept_df : DataFrame) (grades : list GradeRecord)
    (module_code : string) :
  well_formed_b dept_df = true ->
  (merge_ready dept_df module_code = true -> grades <> [] ->
   exists out, merge_grades_with_department dept_df grades module_code = Ok out) /\
  forall out,
    merge_grades_with_department dept_df grades module_code = Ok out ->
    forall row', row' ∈ rows out ->
      exists row g,
        row ∈ rows dept_df /\
        row_get (columns out) row' "Index" = row_get (columns dept_df) row "Index" /\
        row_get (columns out) row' (module_code +:+ "_Grade") = Some (Str g) /\
        ((exists r, r ∈ grades /\
                    row_get (columns out) row' "Index" = Some (Str (Index_No r)) /\
                    g = Grade r)
         \/ ((forall r, r ∈ grades ->
                row_get (columns out) row' "Index" <> Some (Str (Index_No r))) /\
             g = "N/A")).
Proof.
  intros Hwfb. split.
  { intros Hready Hne.
    destruct (merge_ready_result dept_df grades module_code Hready Hne) as (ki & _ & Hm).
    eexists. exact Hm. }
  intros out Hm row' Hrow'.
  pose proof (proj1 (well_formed_b_true dept_df) Hwfb) as Hwf.
  unfold well_formed in Hwf. rewrite List.Forall_forall in Hwf.
  set (gc := module_code +:+ "_Grade").
  destruct (has_column "Index_No" (columns dept_df)) eqn:Etemp.
  - (* the roster has a column Index_No: the key of the record stays *)
    pose proof (merge_Ok_inv _ _ _ _ Hm) as (Hgc & _). fold gc in Hgc.
    destruct (merge_kept_key_result _ _ _ _ Hwfb Etemp Hm) as (ki & Eki & ->).
    cbn [columns rows] in *. fold gc.
    apply list_elem_of_In, in_flat_map in Hrow' as (row & Hrow & Hin).
    pose proof (Hwf row Hrow) as Hlen.
    set (llabels := map left_label (columns dept_df)).
    assert (Hll : length row = length llabels) by (unfold llabels; now rewrite length_map).
    assert (Hidx : "Index" ∈ llabels).
    { destruct (column_index "Index" llabels) eqn:E.
      - apply column_index_Some in E as [Hl _]. now apply list_elem_of_lookup_2 in Hl.
      - unfold llabels in E. rewrite column_index_left_label in E. congruence. }
    assert (Hkey : forall a b, row_get (llabels ++ ["Index_No_y"; gc]) (row ++ [a; b]) "Index"
                               = Some (nth ki row NaN)).
    { intros a b. rewrite row_get_app_l by assumption.
      apply row_get_index; [|exact Hll].
      unfold llabels. now rewrite column_index_left_label. }
    assert (Hgrade : forall a b, row_get (llabels ++ ["Index_No_y"; gc]) (row ++ [a; b]) gc
                                 = Some b).
    { intros a b.
      change (llabels ++ ["Index_No_y"; gc]) with (llabels ++ ["Index_No_y"] ++ [gc]).
      change (row ++ [a; b]) with (row ++ [a] ++ [b]).
      rewrite !app_assoc. apply row_get_last.
      - intros [H|H]%elem_of_app.
        + unfold llabels in H. apply list_elem_of_fmap in H as (l & Hl & Hlin).
          unfold left_label in Hl. destruct (string_eqb l "Index_No").
          * revert Hl. unfold gc. change "Index_No_x" with ("Index_No_" +:+ "x").
            intros Hl. symmetry in Hl. revert Hl. now apply grade_column_last.
          * subst l. apply has_column_false in Hgc. contradiction.
        + apply list_elem_of_singleton in H. revert H. unfold gc.
          change "Index_No_y" with ("Index_No_" +:+ "y").
          intros H. symmetry in H. revert H. now apply grade_column_last.
      - rewrite !length_app. cbn [length]. lia. }
    assert (Hold : row_get (columns dept_df) row "Index" = Some (nth ki row NaN))
      by now apply row_get_index.
    unfold kept_key_rows in Hin.
    destruct (filter (fun g => key_matches (nth ki row NaN) g = true) grades)
      as [|g0 ms] eqn:Ems.
    + destruct Hin as [<-|[]]. exists row, "N/A".
      split; [now apply list_elem_of_In|]. rewrite Hkey, Hgrade, Hold.
      split; [reflexivity|]. split; [reflexivity|].
      right. split; [|reflexivity]. intros r Hr [= Heq].
      apply (grades_for_nil (nth ki row NaN) grades) with (r := r); [|exact Hr | exact Heq].
      unfold grades_for. now rewrite Ems.
    + apply in_map_iff in Hin as (g & <- & Hg). exists row, (Grade g).
      split; [now apply list_elem_of_In|]. rewrite Hkey, Hgrade, Hold.
      split; [reflexivity|]. split; [reflexivity|].
      left. rewrite <- Ems in Hg. apply list_elem_of_In, list_elem_of_filter in Hg as [Hk Hg].
      exists g. split; [exact Hg|]. split; [|reflexivity].
      destruct (nth ki row NaN); simpl in Hk; try discriminate.
      apply string_eqb_true in Hk. now subst.
  - (* the roster is ready: the row gets the one new cell *)
    pose proof (merge_Ok_ready _ _ _ _ Hwfb Etemp Hm) as Hready.
    destruct (merge_Ok_conditions _ _ _ _ Hm) as (Hne & _).
    destruct (merge_ready_result dept_df grades module_code Hready Hne) as (ki & Eki & Hm').
    pose proof (merge_ready_no_grade _ _ Hready) as Hgc.
    rewrite Hm' in Hm. injection Hm as <-. cbn [columns rows] in *. fold gc in Hgc |- *.
    apply list_elem_of_In, in_flat_map in Hrow' as (row & Hrow & Hin).
    pose proof (Hwf row Hrow) as Hlen.
    assert (Hidx : "Index" ∈ columns dept_df).
    { apply column_index_Some in Eki as [Hl _]. now apply list_elem_of_lookup_2 in Hl. }
    assert (Hkey : forall x, row_get (columns dept_df ++ [gc]) (row ++ [x]) "Index"
                             = Some (nth ki row NaN)).
    { intros x. rewrite row_get_app_l by assumption. now apply row_get_index. }
    assert (Hold : row_get (columns dept_df) row "Index" = Some (nth ki row NaN))
      by now apply row_get_index.
    unfold merged_rows in Hin.
    destruct (grades_for (nth ki row NaN) grades) as [|g0 gs] eqn:Egs.
    + destruct Hin as [<-|[]]. exists row, "N/A".
      split; [now apply list_elem_of_In|]. rewrite Hkey, Hold.
      split; [reflexivity|]. split; [now apply row_get_last|].
      right. split; [|reflexivity]. intros r Hr [= Heq].
      now apply (grades_for_nil _ _ Egs r Hr).
    + apply in_map_iff in Hin as (g & <- & Hg). exists row, g.
      split; [now apply list_elem_of_In|]. rewrite Hkey, Hold.
      split; [reflexivity|]. split; [now apply row_get_last|].
      left. rewrite <- Egs in Hg. apply list_elem_of_In, grades_for_matches in Hg
        as (r & Hr & Hk & ->).
      exists r. split; [exact Hr|]. split; [|reflexivity]. now f_equal.
Qed.

(** The merge scenario of the specification. *)
Lemma merge_scenario :
  merge_grades_with_department roster_two one_record "CS2023"
  = Ok (mkFrame ["Index"; "CS2023_Grade"]
                [[Str "200145A"; Str "B+"]; [Str "200146B"; Str "N/A"]])
  /\ forall row',
       row' ∈ [[Str "200145A"; Str "B+"]; [Str "200146B"; Str "N/A"]] ->
       exists row g,
         row ∈ rows roster_two /\
         row_get ["Index"; "CS2023_Grade"] row' "Index"
         = row_get (columns roster_two) row "Index" /\
         row_get ["Index"; "CS2023_Grade"] row' "CS2023_Grade" = Some (Str g).
Proof.
  assert (Hm : merge_grades_with_department roster_two one_record "CS2023"
               = Ok (mkFrame ["Index"; "CS2023_Grade"]
                             [[Str "200145A"; Str "B+"]; [Str "200146B"; Str "N/A"]]))
    by reflexivity.
  split; [exact Hm|]. intros row' Hin.
  destruct (merge_grade_column roster_two one_record "CS2023" eq_refl) as [_ Hrows].
  destruct (Hrows _ Hm row' Hin) as (row & g & H1 & H2 & H3 & _).
  now exists row, g.
Defined.

Lemma filter_all {A : Type} (P : A -> bool) (l : list A) :
  (forall x, x ∈ l -> P x = true) -> filter (fun x => P x = true) l = l.
Proof.
  induction l as [|x l IH]; intros H; [reflexivity|].
  rewrite filter_cons_True by (apply H, list_elem_of_here).
  f_equal. apply IH. intros y Hy. now apply H, list_elem_of_further.
Qed.

Lemma filter_none {A : Type} (P : A -> bool) (l : list A) :
  (forall x, x ∈ l -> P x = false) -> filter (fun x => P x = true) l = [].
Proof.
  induction l as [|x l IH]; intros H; [reflexivity|].
  rewrite filter_cons_False
    by (rewrite (H x (list_elem_of_here _ _)); discriminate).
  apply IH. intros y Hy. now apply H, list_elem_of_further.
Qed.

Lemma merged_rows_key (ki : nat) (grades : list GradeRecord) (row row' : list cell) :
  ki < length row -> row' ∈ merged_rows ki grades row ->
  nth ki row' NaN = nth ki row NaN.
Proof.
  intros Hki. unfold merged_rows.
  destruct (grades_for _ grades) as [|g gs].
  - intros ->%list_elem_of_singleton. now apply app_nth1.
  - rewrite list_elem_of_In, in_map_iff. intros (g' & <- & _). now apply app_nth1.
Qed.

Lemma grades_for_key (id : string) (key : cell) (grades : list GradeRecord) :
  key = Str id -> grades_for key grades = grades_for (Str id) grades.
Proof. now intros ->. Qed.

(** C5, as amended. On a roster that is ready for the module (complete rows,
    exactly one column labelled [Index], holding strings, and no column
    labelled [Index_No] or [<module_code>_Grade]) and a non-empty list of
    records, the merge keeps every record of a student that is listed more
    than once: in the result, the rows of the student with id [id] are, for
    each of the student's rows in the roster and in the order of the records,
    one row per record of [id], holding that record's grade in the new
    column. No grade replaces another. *)
Theorem merge_keeps_every_record (dept_df : DataFrame) (grades : list GradeRecord)
    (module_code : string) :
  merge_ready dept_df module_code = true -> grades <> [] ->
  exists out ki,
    column_index "Index" (columns dept_df) = Some ki /\
    merge_grades_with_department dept_df grades module_code = Ok out /\
    forall id, grades_for (Str id) grades <> [] ->
      filter (fun row => row_has_id ki id row = true) (rows out)
      = flat_map (fun row => map (fun g => row ++ [Str g]) (grades_for (Str id) grades))
                 (filter (fun row => row_has_id ki id row = true) (rows dept_df)).
Proof.
  intros Hready Hne.
  destruct (merge_ready_result dept_df grades module_code Hready Hne) as (ki & Eki & Hm).
  pose proof (merge_ready_well_formed _ _ Hready) as Hwf.
  exists (mkFrame (columns dept_df ++ [module_code +:+ "_Grade"])
                  (flat_map (merged_rows ki grades) (rows dept_df))), ki.
  split; [exact Eki|]. split; [exact Hm|]. cbn [rows].
  intros id Hid. apply column_index_Some in Eki as [_ Hki].
  clear Hm Hready. unfold well_formed in Hwf.
  induction Hwf as [|row rs Hrow _ IH]; [reflexivity|].
  cbn [flat_map]. rewrite filter_app, IH.
  assert (Hk : forall row', row' ∈ merged_rows ki grades row ->
                 row_has_id ki id row' = row_has_id ki id row).
  { intros row' Hin. unfold row_has_id.
    rewrite (merged_rows_key ki grades row row'); [reflexivity | lia | exact Hin]. }
  destruct (row_has_id ki id row) eqn:E.
  - rewrite filter_cons_True by exact E. cbn [flat_map]. f_equal.
    rewrite filter_all by exact Hk.
    unfold merged_rows. unfold row_has_id in E.
    destruct (nth ki row NaN) as [s| | |] eqn:En; try discriminate.
    apply string_eqb_true in E. subst s.
    destruct (grades_for (Str id) grades); [contradiction | reflexivity].
  - rewrite filter_cons_False by (rewrite E; discriminate).
    now rewrite filter_none by exact Hk.
Qed.

(** C5 fails as stated: the student listed twice has two rows and two grades. *)
Lemma merge_last_write_counterexample :
  merge_grades_with_department roster_one twice_listed "CS2023"
  = Ok (mkFrame ["Index"; "CS2023_Grade"]
                [[Str "200145A"; Str "A"]; [Str "200145A"; Str "B"]])
  /\ merge_grades_with_department roster_one twice_listed "CS2023"
     <> Ok (mkFrame ["Index"; "CS2023_Grade"] [[Str "200145A"; Str "B"]]).
Proof.
  split; [reflexivity|]. vm_compute. intros H. discriminate H.
Qed.

Lemma merge_keeps_every_record_witness :
  exists out ki,
    column_index "Index" (columns roster_one) = Some ki /\
    merge_grades_with_department roster_one twice_listed "CS2023" = Ok out /\
    filter (fun row => row_has_id ki "200145A" row = true) (rows out)
    = [[Str "200145A"; Str "A"]; [Str "200145A"; Str "B"]].
Proof.
  destruct (merge_keeps_every_record roster_one twice_listed "CS2023")
    as (out & ki & Eki & Hm & Hrows).
  - reflexivity.
  - discriminate.
  - exists out, ki. split; [exact Eki|]. split; [exact Hm|].
    rewrite (Hrows "200145A") by discriminate.
    cbn in Eki. injection Eki as <-. reflexivity.
Defined.

(** C10, as amended. For a roster that is ready for the module (complete
    rows, exactly one column labelled [Index], holding strings, and no column
    labelled [Index_No] or [<module_code>_Grade]) and a non-empty list of
    records in which no student id occurs twice, the merge keeps the rows
    where they are: row [i] of the result is row [i] of the roster followed
    by the cell of the new grade column, and under every label of the roster
    it reads what row [i] of the roster reads. *)
Theorem merge_preserves_row_order (dept_df : DataFrame) (grades : list GradeRecord)
    (module_code : string) :
  merge_ready dept_df module_code = true -> grades <> [] ->
  NoDup (map Index_No grades) ->
  exists out,
    merge_grades_with_department dept_df grades module_code = Ok out /\
    columns out = columns dept_df ++ [module_code +:+ "_Grade"] /\
    forall i row, nth_error (rows dept_df) i = Some row ->
      exists x,
        nth_error (rows out) i = Some (row ++ [x]) /\
        forall label, label ∈ columns dept_df ->
          row_get (columns out) (row ++ [x]) label = row_get (columns dept_df) row label.
Proof.
  intros Hready Hne Hnd.
  destruct (merge_unique_result dept_df grades module_code Hready Hne Hnd)
    as (ki & Eki & Hm).
  pose proof (merge_ready_well_formed _ _ Hready) as Hwf.
  unfold well_formed in Hwf. rewrite List.Forall_forall in Hwf.
  eexists. split; [exact Hm|]. cbn [columns rows]. split; [reflexivity|].
  intros i row Hi. exists (grade_cell (nth ki row NaN) grades). split.
  - rewrite nth_error_map, Hi. reflexivity.
  - intros label Hl. apply row_get_app_l; [exact Hl|].
    apply Hwf. now apply nth_error_In in Hi.
Qed.

Lemma merge_preserves_row_order_witness :
  exists out,
    merge_grades_with_department roster_two one_record "CS2023" = Ok out /\
    nth_error (rows out) 1 = Some [Str "200146B"; Str "N/A"].
Proof.
  destruct (merge_preserves_row_order roster_two one_record "CS2023")
    as (out & Hm & Hcols & Hrows).
  - reflexivity.
  - discriminate.
  - repeat constructor. apply not_elem_of_nil.
  - exists out. split; [exact Hm|].
    destruct (Hrows 1 [Str "200146B"] eq_refl) as (x & Hx & _).
    rewrite Hx. cbn in Hm. injection Hm as <-. cbn in Hx. injection Hx as <-.
    reflexivity.
Defined.

(** C10 fails as stated: on a roster that has a column [Index_No] the merge
    returns, renames that column and appends two columns, the key of the
    records and the grade. *)
Lemma merge_extra_column_counterexample :
  merge_grades_with_department roster_with_temp one_record "CS2023"
  = Ok (mkFrame ["Index"; "Index_No_x"; "Index_No_y"; "CS2023_Grade"]
                [[Str "200145A"; Str "7"; Str "200145A"; Str "B+"];
                 [Str "200146B"; Str "8"; NaN; Str "N/A"]])
  /\ row_get ["Index"; "Index_No_x"; "Index_No_y"; "CS2023_Grade"]
             [Str "200145A"; Str "7"; Str "200145A"; Str "B+"] "Index_No"
     <> row_get (columns roster_with_temp) [Str "200145A"; Str "7"] "Index_No".
Proof.
  split; [vm_compute; reflexivity|]. vm_compute. discriminate.
Qed.


(** ** The order of floats

    [PrimFloat.ltb] and [PrimFloat.eqb] are the IEEE comparisons. Away from
    nan they are the strict order and the equality of [float_key]. *)

Lemma key_lt_trans (a b c : Z * Z * Z) : key_lt a b -> key_lt b c -> key_lt a c.
Proof. destruct a as [[? ?] ?], b as [[? ?] ?], c as [[? ?] ?]. unfold key_lt. lia. Qed.

Lemma key_lt_irrefl (a : Z * Z * Z) : ~ key_lt a a.
Proof. destruct a as [[? ?] ?]. unfold key_lt. lia. Qed.

Lemma key_trichotomy (a b : Z * Z * Z) : key_lt a b \/ a = b \/ key_lt b a.
Proof.
  destruct a as [[a1 a2] a3], b as [[b1 b2] b3]. unfold key_lt.
  destruct (Z.lt_total a1 b1) as [?|[?|?]]; [lia| |lia].
  destruct (Z.lt_total a2 b2) as [?|[?|?]]; [lia| |lia].
  destruct (Z.lt_total a3 b3) as [?|[?|?]]; [lia| |lia].
  right. left. congruence.
Qed.

Lemma SFltb_key (f g : spec_float) :
  SFltb f g = true <->
  exists a b, sf_key f = Some a /\ sf_key g = Some b /\ key_lt a b.
Proof.
  unfold SFltb, SFcompare.
  destruct f as [[|]|[|]| |[|] m e], g as [[|]|[|]| |[|] m' e']; cbn [sf_key];
    try (split; [discriminate | intros (a & b & Ha & Hb & Hlt); try discriminate;
                 injection Ha as <-; injection Hb as <-; unfold key_lt in Hlt; lia]);
    try (split; [intros _; do 2 eexists; repeat split; unfold key_lt; lia | reflexivity]).
  - destruct (Z.compare_spec e e') as [He|He|He].
    + subst e'. change (Pos.compare_cont Eq m m') with (Pos.compare m m').
      destruct (Pos.compare_spec m m') as [Hm|Hm|Hm]; cbn [CompOpp];
        (split; [try discriminate; intros _; do 2 eexists; repeat split; unfold key_lt; lia
                | intros (a & b & Ha & Hb & Hlt); injection Ha as <-; injection Hb as <-;
                  unfold key_lt in Hlt; try reflexivity; lia]).
    + split; [discriminate|].
      intros (a & b & Ha & Hb & Hlt); injection Ha as <-; injection Hb as <-.
      unfold key_lt in Hlt. lia.
    + split; [intros _; do 2 eexists; repeat split; unfold key_lt; lia | reflexivity].
  - destruct (Z.compare_spec e e') as [He|He|He].
    + subst e'. change (Pos.compare_cont Eq m m') with (Pos.compare m m').
      destruct (Pos.compare_spec m m') as [Hm|Hm|Hm];
        (split; [try discriminate; intros _; do 2 eexists; repeat split; unfold key_lt; lia
                | intros (a & b & Ha & Hb & Hlt); injection Ha as <-; injection Hb as <-;
                  unfold key_lt in Hlt; try reflexivity; lia]).
    + split; [intros _; do 2 eexists; repeat split; unfold key_lt; lia | reflexivity].
    + split; [discriminate|].
      intros (a & b & Ha & Hb & Hlt); injection Ha as <-; injection Hb as <-.
      unfold key_lt in Hlt. lia.
Qed.

Lemma SFeqb_key (f g : spec_float) :
  SFeqb f g = true <-> exists a, sf_key f = Some a /\ sf_key g = Some a.
Proof.
  unfold SFeqb, SFcompare.
  destruct f as [[|]|[|]| |[|] m e], g as [[|]|[|]| |[|] m' e']; cbn [sf_key];
    try (split; [discriminate | intros (a & Ha & Hb); congruence]);
    try (split; [intros _; eexists; split; reflexivity | reflexivity]).
  - destruct (Z.compare_spec e e') as [He|He|He].
    + subst e'. change (Pos.compare_cont Eq m m') with (Pos.compare m m').
      destruct (Pos.compare_spec m m') as [Hm|Hm|Hm]; cbn [CompOpp];
        (split; [try discriminate; intros _; subst; eexists; split; reflexivity
                | intros (a & Ha & Hb); try reflexivity;
                  rewrite <- Hb in Ha; injection Ha as Ha; lia]).
    + split; [discriminate | intros (a & Ha & Hb); rewrite <- Hb in Ha; injection Ha; lia].
    + split; [discriminate | intros (a & Ha & Hb); rewrite <- Hb in Ha; injection Ha; lia].
  - destruct (Z.compare_spec e e') as [He|He|He].
    + subst e'. change (Pos.compare_cont Eq m m') with (Pos.compare m m').
      destruct (Pos.compare_spec m m') as [Hm|Hm|Hm];
        (split; [try discriminate; intros _; subst; eexists; split; reflexivity
                | intros (a & Ha & Hb); try reflexivity;
                  rewrite <- Hb in Ha; injection Ha as Ha; lia]).
    + split; [discriminate | intros (a & Ha & Hb); rewrite <- Hb in Ha; injection Ha; lia].
    + split; [discriminate | intros (a & Ha & Hb); rewrite <- Hb in Ha; injection Ha; lia].
Qed.

Lemma float_ltb_key (x y : float) :
  PrimFloat.ltb x y = true <->
  exists a b, float_key x = Some a /\ float_key y = Some b /\ key_lt a b.
Proof. rewrite FloatAxioms.ltb_spec. apply SFltb_key. Qed.

Lemma float_eqb_key (x y : float) :
  PrimFloat.eqb x y = true <-> exists a, float_key x = Some a /\ float_key y = Some a.
Proof. rewrite FloatAxioms.eqb_spec. apply SFeqb_key. Qed.

Lemma float_is_nan_key (x : float) :
  PrimFloat.is_nan x = false <-> exists a, float_key x = Some a.
Proof.
  unfold PrimFloat.is_nan. rewrite negb_false_iff, float_eqb_key. split.
  - intros (a & Ha & _). now exists a.
  - intros (a & Ha). now exists a.
Qed.

Lemma float_ltb_trans (x y z : float) :
  PrimFloat.ltb x y = true -> PrimFloat.ltb y z = true -> PrimFloat.ltb x z = true.
Proof.
  rewrite !float_ltb_key. intros (a & b & Ha & Hb & Hab) (b' & c & Hb' & Hc & Hbc).
  rewrite Hb in Hb'. injection Hb' as <-.
  exists a, c. repeat split; try assumption. now apply (key_lt_trans a b c).
Qed.

Lemma float_ltb_irrefl (x : float) : PrimFloat.ltb x x = false.
Proof.
  destruct (PrimFloat.ltb x x) eqn:E; [|reflexivity].
  apply float_ltb_key in E as (a & b & Ha & Hb & Hlt).
  rewrite Ha in Hb. injection Hb as <-. now apply key_lt_irrefl in Hlt.
Qed.

(** Floats that compare equal have the same floats above and below them. *)
Lemma float_eqb_ltb_l (x y z : float) :
  PrimFloat.eqb x y = true -> PrimFloat.ltb x z = PrimFloat.ltb y z.
Proof.
  intros (a & Hx & Hy)%float_eqb_key.
  apply eq_true_iff_eq. rewrite !float_ltb_key.
  split; intros (a' & b & Ha & Hb & Hlt); exists a, b; repeat split; congruence.
Qed.

Lemma float_eqb_ltb_r (x y z : float) :
  PrimFloat.eqb x y = true -> PrimFloat.ltb z x = PrimFloat.ltb z y.
Proof.
  intros (a & Hx & Hy)%float_eqb_key.
  apply eq_true_iff_eq. rewrite !float_ltb_key.
  split; intros (b & a' & Hb & Ha & Hlt); exists b, a; repeat split; congruence.
Qed.

Lemma float_eqb_sym (x y : float) : PrimFloat.eqb x y = PrimFloat.eqb y x.
Proof.
  apply eq_true_iff_eq. rewrite !float_eqb_key.
  split; intros (a & H1 & H2); now exists a.
Qed.

Lemma float_trichotomy (x y : float) :
  PrimFloat.is_nan x = false -> PrimFloat.is_nan y = false ->
  PrimFloat.ltb x y = true \/ PrimFloat.eqb x y = true \/ PrimFloat.ltb y x = true.
Proof.
  intros (a & Ha)%float_is_nan_key (b & Hb)%float_is_nan_key.
  rewrite !float_ltb_key, float_eqb_key.
  destruct (key_trichotomy a b) as [H|[H|H]].
  - left. now exists a, b.
  - right. left. subst b. now exists a.
  - right. right. now exists b, a.
Qed.

Lemma float_ltb_not_eqb (x y : float) :
  PrimFloat.ltb x y = true -> PrimFloat.eqb x y = false.
Proof.
  intros Hlt. destruct (PrimFloat.eqb x y) eqn:E; [|reflexivity].
  rewrite (float_eqb_ltb_l x y y E), float_ltb_irrefl in Hlt. discriminate.
Qed.

Lemma float_ltb_not_nan (x y : float) :
  PrimFloat.ltb x y = true -> PrimFloat.is_nan x = false /\ PrimFloat.is_nan y = false.
Proof.
  intros (a & b & Ha & Hb & _)%float_ltb_key.
  split; apply float_is_nan_key; eauto.
Qed.

(** ** Ranks by the minimum method *)

Lemma astype_int_Some (ns : list Z) : astype_int (map Some ns) = Ok ns.
Proof. induction ns as [|n ns IH]; simpl; [reflexivity | now rewrite IH]. Qed.

Lemma astype_int_Ok (l : list (option Z)) (ns : list Z) :
  astype_int l = Ok ns -> l = map Some ns.
Proof.
  revert ns. induction l as [|[n|] l IH]; intros ns; simpl.
  - now intros [= <-].
  - destruct (astype_int l) as [ns'|e]; simpl; [|discriminate].
    intros [= <-]. simpl. f_equal. now apply IH.
  - discriminate.
Qed.

Lemma ranks_of_options (all xs : list float) (rank : list Z) :
  map (fun x => if PrimFloat.is_nan x then None else Some (min_rank x all)) xs
  = map Some rank ->
  rank = map (fun x => min_rank x all) xs /\
  Forall (fun x => PrimFloat.is_nan x = false) xs.
Proof.
  revert rank. induction xs as [|x xs IH]; intros rank H.
  - destruct rank; [split; [reflexivity | constructor] | discriminate].
  - destruct rank as [|r rank]; [discriminate|]. simpl in H.
    injection H as Hx Hxs. destruct (PrimFloat.is_nan x) eqn:E; [discriminate|].
    injection Hx as <-. destruct (IH rank Hxs) as [-> Hall].
    split; [reflexivity | now constructor].
Qed.

Lemma rank_min_descending_Ok (xs : list float) (rank : list Z) :
  astype_int (rank_min_descending xs) = Ok rank ->
  rank = map (fun x => min_rank x xs) xs /\
  Forall (fun x => PrimFloat.is_nan x = false) xs.
Proof. intros H%astype_int_Ok. now apply ranks_of_options. Qed.

Lemma rank_min_descending_total (xs : list float) :
  Forall (fun x => PrimFloat.is_nan x = false) xs ->
  astype_int (rank_min_descending xs) = Ok (map (fun x => min_rank x xs) xs).
Proof.
  intros Hall. rewrite <- astype_int_Some. f_equal.
  unfold rank_min_descending. rewrite map_map.
  apply map_ext_in. intros x Hx. rewrite List.Forall_forall in Hall.
  now rewrite (Hall x Hx).
Qed.

Lemma filter_length_ext {A : Type} (P Q : A -> bool) (l : list A) :
  (forall x, x ∈ l -> P x = Q x) ->
  length (filter (fun x => P x = true) l) = length (filter (fun x => Q x = true) l).
Proof.
  induction l as [|x l IH]; intros H; [reflexivity|].
  rewrite !filter_cons. rewrite (H x (list_elem_of_here _ _)).
  assert (IH' := IH (fun y Hy => H y (list_elem_of_further _ _ _ Hy))).
  destruct (decide (Q x = true)); simpl; now rewrite IH'.
Qed.

Lemma filter_length_split {A : Type} (P Q R : A -> bool) (l : list A) :
  (forall x, x ∈ l -> P x = Q x || R x) ->
  (forall x, x ∈ l -> Q x = true -> R x = false) ->
  length (filter (fun x => P x = true) l)
  = length (filter (fun x => Q x = true) l) + length (filter (fun x => R x = true) l).
Proof.
  induction l as [|x l IH]; intros H Hd; [reflexivity|].
  rewrite !filter_cons.
  pose proof (H x (list_elem_of_here _ _)) as Hx.
  pose proof (Hd x (list_elem_of_here _ _)) as Hdx.
  assert (IH' := IH (fun y Hy => H y (list_elem_of_further _ _ _ Hy))
                    (fun y Hy => Hd y (list_elem_of_further _ _ _ Hy))).
  destruct (Q x) eqn:EQ, (R x) eqn:ER; simpl in Hx; rewrite Hx;
    repeat (destruct (decide _); try congruence); simpl; try (specialize (Hdx eq_refl));
    try discriminate; lia.
Qed.

Lemma filter_length_lt {A : Type} (P Q : A -> bool) (l : list A) (a : A) :
  (forall x, x ∈ l -> P x = true -> Q x = true) ->
  a ∈ l -> P a = false -> Q a = true ->
  length (filter (fun x => P x = true) l) < length (filter (fun x => Q x = true) l).
Proof.
  intros Himp Hin HPa HQa.
  assert (Hle : forall l', (forall x, x ∈ l' -> P x = true -> Q x = true) ->
    length (filter (fun x => P x = true) l') <= length (filter (fun x => Q x = true) l')).
  { induction l' as [|x l' IH]; intros H; [reflexivity|].
    rewrite !filter_cons.
    assert (IH' := IH (fun y Hy => H y (list_elem_of_further _ _ _ Hy))).
    pose proof (H x (list_elem_of_here _ _)) as Hx.
    destruct (P x) eqn:EP.
    - rewrite (Hx eq_refl). repeat (destruct (decide _); try congruence). simpl. lia.
    - destruct (decide (false = true)); [discriminate|].
      destruct (decide (Q x = true)); simpl; lia. }
  induction l as [|x l IH]; [now apply elem_of_nil in Hin|].
  rewrite !filter_cons. apply elem_of_cons in Hin as [<-|Hin].
  - rewrite HPa, HQa. destruct (decide (false = true)); [discriminate|].
    destruct (decide (true = true)); [|congruence]. simpl.
    specialize (Hle l (fun y Hy => Himp y (list_elem_of_further _ _ _ Hy))). lia.
  - specialize (IH (fun y Hy => Himp y (list_elem_of_further _ _ _ Hy)) Hin).
    pose proof (Himp x (list_elem_of_here _ _)) as Hx.
    destruct (P x) eqn:EP.
    + rewrite (Hx eq_refl). repeat (destruct (decide _); try congruence). simpl. lia.
    + destruct (decide (false = true)); [discriminate|].
      destruct (decide (Q x = true)); simpl; lia.
Qed.

(** Values that compare equal have the same number of values above them. *)
Lemma greater_eqb (a b : float) (xs : list float) :
  PrimFloat.eqb a b = true -> greater a xs = greater b xs.
Proof.
  intros Hab. unfold greater. apply filter_length_ext.
  intros y _. now apply float_eqb_ltb_l.
Qed.

(** A value has fewer values above it than any value below it. *)
Lemma greater_ltb (a b : float) (xs : list float) :
  PrimFloat.ltb b a = true -> a ∈ xs -> greater a xs < greater b xs.
Proof.
  intros Hba Hin. unfold greater.
  apply (filter_length_lt _ _ xs a).
  - intros y _ Hay. now apply (float_ltb_trans b a y).
  - exact Hin.
  - apply float_ltb_irrefl.
  - exact Hba.
Qed.

(** With nothing strictly between [b] and [a], the values above [b] are the
    values above [a] and the values that tie with [a]. *)
Lemma greater_next (a b : float) (xs : list float) :
  PrimFloat.ltb b a = true ->
  Forall (fun x => PrimFloat.is_nan x = false) xs ->
  (forall c, c ∈ xs -> PrimFloat.ltb b c = true -> PrimFloat.ltb c a = true -> False) ->
  greater b xs = greater a xs + tied a xs.
Proof.
  intros Hba Hall Hbetween. unfold greater, tied.
  apply filter_length_split.
  - intros y Hy. rewrite List.Forall_forall in Hall.
    pose proof (Hall y (proj1 (list_elem_of_In _ _) Hy)) as Hny.
    destruct (float_ltb_not_nan _ _ Hba) as [_ Hna].
    destruct (PrimFloat.ltb a y) eqn:E1; simpl.
    + now apply (float_ltb_trans b a y).
    + destruct (PrimFloat.eqb a y) eqn:E2.
      * now rewrite <- (float_eqb_ltb_r a y b E2).
      * destruct (float_trichotomy a y Hna Hny) as [H|[H|H]]; try congruence.
        destruct (PrimFloat.ltb b y) eqn:E3; [|reflexivity].
        exfalso. now apply (Hbetween y Hy).
  - intros y _ Hay. now apply float_ltb_not_eqb.
Qed.

Lemma greater_Permutation (x : float) (xs ys : list float) :
  Permutation xs ys -> greater x xs = greater x ys.
Proof. intros H. unfold greater. now rewrite H. Qed.

Lemma tied_Permutation (x : float) (xs ys : list float) :
  Permutation xs ys -> tied x xs = tied x ys.
Proof. intros H. unfold tied. now rewrite H. Qed.

(** ** Writing a column *)

Lemma row_get_cons (c : string) (cols : list string) (x : cell) (row : list cell)
    (l : string) :
  row_get (c :: cols) (x :: row) l
  = if string_eqb l c then Some x else row_get cols row l.
Proof.
  unfold row_get. simpl. destruct (string_eqb l c); [reflexivity|].
  now destruct (column_index l cols).
Qed.

Lemma length_map_cells (f : cell -> cell) (l : string) (cols : list string)
    (row : list cell) :
  length (map_cells f l cols row) = length row.
Proof.
  revert row. induction cols as [|c cols IH]; intros [|x row]; simpl; try reflexivity.
  now rewrite IH.
Qed.

Lemma length_set_label (l : string) (cols : list string) (row : list cell) (v : cell) :
  length row = length cols ->
  length (set_cell l cols row v) = length (set_label l cols).
Proof.
  intros Hlen. unfold set_cell, set_label. destruct (has_column l cols).
  - now rewrite length_map_cells.
  - rewrite !length_app. simpl. lia.
Qed.

Lemma row_get_map_cells_same (v : cell) (l : string) (cols : list string)
    (row : list cell) :
  l ∈ cols -> length row = length cols ->
  row_get cols (map_cells (fun _ => v) l cols row) l = Some v.
Proof.
  revert row. induction cols as [|c cols IH]; intros [|x row] Hin Hlen;
    simpl in Hlen; try discriminate.
  - now apply elem_of_nil in Hin.
  - cbn [map_cells]. rewrite row_get_cons. destruct (string_eqb l c) eqn:E; [reflexivity|].
    apply string_eqb_false in E. apply elem_of_cons in Hin as [?|Hin]; [contradiction|].
    apply IH; [exact Hin | lia].
Qed.

Lemma row_get_map_cells_other (f : cell -> cell) (l l' : string) (cols : list string)
    (row : list cell) :
  l' <> l -> row_get cols (map_cells f l cols row) l' = row_get cols row l'.
Proof.
  intros Hne. revert row. induction cols as [|c cols IH]; intros [|x row];
    try reflexivity.
  cbn [map_cells]. rewrite !row_get_cons. destruct (string_eqb l' c) eqn:E.
  - apply string_eqb_true in E. subst c.
    assert (E' : string_eqb l l' = false) by (apply string_eqb_false; congruence).
    now rewrite E'.
  - apply IH.
Qed.

Lemma row_get_absent (cols : list string) (row : list cell) (l : string) :
  l ∉ cols -> row_get cols row l = None.
Proof. intros H. unfold row_get. apply column_index_None in H. now rewrite H. Qed.

Lemma row_get_app_r (cols cols' : list string) (row row' : list cell) (l : string) :
  l ∉ cols -> length row = length cols ->
  row_get (cols ++ cols') (row ++ row') l = row_get cols' row' l.
Proof.
  intros Hnin Hlen. unfold row_get. rewrite (column_index_app_r _ _ _ Hnin).
  destruct (column_index l cols') as [i|]; simpl; [|reflexivity].
  rewrite nth_error_app2 by lia. f_equal. lia.
Qed.

(** After [frame[l] = v] the row reads [v] under [l] ... *)
Lemma row_get_set_same (l : string) (cols : list string) (row : list cell) (v : cell) :
  length row = length cols ->
  row_get (set_label l cols) (set_cell l cols row v) l = Some v.
Proof.
  intros Hlen. unfold set_label, set_cell. destruct (has_column l cols) eqn:E.
  - apply has_column_true in E. now apply row_get_map_cells_same.
  - apply has_column_false in E. now apply row_get_last.
Qed.

(** ... and what it read before under every other label. *)
Lemma row_get_set_other (l l' : string) (cols : list string) (row : list cell) (v : cell) :
  l' <> l -> length row = length cols ->
  row_get (set_label l cols) (set_cell l cols row v) l' = row_get cols row l'.
Proof.
  intros Hne Hlen. unfold set_label, set_cell. destruct (has_column l cols) eqn:E.
  - now apply row_get_map_cells_other.
  - destruct (decide (l' ∈ cols)) as [Hin|Hnin].
    + now apply row_get_app_l.
    + rewrite row_get_app_r by assumption. rewrite (row_get_absent cols) by assumption.
      unfold row_get. simpl.
      assert (E' : string_eqb l' l = false) by now apply string_eqb_false.
      now rewrite E'.
Qed.

Lemma zip_with_rows_map {A : Type} (h : list cell -> cell -> list cell)
    (u : A -> list cell) (k : A -> cell) (l : list A) :
  zip_with_rows h (map u l) (map k l) = map (fun a => h (u a) (k a)) l.
Proof. induction l as [|a l IH]; simpl; [reflexivity | now rewrite IH]. Qed.

Lemma zip_with_rows_values (h : list cell -> cell -> list cell)
    (k : list cell -> cell) (l : list (list cell)) :
  zip_with_rows h l (map k l) = map (fun a => h a (k a)) l.
Proof. induction l as [|a l IH]; simpl; [reflexivity | now rewrite IH]. Qed.

(** ** calculate_sgpa_and_rank *)

Lemma length_with_cells (cols : list string) (row : list cell) (a b : cell) :
  length row = length cols ->
  length (with_cells cols row a b) = length (ranked_labels cols).
Proof.
  intros Hlen. unfold with_cells, ranked_labels.
  apply length_set_label. now apply length_set_label.
Qed.

Lemma row_get_ranked_sgpa (cols : list string) (row : list cell) (a b : cell) :
  length row = length cols ->
  row_get (ranked_labels cols) (with_cells cols row a b) "SGPA" = Some a.
Proof.
  intros Hlen. unfold with_cells, ranked_labels.
  rewrite row_get_set_other; [|discriminate | now apply length_set_label].
  now apply row_get_set_same.
Qed.

Lemma row_get_ranked_rank (cols : list string) (row : list cell) (a b : cell) :
  length row = length cols ->
  row_get (ranked_labels cols) (with_cells cols row a b) "Rank" = Some b.
Proof.
  intros Hlen. unfold with_cells, ranked_labels.
  apply row_get_set_same. now apply length_set_label.
Qed.

Lemma row_get_ranked_other (cols : list string) (row : list cell) (a b : cell)
    (l : string) :
  l <> "SGPA" -> l <> "Rank" -> length row = length cols ->
  row_get (ranked_labels cols) (with_cells cols row a b) l = row_get cols row l.
Proof.
  intros H1 H2 Hlen. unfold with_cells, ranked_labels.
  rewrite row_get_set_other; [|assumption | now apply length_set_label].
  now apply row_get_set_other.
Qed.

(** *** The SGPA as the specification words it *)

Lemma sgpa_step_countable (weights : gmap string float) (cols : list string)
    (row : list cell) (acc : float * float) (col : string) :
  sgpa_step weights cols row acc col
  = match countable weights cols row col with
    | Some c => (PrimFloat.add (fst acc) (PrimFloat.mul (fst c) (snd c)),
                 PrimFloat.add (snd acc) (snd c))
    | None => acc
    end.
Proof.
  unfold sgpa_step, countable. fold (module_code_of col).
  destruct (row_get cols row col) as [[g| | |]|]; try reflexivity.
  destruct (GRADE_POINTS !! g) as [points|]; [|reflexivity].
  now destruct (weights !! module_code_of col).
Qed.

Lemma sgpa_loop (weights : gmap string float) (cols : list string) (row : list cell)
    (gcs : list string) (a b : float) :
  fold_left (sgpa_step weights cols row) gcs (a, b)
  = (fold_left PrimFloat.add
       (map (fun c => PrimFloat.mul (fst c) (snd c)) (omap (countable weights cols row) gcs)) a,
     fold_left PrimFloat.add (map snd (omap (countable weights cols row) gcs)) b).
Proof.
  revert a b. induction gcs as [|col gcs IH]; intros a b; [reflexivity|].
  cbn [fold_left omap list_omap]. rewrite sgpa_step_countable.
  destruct (countable weights cols row col) as [c|]; [|apply IH].
  cbn [fst snd map fold_left]. apply IH.
Qed.

(** The loop of [calc_student_sgpa] computes the SGPA of the specification. *)
Lemma calc_student_sgpa_spec (weights : gmap string float) (cols : list string)
    (row : list cell) :
  calc_student_sgpa weights cols row = sgpa_of weights cols row.
Proof.
  unfold calc_student_sgpa, sgpa_of, weighted_sum, weight_sum, float_sum,
    countable_modules.
  now rewrite sgpa_loop.
Qed.

(** A row without a countable module has SGPA 0.0. *)
Lemma sgpa_of_nothing (weights : gmap string float) (cols : list string)
    (row : list cell) :
  countable_modules weights cols row = [] -> sgpa_of weights cols row = 0%float.
Proof. intros H. unfold sgpa_of. now rewrite H. Qed.

(** The sentinel ["N/A"] is no grade symbol. *)
Lemma not_available_uncountable : GRADE_POINTS !! "N/A" = None.
Proof. reflexivity. Qed.

(** *** Writing the derived columns over themselves *)

Lemma map_cells_split (f : cell -> cell) (l : string) (cols cols' : list string)
    (row row' : list cell) :
  length row = length cols ->
  map_cells f l (cols ++ cols') (row ++ row')
  = map_cells f l cols row ++ map_cells f l cols' row'.
Proof.
  revert row. induction cols as [|c cols IH]; intros [|x row] Hlen;
    simpl in Hlen; try discriminate; [reflexivity|].
  cbn [map_cells app]. f_equal. apply IH. lia.
Qed.

Lemma map_cells_overwrite (v w : cell) (l : string) (cols : list string) (row : list cell) :
  map_cells (fun _ => v) l cols (map_cells (fun _ => w) l cols row)
  = map_cells (fun _ => v) l cols row.
Proof.
  revert row. induction cols as [|c cols IH]; intros [|x row]; try reflexivity.
  cbn [map_cells]. rewrite IH. now destruct (string_eqb l c).
Qed.

Lemma map_cells_swap (f g : cell -> cell) (l l' : string) (cols : list string)
    (row : list cell) :
  l <> l' ->
  map_cells f l cols (map_cells g l' cols row) = map_cells g l' cols (map_cells f l cols row).
Proof.
  intros Hne. revert row. induction cols as [|c cols IH]; intros [|x row]; try reflexivity.
  cbn [map_cells]. rewrite IH. f_equal.
  destruct (string_eqb l c) eqn:E, (string_eqb l' c) eqn:E'; try reflexivity.
  apply string_eqb_true in E, E'. congruence.
Qed.

Lemma map_cells_absent (f : cell -> cell) (l : string) (cols : list string)
    (row : list cell) :
  l ∉ cols -> map_cells f l cols row = row.
Proof.
  revert row. induction cols as [|c cols IH]; intros [|x row] Hnin; try reflexivity.
  apply not_elem_of_cons in Hnin as [Hne Hnin]. apply string_eqb_false in Hne.
  cbn [map_cells]. rewrite Hne. f_equal. now apply IH.
Qed.

Lemma set_label_present (l : string) (cols : list string) :
  has_column l (set_label l cols) = true.
Proof.
  unfold set_label. destruct (has_column l cols) eqn:E; [exact E|].
  rewrite has_column_app. simpl. rewrite string_eqb_refl. apply orb_true_r.
Qed.

Lemma set_label_keeps (l l' : string) (cols : list string) :
  has_column l cols = true -> has_column l (set_label l' cols) = true.
Proof.
  intros H. unfold set_label. destruct (has_column l' cols); [exact H|].
  rewrite has_column_app, H. reflexivity.
Qed.

Lemma set_label_idem (l : string) (cols : list string) :
  has_column l cols = true -> set_label l cols = cols.
Proof. intros H. unfold set_label. now rewrite H. Qed.

(** The labels of a ranked frame are those of the frame ranked again. *)
Lemma ranked_labels_idem (cols : list string) :
  ranked_labels (ranked_labels cols) = ranked_labels cols.
Proof.
  unfold ranked_labels.
  rewrite (set_label_idem "SGPA") by apply set_label_keeps, set_label_present.
  apply set_label_idem, set_label_present.
Qed.

Lemma with_cells_overwrite (cols : list string) (row : list cell) (a b a' b' : cell) :
  length row = length cols ->
  with_cells (ranked_labels cols) (with_cells cols row a b) a' b'
  = with_cells cols row a' b'.
Proof.
  intros Hlen. unfold with_cells, ranked_labels.
  assert (HS : has_column "SGPA" (set_label "Rank" (set_label "SGPA" cols)) = true)
    by apply set_label_keeps, set_label_present.
  assert (HR : has_column "Rank" (set_label "Rank" (set_label "SGPA" cols)) = true)
    by apply set_label_present.
  rewrite (set_label_idem "SGPA" _ HS).
  unfold set_cell at 1 2. rewrite HS, HR.
  assert (Hne : "SGPA" <> "Rank") by discriminate.
  assert (Hne' : "Rank" <> "SGPA") by discriminate.
  assert (E1 : string_eqb "SGPA" "Rank" = false) by reflexivity.
  assert (E2 : string_eqb "Rank" "SGPA" = false) by reflexivity.
  unfold set_cell, set_label.
  destruct (has_column "SGPA" cols) eqn:ES.
  - destruct (has_column "Rank" cols) eqn:ER.
    + repeat first [ rewrite map_cells_overwrite
                   | rewrite (map_cells_swap _ _ "SGPA" "Rank") by assumption ].
      reflexivity.
    + apply has_column_false in ER.
      repeat rewrite map_cells_split by (rewrite ?length_map_cells; assumption).
      rewrite map_cells_overwrite.
      rewrite (map_cells_absent _ "Rank" cols) by assumption.
      cbn [map_cells]. now rewrite E1, string_eqb_refl.
  - apply has_column_false in ES.
    assert (ER' : has_column "Rank" (cols ++ ["SGPA"]) = has_column "Rank" cols).
    { rewrite has_column_app. simpl. now rewrite orb_false_r. }
    rewrite ER'. destruct (has_column "Rank" cols) eqn:ER.
    + repeat rewrite map_cells_split by (rewrite ?length_map_cells; assumption).
      rewrite (map_cells_absent _ "SGPA" cols) by assumption.
      rewrite map_cells_overwrite. cbn [map_cells].
      now rewrite E2, string_eqb_refl.
    + apply has_column_false in ER.
      assert (Hl : length (row ++ [a]) = length (cols ++ ["SGPA"]))
        by (rewrite !length_app; simpl; lia).
      repeat rewrite map_cells_split
        by (rewrite ?length_map_cells, ?length_app; simpl; lia).
      rewrite !(map_cells_absent _ _ cols) by assumption.
      cbn [map_cells]. rewrite E1, E2, !string_eqb_refl. reflexivity.
Qed.

(** *** What the function reads *)

Lemma grade_columns_set_label (l : string) (cols : list string) :
  endswith l "_Grade" = false ->
  grade_columns_of (set_label l cols) = grade_columns_of cols.
Proof.
  intros Hl. unfold set_label, grade_columns_of.
  destruct (has_column l cols); [reflexivity|].
  rewrite filter_app, filter_cons_False by (rewrite Hl; discriminate).
  apply app_nil_r.
Qed.

Lemma grade_columns_ranked (cols : list string) :
  grade_columns_of (ranked_labels cols) = grade_columns_of cols.
Proof.
  unfold ranked_labels. now rewrite !grade_columns_set_label by reflexivity.
Qed.

Lemma grade_column_endswith (cols : list string) (gc : string) :
  gc ∈ grade_columns_of cols -> endswith gc "_Grade" = true.
Proof. unfold grade_columns_of. now intros [H _]%list_elem_of_filter. Qed.

Lemma count_label_app (l : string) (xs ys : list string) :
  count_label l (xs ++ ys) = count_label l xs + count_label l ys.
Proof. unfold count_label. now rewrite filter_app, length_app. Qed.

Lemma count_label_absent (l : string) (cols : list string) :
  has_column l cols = false -> count_label l cols = 0.
Proof.
  intros H. unfold count_label. rewrite filter_none; [reflexivity|].
  intros c Hc. apply string_eqb_false. intros ->.
  apply has_column_false in H. contradiction.
Qed.

Lemma count_label_set_label (l l' : string) (cols : list string) :
  Nat.ltb 1 (count_label l (set_label l' cols)) = Nat.ltb 1 (count_label l cols).
Proof.
  unfold set_label. destruct (has_column l' cols) eqn:E; [reflexivity|].
  rewrite count_label_app. unfold count_label at 2.
  rewrite filter_cons. destruct (decide (string_eqb l l' = true)) as [H|H].
  - apply string_eqb_true in H. subst l'.
    rewrite (count_label_absent l cols E). reflexivity.
  - simpl. now rewrite Nat.add_0_r.
Qed.

Lemma ambiguous_labels_ranked (cols : list string) :
  ambiguous_labels (ranked_labels cols) = ambiguous_labels cols.
Proof.
  unfold ambiguous_labels. rewrite grade_columns_ranked.
  generalize ("SGPA" :: "Rank" :: grade_columns_of cols) as ls.
  induction ls as [|l ls IH]; [reflexivity|].
  cbn [existsb]. rewrite IH. f_equal.
  unfold ranked_labels. now rewrite !count_label_set_label.
Qed.

Lemma fold_left_ext_in {A B : Type} (f g : A -> B -> A) (l : list B) (a : A) :
  (forall x, x ∈ l -> forall acc, f acc x = g acc x) ->
  fold_left f l a = fold_left g l a.
Proof.
  revert a. induction l as [|x l IH]; intros a H; [reflexivity|].
  simpl. rewrite (H x (list_elem_of_here _ _)).
  apply IH. intros y Hy. apply H. now apply list_elem_of_further.
Qed.

(** [calc_student_sgpa] reads the grade columns of the row and nothing else. *)
Lemma calc_student_sgpa_reads (weights : gmap string float) (cols cols' : list string)
    (row row' : list cell) :
  grade_columns_of cols' = grade_columns_of cols ->
  (forall gc, gc ∈ grade_columns_of cols -> row_get cols' row' gc = row_get cols row gc) ->
  calc_student_sgpa weights cols' row' = calc_student_sgpa weights cols row.
Proof.
  intros Hgc Hget. unfold calc_student_sgpa. rewrite Hgc.
  rewrite (fold_left_ext_in (sgpa_step weights cols' row') (sgpa_step weights cols row));
    [reflexivity|].
  intros gc Hin acc. unfold sgpa_step. now rewrite (Hget gc Hin).
Qed.

Lemma grade_column_not_derived (gc : string) :
  endswith gc "_Grade" = true -> gc <> "SGPA" /\ gc <> "Rank".
Proof. intros H. split; intros ->; discriminate H. Qed.

(** The SGPA of a row does not depend on the cells under [SGPA] and [Rank]. *)
Lemma calc_student_sgpa_ranked (weights : gmap string float) (cols : list string)
    (row : list cell) (a b : cell) :
  length row = length cols ->
  calc_student_sgpa weights (ranked_labels cols) (with_cells cols row a b)
  = calc_student_sgpa weights cols row.
Proof.
  intros Hlen. apply calc_student_sgpa_reads; [apply grade_columns_ranked|].
  intros gc Hgc. apply grade_column_endswith, grade_column_not_derived in Hgc as [H1 H2].
  now apply row_get_ranked_other.
Qed.

(** *** The result of calculate_sgpa_and_rank *)

Lemma map_nth_seq {A : Type} (l : list A) (d : A) :
  map (fun i => nth i l d) (seq 0 (length l)) = l.
Proof.
  induction l as [|x l IH]; [reflexivity|].
  cbn [length seq map nth]. f_equal.
  rewrite <- seq_shift, map_map. exact IH.
Qed.

Lemma nth_map_lt {A B : Type} (f : A -> B) (l : list A) (i : nat) (d : A) (d' : B) :
  i < length l -> nth i (map f l) d' = f (nth i l d).
Proof.
  intros Hi. rewrite (nth_indep _ d' (f d)) by now rewrite length_map.
  apply map_nth.
Qed.

Lemma order_in_range (order : list nat) (n i : nat) :
  Permutation order (seq 0 n) -> In i order -> i < n.
Proof.
  intros Hperm Hin. apply (Permutation_in _ Hperm), in_seq in Hin. lia.
Qed.

Lemma permuted_by_order {A : Type} (l : list A) (d : A) (order : list nat) :
  Permutation order (seq 0 (length l)) ->
  Permutation (map (fun i => nth i l d) order) l.
Proof.
  intros Hperm.
  apply (Permutation_map (fun i => nth i l d)) in Hperm.
  now rewrite map_nth_seq in Hperm.
Qed.

Lemma min_rank_Permutation (x : float) (xs ys : list float) :
  Permutation xs ys -> min_rank x xs = min_rank x ys.
Proof. intros H. unfold min_rank. now rewrite (greater_Permutation x xs ys H). Qed.

Section RankingProperties.

Variable argsort : list Z -> list nat.

Lemma calculate_total (df : DataFrame) (weights : gmap string float) :
  ambiguous_labels (columns df) = false ->
  no_nan (sgpa_column weights (columns df) (rows df)) ->
  calculate_sgpa_and_rank argsort df weights
  = Ok (mkFrame (ranked_labels (columns df))
                (map (fun i => nth i (ranked_rows weights (columns df) (rows df)) [])
                     (argsort (rank_column weights (columns df) (rows df))))).
Proof.
  intros Hamb Hnan. unfold calculate_sgpa_and_rank. rewrite Hamb.
  fold (sgpa_column weights (columns df) (rows df)).
  rewrite (rank_min_descending_total _ Hnan). cbn [bind].
  fold (rank_column weights (columns df) (rows df)).
  unfold sort_values, set_column. cbn [columns rows]. f_equal. f_equal.
  apply map_ext. intros i. f_equal.
  unfold rank_column, sgpa_column, ranked_rows, with_sgpa_rank, with_cells.
  rewrite !map_map, zip_with_rows_values, zip_with_rows_map.
  reflexivity.
Qed.

Lemma calculate_Ok (df : DataFrame) (weights : gmap string float) (out : DataFrame) :
  calculate_sgpa_and_rank argsort df weights = Ok out ->
  ambiguous_labels (columns df) = false /\
  no_nan (sgpa_column weights (columns df) (rows df)).
Proof.
  unfold calculate_sgpa_and_rank.
  destruct (ambiguous_labels (columns df)); [discriminate|].
  fold (sgpa_column weights (columns df) (rows df)).
  destruct (astype_int _) as [rank|e] eqn:E; [|discriminate].
  intros _. split; [reflexivity|].
  now apply rank_min_descending_Ok in E as [_ H].
Qed.

Hypothesis argsort_permutes :
  forall keys, Permutation (argsort keys) (seq 0 (length keys)).

Lemma sorted_rows_Permutation (weights : gmap string float) (df : DataFrame) :
  Permutation (sorted_rows argsort weights df) (rows df).
Proof.
  unfold sorted_rows. apply permuted_by_order.
  pose proof (argsort_permutes (rank_column weights (columns df) (rows df))) as H.
  unfold rank_column, sgpa_column in H. now rewrite !length_map in H.
Qed.

Lemma sgpa_sorted_Permutation (weights : gmap string float) (df : DataFrame) :
  Permutation (sgpa_column weights (columns df) (sorted_rows argsort weights df))
              (sgpa_column weights (columns df) (rows df)).
Proof. unfold sgpa_column. apply Permutation_map, sorted_rows_Permutation. Qed.

(** A successful call returns the ranked rows of the sorted roster. *)
Lemma calculate_result (df : DataFrame) (weights : gmap string float) (out : DataFrame) :
  calculate_sgpa_and_rank argsort df weights = Ok out ->
  out = mkFrame (ranked_labels (columns df))
                (ranked_rows weights (columns df) (sorted_rows argsort weights df)).
Proof.
  intros H. destruct (calculate_Ok _ _ _ H) as [Hamb Hnan].
  rewrite (calculate_total df weights Hamb Hnan) in H. injection H as <-.
  f_equal. unfold sorted_rows.
  set (order := argsort (rank_column weights (columns df) (rows df))).
  assert (Hrange : forall i, In i order -> i < length (rows df)).
  { intros i Hi. apply (order_in_range order); [|exact Hi].
    pose proof (argsort_permutes (rank_column weights (columns df) (rows df))) as Hp.
    unfold rank_column, sgpa_column in Hp. now rewrite !length_map in Hp. }
  unfold ranked_rows at 2. rewrite map_map.
  apply map_ext_in. intros i Hi. unfold ranked_rows.
  rewrite (nth_map_lt _ _ _ []) by now apply Hrange.
  f_equal. apply min_rank_Permutation. symmetry.
  apply (sgpa_sorted_Permutation weights df).
Qed.

Lemma no_nan_forallb (xs : list float) :
  forallb (fun x => negb (PrimFloat.is_nan x)) xs = true -> no_nan xs.
Proof.
  rewrite forallb_forall. intros H. apply List.Forall_forall.
  intros x Hx. apply negb_true_iff. now apply H.
Qed.

Lemma nth_ranked_rows (weights : gmap string float) (cols : list string)
    (rws : list (list cell)) (i : nat) (row : list cell) :
  nth_error rws i = Some row ->
  nth i (ranked_rows weights cols rws) []
  = with_sgpa_rank cols row (calc_student_sgpa weights cols row)
      (min_rank (calc_student_sgpa weights cols row) (sgpa_column weights cols rws)).
Proof.
  intros Hi. apply nth_error_nth. unfold ranked_rows.
  now rewrite nth_error_map, Hi.
Qed.

(** C1. For a well-formed roster whose labels are not ambiguous and in which
    no SGPA comes out as nan, [calculate_sgpa_and_rank] returns a roster with
    the same number of rows, the rows of the input in the order [order] of the
    sort; the row that comes from roster row [row] reads under [SGPA] the value
    [sgpa_of weights (columns df) row], that is
    [round(weighted_sum / weight_sum, 3)] over the countable grade columns, or
    0.0 when the weight sum is zero, and reads under every other label but
    [Rank] what [row] reads. *)
Theorem sgpa_formula (df : DataFrame) (weights : gmap string float) :
  well_formed_b df = true ->
  ambiguous_labels (columns df) = false ->
  forallb (fun row => negb (PrimFloat.is_nan (sgpa_of weights (columns df) row)))
          (rows df) = true ->
  exists out order,
    calculate_sgpa_and_rank argsort df weights = Ok out /\
    Permutation order (seq 0 (length (rows df))) /\
    length (rows out) = length (rows df) /\
    forall j i row,
      nth_error order j = Some i -> nth_error (rows df) i = Some row ->
      exists row',
        nth_error (rows out) j = Some row' /\
        row_get (columns out) row' "SGPA"
        = Some (Flt (sgpa_of weights (columns df) row)) /\
        forall l, l <> "SGPA" -> l <> "Rank" ->
          row_get (columns out) row' l = row_get (columns df) row l.
Proof.
  intros Hwf Hamb Hnan. apply well_formed_b_true in Hwf.
  assert (Hnan' : no_nan (sgpa_column weights (columns df) (rows df))).
  { unfold sgpa_column. apply no_nan_forallb. rewrite forallb_forall in *.
    intros x (row & <- & Hrow)%in_map_iff. rewrite calc_student_sgpa_spec.
    now apply Hnan. }
  pose proof (argsort_permutes (rank_column weights (columns df) (rows df))) as Hperm.
  assert (Hn : length (rank_column weights (columns df) (rows df)) = length (rows df))
    by (unfold rank_column, sgpa_column; now rewrite !length_map).
  rewrite Hn in Hperm.
  eexists. exists (argsort (rank_column weights (columns df) (rows df))).
  split; [now apply calculate_total|]. cbn [columns rows].
  split; [exact Hperm|]. split.
  - rewrite length_map. apply Permutation_length in Hperm. now rewrite length_seq in Hperm.
  - intros j i row Hj Hi. eexists. split.
    + rewrite nth_error_map, Hj. reflexivity.
    + unfold well_formed in Hwf. rewrite List.Forall_forall in Hwf.
      pose proof (Hwf row (nth_error_In _ _ Hi)) as Hlen.
      rewrite (nth_ranked_rows _ _ _ _ _ Hi).
      unfold with_sgpa_rank. split.
      * rewrite row_get_ranked_sgpa by exact Hlen. now rewrite calc_student_sgpa_spec.
      * intros l H1 H2. now apply row_get_ranked_other.
Qed.

Lemma nth_of_row_get (cols : list string) (row : list cell) (l : string) (v : cell)
    (ci : nat) :
  column_index l cols = Some ci -> row_get cols row l = Some v -> nth ci row NaN = v.
Proof.
  intros Hci. unfold row_get. rewrite Hci. apply nth_error_nth.
Qed.

Lemma column_index_present (l : string) (cols : list string) :
  has_column l cols = true -> exists ci, column_index l cols = Some ci.
Proof.
  intros H. destruct (column_index l cols) as [ci|] eqn:E; [now exists ci|].
  apply column_index_None in E. apply has_column_true in H. contradiction.
Qed.

(** The two derived columns of a ranked frame. *)
Lemma column_values_ranked (weights : gmap string float) (cols : list string)
    (rws : list (list cell)) :
  Forall (fun row => length row = length cols) rws ->
  column_values (mkFrame (ranked_labels cols) (ranked_rows weights cols rws)) "SGPA"
  = Some (map Flt (sgpa_column weights cols rws)) /\
  column_values (mkFrame (ranked_labels cols) (ranked_rows weights cols rws)) "Rank"
  = Some (map Int (rank_column weights cols rws)).
Proof.
  intros Hwf. rewrite List.Forall_forall in Hwf.
  unfold column_values. cbn [columns rows].
  destruct (column_index_present "SGPA" (ranked_labels cols)) as [cs Hcs];
    [apply set_label_keeps, set_label_present|].
  destruct (column_index_present "Rank" (ranked_labels cols)) as [cr Hcr];
    [apply set_label_present|].
  rewrite Hcs, Hcr. unfold ranked_rows, rank_column, sgpa_column.
  rewrite !map_map. split; f_equal; apply map_ext_in; intros row Hrow.
  - apply (nth_of_row_get _ _ _ _ _ Hcs). unfold with_sgpa_rank.
    apply row_get_ranked_sgpa. now apply Hwf.
  - apply (nth_of_row_get _ _ _ _ _ Hcr). unfold with_sgpa_rank.
    apply row_get_ranked_rank. now apply Hwf.
Qed.

(** What the minimum method gives two positions of a list of SGPAs. *)
Lemma min_rank_properties (sgpa : list float) (i j : nat) (si sj : float) :
  no_nan sgpa ->
  nth_error sgpa i = Some si -> nth_error sgpa j = Some sj ->
  (PrimFloat.eqb si sj = true -> min_rank si sgpa = min_rank sj sgpa) /\
  (PrimFloat.ltb sj si = true -> (min_rank si sgpa < min_rank sj sgpa)%Z) /\
  (PrimFloat.ltb sj si = true ->
   (forall c, c ∈ sgpa -> PrimFloat.ltb sj c = true -> PrimFloat.ltb c si = true -> False) ->
   min_rank sj sgpa = (min_rank si sgpa + Z.of_nat (tied si sgpa))%Z).
Proof.
  intros Hnan Hi Hj. unfold min_rank. repeat split.
  - intros Heq. now rewrite (greater_eqb si sj sgpa Heq).
  - intros Hlt. apply nth_error_In, list_elem_of_In in Hi.
    pose proof (greater_ltb si sj sgpa Hlt Hi). lia.
  - intros Hlt Hbetween. rewrite (greater_next si sj sgpa Hlt Hnan Hbetween). lia.
Qed.

Hypothesis argsort_sorts :
  forall keys, Sorted Z.le (map (fun i => nth i keys 0%Z) (argsort keys)).

Lemma rank_column_sorted_rows (weights : gmap string float) (df : DataFrame) :
  rank_column weights (columns df) (sorted_rows argsort weights df)
  = map (fun i => nth i (rank_column weights (columns df) (rows df)) 0%Z)
        (argsort (rank_column weights (columns df) (rows df))).
Proof.
  pose proof (sgpa_sorted_Permutation weights df) as Hperm.
  unfold rank_column at 1.
  rewrite (map_ext _ _ (fun s => min_rank_Permutation s _ _ Hperm)).
  unfold sgpa_column at 2. unfold sorted_rows.
  set (order := argsort (rank_column weights (columns df) (rows df))).
  assert (Hrange : forall i, In i order -> i < length (rows df)).
  { intros i Hi. apply (order_in_range order); [|exact Hi].
    pose proof (argsort_permutes (rank_column weights (columns df) (rows df))) as Hp.
    unfold rank_column, sgpa_column in Hp. now rewrite !length_map in Hp. }
  rewrite !map_map. apply map_ext_in. intros i Hi.
  unfold rank_column, sgpa_column. rewrite map_map.
  now rewrite (nth_map_lt _ _ _ []) by now apply Hrange.
Qed.

Lemma rank_column_Sorted (weights : gmap string float) (df : DataFrame) :
  Sorted Z.le (rank_column weights (columns df) (sorted_rows argsort weights df)).
Proof. rewrite rank_column_sorted_rows. apply argsort_sorts. Qed.

Lemma sorted_rows_well_formed (weights : gmap string float) (df : DataFrame) :
  well_formed df ->
  Forall (fun row => length row = length (columns df)) (sorted_rows argsort weights df).
Proof.
  intros Hwf. unfold well_formed in Hwf. rewrite List.Forall_forall in *.
  intros row Hrow. apply Hwf.
  now apply (Permutation_in _ (sorted_rows_Permutation weights df)).
Qed.

Lemma sorted_rows_no_nan (weights : gmap string float) (df : DataFrame) :
  no_nan (sgpa_column weights (columns df) (rows df)) ->
  no_nan (sgpa_column weights (columns df) (sorted_rows argsort weights df)).
Proof.
  unfold no_nan. rewrite !List.Forall_forall. intros H x Hx. apply H.
  now apply (Permutation_in _ (sgpa_sorted_Permutation weights df)).
Qed.

(** C2. Under the conditions of C1 the returned roster carries a column
    [SGPA] and a column [Rank], of floats [sgpa] and integers [rank], such
    that: every rank is one plus the number of SGPAs above the row's own (the
    minimum method over SGPA descending); rows whose SGPAs compare equal have
    the same rank; a row with a higher SGPA has a smaller rank; when no SGPA
    lies between those of two rows, the rank of the lower one is the rank of
    the higher one plus the number of rows that tie with the higher one; and
    the ranks are in ascending order from the first row to the last. *)
Theorem rank_minimum_method (df : DataFrame) (weights : gmap string float) :
  well_formed_b df = true ->
  ambiguous_labels (columns df) = false ->
  forallb (fun row => negb (PrimFloat.is_nan (calc_student_sgpa weights (columns df) row)))
          (rows df) = true ->
  exists out sgpa rank,
    calculate_sgpa_and_rank argsort df weights = Ok out /\
    column_values out "SGPA" = Some (map Flt sgpa) /\
    column_values out "Rank" = Some (map Int rank) /\
    rank = map (fun s => (1 + Z.of_nat (greater s sgpa))%Z) sgpa /\
    (forall i j si sj ri rj,
       nth_error sgpa i = Some si -> nth_error sgpa j = Some sj ->
       nth_error rank i = Some ri -> nth_error rank j = Some rj ->
       (PrimFloat.eqb si sj = true -> ri = rj) /\
       (PrimFloat.ltb sj si = true -> (ri < rj)%Z) /\
       (PrimFloat.ltb sj si = true ->
        (forall c, c ∈ sgpa ->
           PrimFloat.ltb sj c = true -> PrimFloat.ltb c si = true -> False) ->
        rj = (ri + Z.of_nat (tied si sgpa))%Z)) /\
    Sorted Z.le rank.
Proof.
  intros Hwf Hamb Hnan. apply well_formed_b_true in Hwf.
  assert (Hnan' : no_nan (sgpa_column weights (columns df) (rows df))).
  { unfold sgpa_column. apply no_nan_forallb. rewrite forallb_forall in *.
    intros x (row & <- & Hrow)%in_map_iff. now apply Hnan. }
  pose proof (calculate_total df weights Hamb Hnan') as Hcalc.
  pose proof (calculate_result df weights _ Hcalc) as Hout.
  rewrite Hout in Hcalc.
  destruct (column_values_ranked weights (columns df) (sorted_rows argsort weights df)
              (sorted_rows_well_formed weights df Hwf)) as [HS HR].
  exists (mkFrame (ranked_labels (columns df))
                  (ranked_rows weights (columns df) (sorted_rows argsort weights df))),
         (sgpa_column weights (columns df) (sorted_rows argsort weights df)),
         (rank_column weights (columns df) (sorted_rows argsort weights df)).
  split; [exact Hcalc|]. split; [exact HS|]. split; [exact HR|].
  split; [reflexivity|]. split; [|apply rank_column_Sorted].
  intros i j si sj ri rj Hi Hj Hri Hrj.
  unfold rank_column in Hri, Hrj. rewrite nth_error_map in Hri, Hrj.
  rewrite Hi in Hri. rewrite Hj in Hrj. injection Hri as <-. injection Hrj as <-.
  apply (min_rank_properties _ i j); try assumption.
  now apply sorted_rows_no_nan.
Qed.

Lemma map_Forall2 {A B C : Type} (R : A -> B -> Prop) (f : A -> C) (g : B -> C)
    (l1 : list A) (l2 : list B) :
  Forall2 R l1 l2 -> (forall x y, R x y -> f x = g y) -> map f l1 = map g l2.
Proof.
  intros H Hfg. induction H as [|x y l1 l2 Hxy _ IH]; [reflexivity|].
  simpl. now rewrite (Hfg x y Hxy), IH.
Qed.

Lemma sgpa_column_rewritten (weights : gmap string float) (cols : list string)
    (rws' rws : list (list cell)) :
  Forall2 (rewritten cols) rws' rws ->
  sgpa_column weights (ranked_labels cols) rws' = sgpa_column weights cols rws.
Proof.
  intros H. unfold sgpa_column. apply (map_Forall2 _ _ _ _ _ H).
  intros row' row [Hlen (a & b & ->)]. now apply calc_student_sgpa_ranked.
Qed.

Lemma ranked_rows_rewritten (weights : gmap string float) (cols : list string)
    (rws' rws : list (list cell)) :
  Forall2 (rewritten cols) rws' rws ->
  ranked_rows weights (ranked_labels cols) rws' = ranked_rows weights cols rws.
Proof.
  intros H. unfold ranked_rows. rewrite (sgpa_column_rewritten weights cols rws' rws H).
  apply (map_Forall2 _ _ _ _ _ H).
  intros row' row [Hlen (a & b & ->)].
  rewrite calc_student_sgpa_ranked by exact Hlen.
  unfold with_sgpa_rank. now apply with_cells_overwrite.
Qed.

(** A frame whose [SGPA] and [Rank] cells were written over gives what the
    frame without them gives. *)
Lemma calculate_rewritten (weights : gmap string float) (cols : list string)
    (rws' rws : list (list cell)) (out : DataFrame) :
  Forall2 (rewritten cols) rws' rws ->
  calculate_sgpa_and_rank argsort (mkFrame cols rws) weights = Ok out ->
  calculate_sgpa_and_rank argsort (mkFrame (ranked_labels cols) rws') weights = Ok out.
Proof.
  intros H Hcalc. destruct (calculate_Ok _ _ _ Hcalc) as [Hamb Hnan].
  cbn [columns rows] in Hamb, Hnan.
  rewrite (calculate_total (mkFrame cols rws) weights Hamb Hnan) in Hcalc.
  rewrite <- Hcalc.
  rewrite calculate_total; cbn [columns rows].
  - rewrite ranked_labels_idem, (ranked_rows_rewritten weights cols rws' rws H).
    unfold rank_column. now rewrite (sgpa_column_rewritten weights cols rws' rws H).
  - now rewrite ambiguous_labels_ranked.
  - now rewrite (sgpa_column_rewritten weights cols rws' rws H).
Qed.

Lemma ranked_rows_are_rewritten (weights : gmap string float) (cols : list string)
    (rws : list (list cell)) :
  Forall (fun row => length row = length cols) rws ->
  Forall2 (rewritten cols) (ranked_rows weights cols rws) rws.
Proof.
  unfold ranked_rows. generalize (sgpa_column weights cols rws) as sgpa.
  intros sgpa Hwf. induction Hwf as [|row rws Hrow _ IH]; [constructor|].
  cbn [map]. constructor; [|exact IH].
  split; [exact Hrow|]. unfold with_sgpa_rank. eauto.
Qed.

Lemma set_columns_are_rewritten (cols : list string) (rws : list (list cell))
    (ss rs : list cell) :
  Forall (fun row => length row = length cols) rws ->
  length ss = length rws -> length rs = length rws ->
  Forall2 (rewritten cols)
    (zip_with_rows (set_cell "Rank" (set_label "SGPA" cols))
       (zip_with_rows (set_cell "SGPA" cols) rws ss) rs)
    rws.
Proof.
  intros Hwf. revert ss rs.
  induction Hwf as [|row rws Hrow _ IH]; intros [|a ss] [|b rs] Hs Hr;
    simpl in *; try discriminate; [constructor|].
  constructor.
  - split; [exact Hrow|]. exists a, b. reflexivity.
  - apply IH; lia.
Qed.

(** Whatever the sorting routine does with rows of equal rank, a second call
    returns the labels and the rows of the first, cell for cell; only the
    order of the rows can differ. *)
Lemma calculate_twice (df : DataFrame) (weights : gmap string float) (out : DataFrame) :
  well_formed_b df = true ->
  calculate_sgpa_and_rank argsort df weights = Ok out ->
  exists out',
    calculate_sgpa_and_rank argsort out weights = Ok out' /\
    columns out' = columns out /\
    Permutation (rows out') (rows out).
Proof.
  intros Hwf Hcalc. apply well_formed_b_true in Hwf.
  destruct (calculate_Ok _ _ _ Hcalc) as [Hamb Hnan].
  pose proof (calculate_result df weights out Hcalc) as Hout.
  eexists. split.
  - rewrite Hout at 1.
    apply (calculate_rewritten weights (columns df) _ (sorted_rows argsort weights df)).
    + apply ranked_rows_are_rewritten. now apply sorted_rows_well_formed.
    + apply calculate_total; cbn [columns rows];
        [exact Hamb | now apply sorted_rows_no_nan].
  - rewrite Hout. cbn [columns rows]. split; [reflexivity|].
    apply permuted_by_order.
    pose proof (argsort_permutes
                  (rank_column weights (columns df) (sorted_rows argsort weights df))) as Hp.
    unfold rank_column, sgpa_column, ranked_rows in *.
    now rewrite !length_map in *.
Qed.

Hypothesis argsort_keeps_sorted :
  forall keys, Sorted Z.le keys -> argsort keys = seq 0 (length keys).

(** With a sorting routine that leaves a sorted list of keys as it is, which
    a stable kind does and the default kind of numpy need not, the second
    call returns [out] itself, the order of the rows included. *)
Theorem calculate_idempotent (df : DataFrame) (weights : gmap string float)
    (out : DataFrame) :
  well_formed_b df = true ->
  calculate_sgpa_and_rank argsort df weights = Ok out ->
  calculate_sgpa_and_rank argsort out weights = Ok out /\
  forall ss rs : list cell,
    length ss = length (rows df) -> length rs = length (rows df) ->
    calculate_sgpa_and_rank argsort
      (set_column "Rank" rs (set_column "SGPA" ss df)) weights = Ok out.
Proof.
  intros Hwf Hcalc. apply well_formed_b_true in Hwf.
  destruct (calculate_Ok _ _ _ Hcalc) as [Hamb Hnan].
  pose proof (calculate_result df weights out Hcalc) as Hout.
  split.
  - rewrite Hout at 1.
    apply (calculate_rewritten weights (columns df) _ (sorted_rows argsort weights df)).
    + apply ranked_rows_are_rewritten. now apply sorted_rows_well_formed.
    + rewrite calculate_total; cbn [columns rows];
        [| exact Hamb | now apply sorted_rows_no_nan].
      rewrite Hout. do 2 f_equal.
      rewrite (argsort_keeps_sorted _ (rank_column_Sorted weights df)).
      replace (length (rank_column weights (columns df) (sorted_rows argsort weights df)))
        with (length (ranked_rows weights (columns df) (sorted_rows argsort weights df)))
        by (unfold rank_column, ranked_rows, sgpa_column; now rewrite !length_map).
      apply map_nth_seq.
  - intros ss rs Hss Hrs. destruct df as [cols rws]. cbn [columns rows] in *.
    unfold set_column. cbn [columns rows].
    apply (calculate_rewritten weights cols _ rws); [|exact Hcalc].
    now apply set_columns_are_rewritten.
Qed.

End RankingProperties.

(** ** A sorting routine that meets the three hypotheses *)

Lemma insert_by_key_snd (k : Z) (i : nat) (l : list (Z * nat)) :
  Permutation (map snd (insert_by_key k i l)) (i :: map snd l).
Proof.
  induction l as [|[k' i'] l IH]; simpl; [reflexivity|].
  destruct (k <? k')%Z; simpl; [reflexivity|].
  rewrite IH. apply perm_swap.
Qed.

Lemma insertion_pairs_snd (keys : list Z) (i : nat) (acc : list (Z * nat)) :
  Permutation (map snd (insertion_pairs keys i acc))
              (map snd acc ++ seq i (length keys)).
Proof.
  revert i acc. induction keys as [|k keys IH]; intros i acc; simpl.
  - now rewrite app_nil_r.
  - rewrite IH, insert_by_key_snd. apply Permutation_middle.
Qed.

Lemma stable_argsort_permutes (keys : list Z) :
  Permutation (stable_argsort keys) (seq 0 (length keys)).
Proof. unfold stable_argsort. now rewrite insertion_pairs_snd. Qed.

Lemma insert_by_key_In (k : Z) (i : nat) (l : list (Z * nat)) (p : Z * nat) :
  In p (insert_by_key k i l) -> p = (k, i) \/ In p l.
Proof.
  induction l as [|[k' i'] l IH]; simpl.
  - intros [H|[]]. now left.
  - destruct (k <? k')%Z; simpl.
    + intros [H|H]; [now left | now right].
    + intros [H|H]; [right; now left|].
      destruct (IH H) as [Hp|Hp]; [now left | right; now right].
Qed.

Lemma insert_by_key_Sorted (k : Z) (i : nat) (l : list (Z * nat)) :
  Sorted Z.le (map fst l) -> Sorted Z.le (map fst (insert_by_key k i l)).
Proof.
  induction l as [|[k' i'] l IH]; simpl; intros Hs.
  - repeat constructor.
  - destruct (k <? k')%Z eqn:E; simpl.
    + apply Z.ltb_lt in E. constructor; [exact Hs|]. constructor. simpl. lia.
    + apply Z.ltb_ge in E. apply Sorted_inv in Hs as [Hs Hhd].
      constructor; [now apply IH|].
      destruct l as [|[k'' i''] l]; simpl.
      * constructor. exact E.
      * destruct (k <? k'')%Z; simpl; constructor; [exact E|].
        now apply HdRel_inv in Hhd.
Qed.

Lemma insertion_pairs_invariant (pre keys : list Z) (acc : list (Z * nat)) :
  holds_keys (pre ++ keys) acc -> Sorted Z.le (map fst acc) ->
  holds_keys (pre ++ keys) (insertion_pairs keys (length pre) acc) /\
  Sorted Z.le (map fst (insertion_pairs keys (length pre) acc)).
Proof.
  revert pre acc. induction keys as [|k keys IH]; intros pre acc Hk Hs; simpl.
  - now split.
  - replace (pre ++ k :: keys) with ((pre ++ [k]) ++ keys) in *
      by now rewrite <- app_assoc.
    replace (S (length pre)) with (length (pre ++ [k]))
      by (rewrite length_app; simpl; lia).
    apply IH; [|now apply insert_by_key_Sorted].
    unfold holds_keys in *. rewrite List.Forall_forall in *.
    intros p [->|Hp]%insert_by_key_In; [|now apply Hk].
    simpl. rewrite <- app_assoc. simpl. apply nth_middle.
Qed.

Lemma stable_argsort_sorts (keys : list Z) :
  Sorted Z.le (map (fun i => nth i keys 0%Z) (stable_argsort keys)).
Proof.
  unfold stable_argsort.
  destruct (insertion_pairs_invariant [] keys []) as [Hk Hs];
    [constructor | constructor|].
  simpl in Hk, Hs. rewrite map_map.
  rewrite (map_ext_in _ fst); [exact Hs|].
  intros p Hp. unfold holds_keys in Hk. rewrite List.Forall_forall in Hk.
  now apply Hk.
Qed.

Lemma insert_by_key_last (k : Z) (i : nat) (l : list (Z * nat)) :
  Forall (fun p => (fst p <= k)%Z) l -> insert_by_key k i l = l ++ [(k, i)].
Proof.
  induction 1 as [|[k' i'] l Hle _ IH]; simpl; [reflexivity|].
  simpl in Hle. destruct (k <? k')%Z eqn:E; [apply Z.ltb_lt in E; lia|].
  now rewrite IH.
Qed.

Lemma insertion_pairs_sorted (keys : list Z) (i : nat) (acc : list (Z * nat)) :
  StronglySorted Z.le (map fst acc ++ keys) ->
  insertion_pairs keys i acc = acc ++ combine keys (seq i (length keys)).
Proof.
  revert i acc. induction keys as [|k keys IH]; intros i acc Hs; simpl.
  - now rewrite app_nil_r.
  - assert (Hle : Forall (fun p => (fst p <= k)%Z) acc).
    { clear IH. induction acc as [|[k' i'] acc IHacc]; [constructor|].
      simpl in Hs. apply StronglySorted_inv in Hs as [Hs Hall]. constructor.
      - simpl. rewrite List.Forall_forall in Hall. apply Hall.
        apply in_or_app. right. now left.
      - now apply IHacc. }
    rewrite (insert_by_key_last k i acc Hle), IH.
    + now rewrite <- app_assoc.
    + rewrite map_app. simpl. now rewrite <- app_assoc.
Qed.

Lemma map_snd_combine {A B : Type} (xs : list A) (ys : list B) :
  length ys = length xs -> map snd (combine xs ys) = ys.
Proof.
  revert ys. induction xs as [|x xs IH]; intros [|y ys] Hl; simpl in *;
    try reflexivity; try discriminate.
  f_equal. apply IH. lia.
Qed.

Lemma stable_argsort_keeps_sorted (keys : list Z) :
  Sorted Z.le keys -> stable_argsort keys = seq 0 (length keys).
Proof.
  intros Hs. unfold stable_argsort.
  rewrite insertion_pairs_sorted.
  - simpl. apply map_snd_combine, length_seq.
  - simpl. apply Sorted_StronglySorted; [|exact Hs].
    intros x y z. apply Z.le_trans.
Qed.

(** ** The ranking scenarios of the specification *)

Lemma sgpa_scenario :
  exists out,
    calculate_sgpa_and_rank stable_argsort roster_a_bplus weights_3_2 = Ok out /\
    column_values out "SGPA" = Some [Flt 3.72%float].
Proof.
  destruct (sgpa_formula stable_argsort stable_argsort_permutes
              roster_a_bplus weights_3_2) as (out & order & Hcalc & _).
  - reflexivity.
  - reflexivity.
  - vm_compute. reflexivity.
  - exists out. split; [exact Hcalc|].
    vm_compute in Hcalc. injection Hcalc as <-. vm_compute. reflexivity.
Defined.

Lemma tie_scenario :
  exists out,
    calculate_sgpa_and_rank stable_argsort roster_tie weights_3_2 = Ok out /\
    column_values out "Index" = Some [Str "200145A"; Str "200147C"; Str "200146B"] /\
    column_values out "SGPA" = Some [Flt 3.0%float; Flt 3.0%float; Flt 2.0%float] /\
    column_values out "Rank" = Some [Int 1; Int 1; Int 3].
Proof.
  destruct (rank_minimum_method stable_argsort stable_argsort_permutes
              stable_argsort_sorts roster_tie weights_3_2)
    as (out & sgpa & rank & Hcalc & _).
  - reflexivity.
  - reflexivity.
  - vm_compute. reflexivity.
  - exists out. split; [exact Hcalc|].
    vm_compute in Hcalc. injection Hcalc as <-. vm_compute. repeat split.
Defined.

Lemma idempotent_scenario :
  calculate_sgpa_and_rank stable_argsort roster_tie weights_3_2 = Ok ranked_tie /\
  calculate_sgpa_and_rank stable_argsort ranked_tie weights_3_2 = Ok ranked_tie.
Proof.
  assert (H : calculate_sgpa_and_rank stable_argsort roster_tie weights_3_2 = Ok ranked_tie)
    by (vm_compute; reflexivity).
  split; [exact H|].
  apply (calculate_idempotent stable_argsort stable_argsort_permutes
           stable_argsort_sorts stable_argsort_keeps_sorted
           roster_tie weights_3_2 ranked_tie); [reflexivity | exact H].
Defined.

(** ** The second call when the sort is not stable *)

Lemma Sorted_le_unique (l1 l2 : list Z) :
  Sorted Z.le l1 -> Sorted Z.le l2 -> Permutation l1 l2 -> l1 = l2.
Proof. intros H1 H2 Hp. now apply (Sorted_unique Z.le). Qed.

Lemma rank_column_Permutation (weights : gmap string float) (cols cols' : list string)
    (rws rws' : list (list cell)) :
  Permutation (sgpa_column weights cols' rws') (sgpa_column weights cols rws) ->
  Permutation (rank_column weights cols' rws') (rank_column weights cols rws).
Proof.
  intros Hp. unfold rank_column.
  rewrite (map_ext _ _ (fun s => min_rank_Permutation s _ _ Hp)).
  now apply Permutation_map.
Qed.

Lemma mirror_seq (n : nat) :
  map (fun j => n - 1 - j) (seq 0 n) = rev (seq 0 n).
Proof.
  induction n as [|n IH]; [reflexivity|].
  rewrite seq_S at 2. rewrite rev_app_distr. cbn [rev app plus].
  cbn [seq map]. f_equal; [lia|].
  rewrite <- seq_shift, map_map, <- IH.
  apply map_ext. intros j. lia.
Qed.

Lemma reversing_argsort_permutes (keys : list Z) :
  Permutation (reversing_argsort keys) (seq 0 (length keys)).
Proof.
  unfold reversing_argsort.
  pose proof (stable_argsort_permutes (rev keys)) as Hp.
  rewrite length_rev in Hp.
  apply (Permutation_map (fun j => length keys - 1 - j)) in Hp.
  rewrite mirror_seq in Hp. rewrite Hp. symmetry. apply Permutation_rev.
Qed.

Lemma reversing_argsort_sorts (keys : list Z) :
  Sorted Z.le (map (fun i => nth i keys 0%Z) (reversing_argsort keys)).
Proof.
  unfold reversing_argsort. rewrite map_map.
  pose proof (stable_argsort_sorts (rev keys)) as Hs.
  pose proof (stable_argsort_permutes (rev keys)) as Hp.
  rewrite length_rev in Hp.
  erewrite map_ext_in; [exact Hs|].
  intros j Hj. cbv beta.
  assert (Hlt : j < length keys) by now apply (order_in_range _ _ _ Hp).
  rewrite rev_nth by exact Hlt. f_equal. lia.
Qed.

Section RankingAgain.

Variable argsort : list Z -> list nat.

Hypothesis argsort_permutes :
  forall keys, Permutation (argsort keys) (seq 0 (length keys)).

Hypothesis argsort_sorts :
  forall keys, Sorted Z.le (map (fun i => nth i keys 0%Z) (argsort keys)).

(** C6, as amended. When [calculate_sgpa_and_rank] returns [out] for a
    well-formed roster, a second call on [out] returns a roster with the
    labels of [out], the rows of [out], each with the cells it had, the SGPA
    and the rank among them, and the [Rank] column of [out]; the rows of
    equal rank come in the order the sorting routine gives them. The call
    also returns [out] for the roster with anything at all written beforehand
    under [SGPA] and [Rank]: these two columns are written, never read. *)
Theorem calculate_again (df : DataFrame) (weights : gmap string float)
    (out : DataFrame) :
  well_formed_b df = true ->
  calculate_sgpa_and_rank argsort df weights = Ok out ->
  (exists out',
     calculate_sgpa_and_rank argsort out weights = Ok out' /\
     columns out' = columns out /\
     Permutation (rows out') (rows out) /\
     column_values out' "Rank" = column_values out "Rank") /\
  forall ss rs : list cell,
    length ss = length (rows df) -> length rs = length (rows df) ->
    calculate_sgpa_and_rank argsort
      (set_column "Rank" rs (set_column "SGPA" ss df)) weights = Ok out.
Proof.
  intros Hwfb Hcalc. pose proof (proj1 (well_formed_b_true df) Hwfb) as Hwf.
  split.
  - destruct (calculate_twice argsort argsort_permutes df weights out Hwfb Hcalc)
      as (out' & Hcalc' & Hcols & Hrows).
    exists out'. split; [exact Hcalc'|]. split; [exact Hcols|]. split; [exact Hrows|].
    pose proof (calculate_result argsort argsort_permutes df weights out Hcalc) as Hout.
    pose proof (calculate_result argsort argsort_permutes out weights out' Hcalc') as Hout'.
    assert (Hwf1 : Forall (fun row => length row = length (columns df))
                          (sorted_rows argsort weights df))
      by now apply sorted_rows_well_formed.
    assert (Hwfo : well_formed out).
    { unfold well_formed. rewrite Hout. cbn [columns rows].
      unfold ranked_rows. rewrite List.Forall_map.
      eapply List.Forall_impl; [|exact Hwf1]. cbv beta. intros row Hrow.
      unfold with_sgpa_rank. now apply length_with_cells. }
    assert (Hwf2 : Forall (fun row => length row = length (columns out))
                          (sorted_rows argsort weights out))
      by now apply sorted_rows_well_formed.
    assert (Hsg : Permutation
                    (sgpa_column weights (columns out) (sorted_rows argsort weights out))
                    (sgpa_column weights (columns df) (sorted_rows argsort weights df))).
    { rewrite (sgpa_sorted_Permutation argsort argsort_permutes weights out).
      rewrite Hout. cbn [columns rows].
      now rewrite (sgpa_column_rewritten weights (columns df) _ _
                     (ranked_rows_are_rewritten weights (columns df) _ Hwf1)). }
    destruct (column_values_ranked weights (columns out)
                (sorted_rows argsort weights out) Hwf2) as [_ Hr'].
    destruct (column_values_ranked weights (columns df)
                (sorted_rows argsort weights df) Hwf1) as [_ Hr].
    rewrite Hout', Hr'. rewrite Hout at 3. rewrite Hr. do 2 f_equal.
    apply Sorted_le_unique.
    + apply (rank_column_Sorted argsort argsort_permutes argsort_sorts).
    + apply (rank_column_Sorted argsort argsort_permutes argsort_sorts).
    + now apply rank_column_Permutation.
  - intros ss rs Hss Hrs. destruct df as [cols rws]. cbn [columns rows] in *.
    unfold set_column. cbn [columns rows].
    apply (calculate_rewritten argsort weights cols _ rws); [|exact Hcalc].
    now apply set_columns_are_rewritten.
Qed.

End RankingAgain.

(** The second call on the scenario roster with a stable sort. *)
Lemma calculate_again_witness :
  exists out',
    calculate_sgpa_and_rank stable_argsort ranked_tie weights_3_2 = Ok out' /\
    columns out' = columns ranked_tie /\
    Permutation (rows out') (rows ranked_tie) /\
    column_values out' "Rank" = column_values ranked_tie "Rank".
Proof.
  apply (calculate_again stable_argsort stable_argsort_permutes stable_argsort_sorts
           roster_tie weights_3_2 ranked_tie); [reflexivity|].
  vm_compute. reflexivity.
Defined.

(** C6 fails as stated: a sorting routine that puts the rows in the order of
    their ranks, the later of two rows of equal rank first, gives the second
    call the rows of the first in another order. *)
Lemma calculate_order_counterexample :
  (forall keys, Permutation (reversing_argsort keys) (seq 0 (length keys))) /\
  (forall keys, Sorted Z.le (map (fun i => nth i keys 0%Z) (reversing_argsort keys))) /\
  exists out out',
    calculate_sgpa_and_rank reversing_argsort roster_tie weights_3_2 = Ok out /\
    calculate_sgpa_and_rank reversing_argsort out weights_3_2 = Ok out' /\
    nth_error (rows out) 0 = Some [Str "200147C"; Str "B"; Flt 3.0%float; Int 1] /\
    nth_error (rows out') 0 = Some [Str "200145A"; Str "B"; Flt 3.0%float; Int 1] /\
    out' <> out.
Proof.
  split; [exact reversing_argsort_permutes|].
  split; [exact reversing_argsort_sorts|].
  eexists. eexists. split; [vm_compute; reflexivity|].
  split; [vm_compute; reflexivity|].
  split; [reflexivity|]. split; [reflexivity|].
  intros H. discriminate H.
Qed.


(** ** The matcher against a declarative reading of the patterns *)

Lemma within_pred (hi : option nat) (n : nat) :
  within hi (S n) -> hi_allows hi = true /\ within (hi_pred hi) n.
Proof.
  destruct hi as [[|h]|]; simpl; intros H; try lia; split; try reflexivity; lia.
Qed.

Lemma within_succ (hi : option nat) (n : nat) :
  hi_allows hi = true -> within (hi_pred hi) n -> within hi (S n).
Proof.
  destruct hi as [[|h]|]; simpl; intros H1 H2; try discriminate; try lia; exact I.
Qed.

Lemma rep_greedy_sound {R : Type} (p : ascii -> bool) (k : string -> option R)
    (s : string) (lo : nat) (hi : option nat) (x : R) :
  rep_greedy p lo hi k s = Some x ->
  exists w rest,
    s = w +:+ rest /\ all_chars p w = true /\ lo <= String.length w /\
    within hi (String.length w) /\ k rest = Some x.
Proof.
  revert lo hi. induction s as [|a s IH]; intros lo hi H; simpl in H.
  - destruct lo; [|discriminate]. exists "", "". repeat split; simpl; try lia; try assumption.
    destruct hi; simpl; [lia | exact I].
  - assert (Hstop : match lo with 0 => k (String a s) | S _ => None end = Some x ->
              exists w rest, String a s = w +:+ rest /\ all_chars p w = true /\
                lo <= String.length w /\ within hi (String.length w) /\ k rest = Some x).
    { destruct lo; [|discriminate]. intros Hk. exists "", (String a s).
      repeat split; simpl; try lia; try assumption.
      destruct hi; simpl; [lia | exact I]. }
    destruct (p a && hi_allows hi) eqn:E; [|now apply Hstop].
    apply andb_prop in E as [Hp Hhi].
    destruct (rep_greedy p (Nat.pred lo) (hi_pred hi) k s) as [y|] eqn:Er;
      [|now apply Hstop].
    injection H as <-. destruct (IH _ _ Er) as (w & rest & -> & Hall & Hlo & Hw & Hk).
    exists (String a w), rest. repeat split; simpl; try assumption.
    + now rewrite Hp, Hall.
    + lia.
    + now apply within_succ.
Qed.

Lemma rep_lazy_sound {R : Type} (p : ascii -> bool) (k : string -> option R)
    (s : string) (lo : nat) (hi : option nat) (x : R) :
  rep_lazy p lo hi k s = Some x ->
  exists w rest,
    s = w +:+ rest /\ all_chars p w = true /\ lo <= String.length w /\
    within hi (String.length w) /\ k rest = Some x.
Proof.
  revert lo hi. induction s as [|a s IH]; intros lo hi H; simpl in H.
  - destruct lo; [|discriminate]. destruct (k "") eqn:Ek; [|discriminate].
    injection H as <-. exists "", "". repeat split; simpl; try lia; try assumption.
    destruct hi; simpl; [lia | exact I].
  - assert (Hgo : (if p a && hi_allows hi
                   then rep_lazy p (Nat.pred lo) (hi_pred hi) k s else None) = Some x ->
              exists w rest, String a s = w +:+ rest /\ all_chars p w = true /\
                lo <= String.length w /\ within hi (String.length w) /\ k rest = Some x).
    { destruct (p a && hi_allows hi) eqn:E; [|discriminate].
      apply andb_prop in E as [Hp Hhi]. intros Er.
      destruct (IH _ _ Er) as (w & rest & -> & Hall & Hlo & Hw & Hk).
      exists (String a w), rest. repeat split; simpl; try assumption.
      - now rewrite Hp, Hall.
      - lia.
      - now apply within_succ. }
    destruct lo; [|now apply Hgo].
    destruct (k (String a s)) as [y|] eqn:Ek; [|now apply Hgo].
    injection H as <-. exists "", (String a s).
    repeat split; simpl; try lia; try assumption.
    destruct hi; simpl; [lia | exact I].
Qed.

Lemma rep_greedy_complete {R : Type} (p : ascii -> bool) (k : string -> option R)
    (w rest : string) (lo : nat) (hi : option nat) :
  all_chars p w = true -> lo <= String.length w -> within hi (String.length w) ->
  k rest <> None -> rep_greedy p lo hi k (w +:+ rest) <> None.
Proof.
  revert lo hi. induction w as [|a w IH]; intros lo hi Hall Hlo Hw Hk.
  - simpl in Hlo. assert (lo = 0) by lia. subst lo. simpl.
    destruct rest as [|b rest]; simpl; [exact Hk|].
    destruct (p b && hi_allows hi); [|exact Hk].
    destruct (rep_greedy p 0 (hi_pred hi) k rest); [discriminate | exact Hk].
  - simpl in Hall. apply andb_prop in Hall as [Hp Hall].
    simpl in Hw. apply within_pred in Hw as [Hhi Hw].
    change (String a w +:+ rest) with (String a (w +:+ rest)).
    cbn [rep_greedy]. rewrite Hp, Hhi. cbn [andb].
    assert (Hrec : rep_greedy p (Nat.pred lo) (hi_pred hi) k (w +:+ rest) <> None).
    { apply IH; try assumption. simpl in Hlo. lia. }
    destruct (rep_greedy p (Nat.pred lo) (hi_pred hi) k (w +:+ rest));
      [discriminate | contradiction].
Qed.

Lemma rep_lazy_complete {R : Type} (p : ascii -> bool) (k : string -> option R)
    (w rest : string) (lo : nat) (hi : option nat) :
  all_chars p w = true -> lo <= String.length w -> within hi (String.length w) ->
  k rest <> None -> rep_lazy p lo hi k (w +:+ rest) <> None.
Proof.
  revert lo hi. induction w as [|a w IH]; intros lo hi Hall Hlo Hw Hk.
  - simpl in Hlo. assert (lo = 0) by lia. subst lo. simpl.
    destruct rest as [|b rest]; simpl; destruct (k _); try discriminate; contradiction.
  - simpl in Hall. apply andb_prop in Hall as [Hp Hall].
    simpl in Hw. apply within_pred in Hw as [Hhi Hw].
    change (String a w +:+ rest) with (String a (w +:+ rest)).
    cbn [rep_lazy]. rewrite Hp, Hhi. cbn [andb].
    assert (Hrec : rep_lazy p (Nat.pred lo) (hi_pred hi) k (w +:+ rest) <> None).
    { apply IH; try assumption. simpl in Hlo. lia. }
    destruct lo; [|exact Hrec].
    destruct (k (String a (w +:+ rest))); [discriminate | exact Hrec].
Qed.

(** Whatever the matcher returns comes from a match of the pattern. *)
Lemma rmatch_sound (r : regex) :
  forall (R : Type) (s : string) (c : captures)
         (k : string -> captures -> option R) (x : R),
    rmatch r s c k = Some x ->
    exists rest c', Matches r s c rest c' /\ k rest c' = Some x.
Proof.
  induction r as [p| |r1 IH1 r2 IH2|r1 IH1 r2 IH2|greedy lo hi p|n r IH|r IH|];
    intros R s c k x H; simpl in H.
  - destruct s as [|a s]; [discriminate|].
    destruct (p a) eqn:E; [|discriminate].
    exists s, c. split; [now constructor | exact H].
  - exists s, c. split; [constructor | exact H].
  - apply IH1 in H as (s1 & c1 & H1 & H).
    apply IH2 in H as (s2 & c2 & H2 & H).
    exists s2, c2. split; [econstructor; eassumption | exact H].
  - destruct (rmatch r1 s c k) as [y|] eqn:E.
    + injection H as <-. apply IH1 in E as (rest & c' & HM & Hk).
      exists rest, c'. split; [now apply M_AltL | exact Hk].
    + apply IH2 in H as (rest & c' & HM & Hk).
      exists rest, c'. split; [now apply M_AltR | exact Hk].
  - assert (Hrep : exists w rest, s = w +:+ rest /\ all_chars p w = true /\
              lo <= String.length w /\ within hi (String.length w) /\
              k rest c = Some x).
    { destruct greedy; [apply rep_greedy_sound in H | apply rep_lazy_sound in H];
        exact H. }
    destruct Hrep as (w & rest & -> & Hall & Hlo & Hw & Hk).
    exists rest, c. split; [now constructor | exact Hk].
  - apply IH in H as (rest & c' & HM & Hk).
    exists rest, ((n, consumed s rest) :: c'). split; [now constructor | exact Hk].
  - destruct (rmatch r s c (fun _ c' => Some c')) as [c'|] eqn:E; [|discriminate].
    apply IH in E as (rest & c'' & HM & Hk). injection Hk as ->.
    exists s, c'. split; [econstructor; eassumption | exact H].
  - destruct (at_end s) eqn:E; [|discriminate].
    exists s, c. split; [now constructor | exact H].
Qed.

(** A match of the pattern is never missed, whatever the earlier groups are,
    when the rest of the pattern accepts where that match stops. *)
Lemma rmatch_complete (r : regex) (s : string) (c : captures) (rest : string)
    (c' : captures) :
  Matches r s c rest c' ->
  forall (R : Type) (c0 : captures) (k : string -> captures -> option R),
    (forall c1, k rest c1 <> None) -> rmatch r s c0 k <> None.
Proof.
  induction 1 as [p a s c Hp|s c|r1 r2 s c s1 c1 s2 c2 _ IH1 _ IH2
                 |r1 r2 s c s' c' _ IH|r1 r2 s c s' c' _ IH
                 |greedy lo hi p w s c Hall Hlo Hw|n r s c s' c' _ IH
                 |r s c s' c' _ IH|s c Hend];
    intros R c0 k Hk; simpl.
  - rewrite Hp. apply Hk.
  - apply Hk.
  - apply IH1. intros c3. now apply IH2.
  - specialize (IH R c0 k Hk). now destruct (rmatch r1 s c0 k).
  - specialize (IH R c0 k Hk). now destruct (rmatch r1 s c0 k).
  - destruct greedy; [apply rep_greedy_complete | apply rep_lazy_complete];
      try assumption; apply Hk.
  - apply IH. intros c1. apply Hk.
  - specialize (IH captures c0 (fun _ c1 => Some c1)).
    destruct (rmatch r s c0 (fun _ c1 => Some c1)); [apply Hk|].
    exfalso. apply IH; [discriminate | reflexivity].
  - rewrite Hend. apply Hk.
Qed.

(** A match leaves a suffix of the text, and the text it consumed is what
    stands before that suffix. *)
Lemma Matches_suffix (r : regex) (s : string) (c : captures) (rest : string)
    (c' : captures) :
  Matches r s c rest c' -> exists w, s = w +:+ rest.
Proof.
  induction 1 as [p a s c Hp|s c|r1 r2 s c s1 c1 s2 c2 _ [w1 ->] _ [w2 ->]
                 |r1 r2 s c s' c' _ IH|r1 r2 s c s' c' _ IH
                 |greedy lo hi p w s c Hall Hlo Hw|n r s c s' c' _ IH
                 |r s c s' c' _ IH|s c Hend]; try assumption.
  - now exists (String a "").
  - now exists "".
  - exists (w1 +:+ w2). now rewrite string_app_assoc.
  - now exists w.
  - now exists "".
  - now exists "".
Qed.

Lemma substring_prefix (w rest : string) :
  substring 0 (String.length w) (w +:+ rest) = w.
Proof.
  induction w as [|a w IH]; simpl.
  - now destruct rest.
  - now rewrite IH.
Qed.

Lemma consumed_app (w rest : string) : consumed (w +:+ rest) rest = w.
Proof.
  unfold consumed. rewrite string_length_app.
  replace (String.length w + String.length rest - String.length rest)
    with (String.length w) by lia.
  apply substring_prefix.
Qed.

Lemma re_match_sound (r : regex) (s : string) (m : Match) :
  re_match r s = Some m ->
  exists rest c, Matches r s [] rest c /\ m = mkMatch (consumed s rest) c.
Proof.
  unfold re_match. intros H. apply rmatch_sound in H as (rest & c & HM & Hk).
  injection Hk as <-. now exists rest, c.
Qed.

Lemma re_match_complete (r : regex) (s : string) (c : captures) (rest : string)
    (c' : captures) :
  Matches r s c rest c' -> re_match r s <> None.
Proof.
  intros HM. unfold re_match. apply (rmatch_complete _ _ _ _ _ HM). discriminate.
Qed.

(** [re.search] returns a match that starts somewhere in the text ... *)
Lemma re_search_sound (r : regex) (text : string) (m : Match) :
  re_search r text = Some m ->
  exists pre s, text = pre +:+ s /\ re_match r s = Some m.
Proof.
  induction text as [|a text IH]; simpl.
  - destruct (re_match r "") eqn:E; [|discriminate].
    intros [= <-]. now exists "", "".
  - destruct (re_match r (String a text)) eqn:E.
    + intros [= <-]. now exists "", (String a text).
    + intros H. destruct (IH H) as (pre & s & -> & Hm).
      now exists (String a pre), s.
Qed.

(** ... and returns one whenever some position of the text has a match. *)
Lemma re_search_complete (r : regex) (pre s : string) :
  re_match r s <> None -> re_search r (pre +:+ s) <> None.
Proof.
  intros Hm. induction pre as [|a pre IH]; simpl.
  - destruct s; simpl; now destruct (re_match r _).
  - now destruct (re_match r (String a (pre +:+ s))).
Qed.

(** *** Reading a match backwards *)

Lemma Matches_Chr_inv p s c rest c' :
  Matches (Chr p) s c rest c' -> c' = c /\ exists a, s = String a rest /\ p a = true.
Proof. inversion 1; subst. split; [reflexivity | eauto]. Qed.

Lemma Matches_Seq_inv r1 r2 s c rest c' :
  Matches (Seq r1 r2) s c rest c' ->
  exists s1 c1, Matches r1 s c s1 c1 /\ Matches r2 s1 c1 rest c'.
Proof. inversion 1; subst. eauto. Qed.

Lemma Matches_Alt_inv r1 r2 s c rest c' :
  Matches (Alt r1 r2) s c rest c' ->
  Matches r1 s c rest c' \/ Matches r2 s c rest c'.
Proof. inversion 1; subst; auto. Qed.

Lemma Matches_Rep_inv greedy lo hi p s c rest c' :
  Matches (Rep greedy lo hi p) s c rest c' ->
  c' = c /\ exists w, s = w +:+ rest /\ all_chars p w = true /\
                      lo <= String.length w /\ within hi (String.length w).
Proof. inversion 1; subst. split; [reflexivity | eauto 6]. Qed.

Lemma Matches_Group_inv n r s c rest c' :
  Matches (Group n r) s c rest c' ->
  exists c0, Matches r s c rest c0 /\ c' = (n, consumed s rest) :: c0.
Proof. inversion 1; subst. eauto. Qed.

Lemma Matches_Ahead_inv r s c rest c' :
  Matches (Ahead r) s c rest c' -> rest = s /\ exists s', Matches r s c s' c'.
Proof. inversion 1; subst. eauto. Qed.

Lemma Matches_Dollar_inv s c rest c' :
  Matches Dollar s c rest c' -> rest = s /\ c' = c /\ at_end s = true.
Proof. inversion 1; subst. auto. Qed.

Lemma is_char_true (c a : ascii) : is_char c a = true <-> a = c.
Proof.
  unfold is_char. rewrite Nat.eqb_eq. split; [|now intros ->].
  intros H. rewrite <- (ascii_nat_embedding a), <- (ascii_nat_embedding c).
  now rewrite H.
Qed.

(** A literal matches itself and nothing else. *)
Lemma Matches_Lit (t s : string) (c : captures) (rest : string) (c' : captures) :
  Matches (Lit t) s c rest c' <-> s = t +:+ rest /\ c' = c.
Proof.
  revert s c. induction t as [|a t IH]; intros s c.
  - simpl. split.
    + inversion 1; subst. now split.
    + intros [-> ->]. rewrite string_app_nil_l. constructor.
  - destruct t as [|b t].
    + simpl. split.
      * intros (-> & x & -> & ->%is_char_true)%Matches_Chr_inv. now split.
      * intros [-> ->]. rewrite string_app_cons, string_app_nil_l.
        constructor. now apply is_char_true.
    + change (Lit (String a (String b t)))
        with (Seq (Chr (is_char a)) (Lit (String b t))).
      split.
      * intros (s1 & c1 & H1 & H2)%Matches_Seq_inv.
        apply Matches_Chr_inv in H1 as (-> & x & -> & ->%is_char_true).
        apply IH in H2 as [-> ->]. now split.
      * intros [-> ->]. rewrite string_app_cons.
        econstructor; [constructor; now apply is_char_true|].
        apply IH. now split.
Qed.

(** *** The two patterns of extract_module_info *)

Lemma at_end_stops (s : string) :
  at_end s = true <-> s = "" \/ s = String newline "".
Proof.
  destruct s as [|a [|b s]]; simpl.
  - split; [now left | reflexivity].
  - rewrite is_char_true. split; [intros ->; now right | now intros [?|[= ->]]].
  - split; [discriminate | now intros [?|?]].
Qed.

Lemma Matches_code_pattern (s : string) (c : captures) (rest : string) (c' : captures) :
  Matches code_pattern s c rest c' <->
  c' = c /\ exists code, s = code +:+ rest /\ module_code_shape code.
Proof.
  unfold code_pattern. split.
  - intros (s1 & c1 & H1 & H2)%Matches_Seq_inv.
    apply Matches_Rep_inv in H1 as (-> & l & -> & Hl & Hl2 & Hl2').
    apply Matches_Rep_inv in H2 as (-> & d & -> & Hd & Hd4 & Hd4').
    simpl in Hl2', Hd4'. split; [reflexivity|].
    exists (l +:+ d). split; [now rewrite string_app_assoc|].
    exists l, d. repeat split; try assumption; lia.
  - intros (-> & code & -> & l & d & -> & Hl2 & Hl & Hd4 & Hd).
    rewrite string_app_assoc.
    econstructor; constructor; try assumption; simpl; lia.
Qed.

Lemma Matches_stop (s : string) (c : captures) (rest : string) (c' : captures) :
  Matches (Alt (Chr (is_char newline)) (Alt (Lit "Intake") Dollar)) s c rest c' ->
  stops s /\ c' = c.
Proof.
  intros [H|[H|H]%Matches_Alt_inv]%Matches_Alt_inv.
  - apply Matches_Chr_inv in H as (-> & a & -> & ->%is_char_true).
    split; [left; eauto | reflexivity].
  - apply Matches_Lit in H as [-> ->]. split; [right; left; eauto | reflexivity].
  - apply Matches_Dollar_inv in H as (_ & -> & [->| ->]%at_end_stops).
    + split; [right; now right | reflexivity].
    + split; [left; eauto | reflexivity].
Qed.

Lemma stops_Matches (s : string) (c : captures) :
  stops s ->
  exists rest, Matches (Alt (Chr (is_char newline)) (Alt (Lit "Intake") Dollar)) s c rest c.
Proof.
  intros [[t ->]|[[t ->]| ->]].
  - exists t. apply M_AltL. constructor. now apply is_char_true.
  - exists t. apply M_AltR, M_AltL. now apply Matches_Lit.
  - exists "". apply M_AltR, M_AltR. now constructor.
Qed.

Lemma M_Group_text n r w rest c c0 :
  Matches r (w +:+ rest) c rest c0 ->
  Matches (Group n r) (w +:+ rest) c rest ((n, w) :: c0).
Proof.
  intros H. apply (M_Group n) in H. now rewrite consumed_app in H.
Qed.

(** What a match of [module_pattern] is made of. *)
Lemma Matches_module_pattern (s : string) (rest : string) (c' : captures) :
  Matches module_pattern s [] rest c' <->
  exists code ws1 ws2 name,
    s = code +:+ ws1 +:+ "-" +:+ ws2 +:+ name +:+ rest /\
    module_code_shape code /\
    all_chars is_space ws1 = true /\ all_chars is_space ws2 = true /\
    name <> "" /\ all_chars name_char name = true /\ stops rest /\
    c' = [(2, name); (1, code)].
Proof.
  unfold module_pattern. split.
  - intros (s1 & c1 & H1 & H)%Matches_Seq_inv.
    apply Matches_Group_inv in H1 as (c0 & H1 & ->).
    apply (Matches_code_pattern s [] s1 c0) in H1 as (-> & code & -> & Hcode).
    rewrite consumed_app in H.
    apply Matches_Seq_inv in H as (s2 & c2 & H2 & H).
    apply Matches_Rep_inv in H2 as (-> & ws1 & -> & Hws1 & _).
    apply Matches_Seq_inv in H as (s3 & c3 & H3 & H).
    apply Matches_Chr_inv in H3 as (-> & a & -> & ->%is_char_true).
    apply Matches_Seq_inv in H as (s4 & c4 & H4 & H).
    apply Matches_Rep_inv in H4 as (-> & ws2 & -> & Hws2 & _).
    apply Matches_Seq_inv in H as (s5 & c5 & H5 & H).
    apply Matches_Group_inv in H5 as (c6 & H5 & ->).
    apply Matches_Rep_inv in H5 as (-> & name & -> & Hname & Hlen & _).
    rewrite consumed_app in H.
    apply Matches_Ahead_inv in H as (-> & s' & H).
    apply Matches_stop in H as [Hstop ->].
    exists code, ws1, ws2, name. repeat split; try assumption.
    intros ->. simpl in Hlen. lia.
  - intros (code & ws1 & ws2 & name & -> & Hcode & Hws1 & Hws2 & Hne & Hname & Hstop & ->).
    destruct (stops_Matches rest [(2, name); (1, code)] Hstop) as [s' Hs'].
    econstructor.
    { apply M_Group_text.
      apply Matches_code_pattern. split; [reflexivity|]. eauto. }
    econstructor; [constructor; [exact Hws1 | lia | exact I]|].
    change ("-" +:+ ws2 +:+ name +:+ rest) with (String "-" (ws2 +:+ name +:+ rest)).
    econstructor; [constructor; now apply is_char_true|].
    econstructor; [constructor; [exact Hws2 | lia | exact I]|].
    econstructor.
    { apply M_Group_text.
      constructor; [exact Hname | | exact I].
      destruct name; [contradiction | simpl; lia]. }
    econstructor. exact Hs'.
Qed.

(** *** A module code has nothing to strip *)

Lemma in_range_spec (lo hi : nat) (a : ascii) :
  in_range lo hi a = true <-> lo <= nat_of_ascii a /\ nat_of_ascii a <= hi.
Proof. unfold in_range. now rewrite andb_true_iff, !Nat.leb_le. Qed.

Lemma not_space (a : ascii) :
  33 <= nat_of_ascii a -> nat_of_ascii a <= 127 -> is_space a = false.
Proof.
  intros Hlo Hhi. unfold is_space, is_char.
  change (nat_of_ascii (ascii_of_nat 133)) with 133.
  change (nat_of_ascii (ascii_of_nat 160)) with 160.
  repeat (apply orb_false_intro).
  - apply not_true_is_false. rewrite in_range_spec. lia.
  - apply not_true_is_false. rewrite in_range_spec. lia.
  - apply Nat.eqb_neq. lia.
  - apply Nat.eqb_neq. lia.
Qed.

Lemma upper_not_space (a : ascii) : is_upper a = true -> is_space a = false.
Proof. intros [H1 H2]%in_range_spec. apply not_space; lia. Qed.

Lemma digit_not_space (a : ascii) : is_digit a = true -> is_space a = false.
Proof. intros [H1 H2]%in_range_spec. apply not_space; lia. Qed.

Lemma strip_module_code (code : string) : module_code_shape code -> strip code = code.
Proof.
  intros (l & d & -> & Hl2 & Hl & Hd4 & Hd).
  destruct l as [|a [|b [|? ?]]]; try discriminate Hl2.
  destruct d as [|d1 [|d2 [|d3 [|d4 [|? ?]]]]]; try discriminate Hd4.
  simpl in Hl, Hd.
  repeat match goal with H : _ && _ = true |- _ => apply andb_prop in H as [? H] end.
  unfold strip. rewrite !string_app_cons, string_app_nil_l.
  cbn [lstrip]. rewrite (upper_not_space a) by assumption.
  cbn [rstrip]. now rewrite (digit_not_space d4) by assumption.
Qed.

(** *** extract_module_info *)

Lemma search_module_pattern_Some (text : string) (m : Match) :
  re_search module_pattern text = Some m ->
  exists pre code ws1 ws2 name rest,
    header text pre code ws1 ws2 name rest /\
    groups m = [(2, name); (1, code)].
Proof.
  intros (pre & s & -> & Hm)%re_search_sound.
  apply re_match_sound in Hm as (rest & c & HM & ->).
  apply Matches_module_pattern in HM
    as (code & ws1 & ws2 & name & -> & Hcode & H1 & H2 & Hne & Hname & Hstop & ->).
  exists pre, code, ws1, ws2, name, rest. split; [|reflexivity].
  repeat split; assumption.
Qed.


Lemma search_code_pattern_Some (text : string) (m : Match) :
  re_search code_pattern text = Some m ->
  exists pre post,
    text = pre +:+ group0 m +:+ post /\ module_code_shape (group0 m).
Proof.
  intros (pre & s & -> & Hm)%re_search_sound.
  apply re_match_sound in Hm as (rest & c & HM & ->).
  apply Matches_code_pattern in HM as (-> & code & -> & Hcode).
  cbn [group0]. rewrite consumed_app. now exists pre, rest.
Qed.


(** *** The order in which the matcher tries *)
















(** ** parse_grades *)

(** C7. The line ["200145A AB"] gives the grade ["A"], not ["AB"]: the
    alternative [[A-Z][+-]?] takes the letter A and the match ends there, so
    the symbol ["AB"] of [GRADE_POINTS] is never produced; and the line
    ["200145A E"] gives the grade ["E"], which [GRADE_POINTS] does not hold. *)
Theorem parse_grades_absent_symbol :
  parse_grades "200145A AB" = [mkGrade "200145A" "A"] /\
  GRADE_POINTS !! "AB" = Some 0%float /\
  parse_grades "200145A E" = [mkGrade "200145A" "E"] /\
  GRADE_POINTS !! "E" = None.
Proof.
  split; [vm_compute; reflexivity|].
  split; [reflexivity|].
  split; [vm_compute; reflexivity | reflexivity].
Qed.

(** Every match [re.findall] returns is a match at some position. *)
Lemma findall_from_sound (r : regex) (s : string) (skip : nat) (m : Match) :
  In m (findall_from r skip s) ->
  exists pre s', s = pre +:+ s' /\ re_match r s' = Some m.
Proof.
  revert skip. induction s as [|a s IH]; intros skip Hin.
  - destruct skip; simpl in Hin; [|contradiction].
    destruct (re_match r "") as [m0|] eqn:E; [|contradiction].
    destruct Hin as [<-|[]]. now exists "", "".
  - destruct skip as [|k]; simpl in Hin.
    + destruct (re_match r (String a s)) as [m0|] eqn:E.
      * destruct Hin as [<-|Hin]; [now exists "", (String a s)|].
        destruct (IH _ Hin) as (pre & s' & -> & Hm). now exists (String a pre), s'.
      * destruct (IH _ Hin) as (pre & s' & -> & Hm). now exists (String a pre), s'.
    + destruct (IH _ Hin) as (pre & s' & -> & Hm). now exists (String a pre), s'.
Qed.

Lemma all_chars_length_1 (p : ascii -> bool) (w : string) :
  all_chars p w = true -> String.length w <= 1 ->
  w = "" \/ exists a, w = String a "" /\ p a = true.
Proof.
  destruct w as [|a [|b w]]; simpl; intros H Hl; try lia.
  - now left.
  - right. exists a. rewrite andb_true_r in H. now split.
Qed.

(** What a match of [grade_pattern] is made of. *)
Lemma Matches_grade_pattern (s : string) (rest : string) (c' : captures) :
  Matches grade_pattern s [] rest c' ->
  exists id g, student_id_shape id /\ emitted_grade g /\ c' = [(2, g); (1, id)].
Proof.
  unfold grade_pattern.
  intros (s1 & c1 & H1 & H)%Matches_Seq_inv.
  apply Matches_Group_inv in H1 as (c0 & H1 & ->).
  apply Matches_Seq_inv in H1 as (s0 & c00 & Hd & Hl).
  apply Matches_Rep_inv in Hd as (-> & digits & -> & Hdig & Hlo & Hhi).
  apply Matches_Chr_inv in Hl as (-> & letter & -> & Hup).
  simpl in Hhi.
  replace (digits +:+ String letter s1) with ((digits +:+ String letter "") +:+ s1) in H
    by now rewrite string_app_assoc.
  rewrite consumed_app in H.
  apply Matches_Seq_inv in H as (s2 & c2 & Hws & H).
  apply Matches_Rep_inv in Hws as (-> & ws & -> & _).
  apply Matches_Group_inv in H as (c3 & H & ->).
  exists (digits +:+ String letter ""), (consumed s2 rest).
  split; [exists digits, letter; repeat split; try assumption; lia|].
  assert (Hg : emitted_grade (consumed s2 rest) /\ c3 = [(1, digits +:+ String letter "")]).
  { apply Matches_Alt_inv in H as [H|H].
    { apply Matches_Lit in H as [-> ->]. rewrite consumed_app. split; [now left | reflexivity]. }
    apply Matches_Alt_inv in H as [H|H].
    { apply Matches_Lit in H as [-> ->]. rewrite consumed_app.
      split; [right; now left | reflexivity]. }
    apply Matches_Alt_inv in H as [H|H].
    { apply Matches_Seq_inv in H as (s3 & c4 & Hl & Hs).
      apply Matches_Chr_inv in Hl as (-> & l & -> & Hl).
      apply Matches_Rep_inv in Hs as (-> & sign & -> & Hsign & _ & Hmax).
      simpl in Hmax.
      change (String l (sign +:+ rest)) with (String l sign +:+ rest).
      rewrite consumed_app. split; [|reflexivity].
      right. right. exists l, sign. repeat split; try assumption.
      destruct (all_chars_length_1 _ _ Hsign Hmax) as [->|(x & -> & Hx)]; [now left|].
      apply orb_prop in Hx as [->%is_char_true | ->%is_char_true];
        [right; now left | right; now right]. }
    apply Matches_Alt_inv in H as [H|H];
      apply Matches_Chr_inv in H as (-> & l & -> & ->%is_char_true);
      change (String ?x rest) with (String x "" +:+ rest);
      rewrite consumed_app; (split; [|reflexivity]);
      right; right; eexists _, ""; repeat split; now left. }
  destruct Hg as [Hg ->]. now split.
Qed.

(** [sanitize_string] removes nothing from an id or a grade. *)
Lemma remove_chars_none (p : ascii -> bool) (s : string) :
  all_chars (fun a => negb (p a)) s = true -> remove_chars p s = s.
Proof.
  induction s as [|a s IH]; simpl; [reflexivity|].
  intros [Ha Hs]%andb_prop. apply negb_true_iff in Ha. rewrite Ha.
  now rewrite IH.
Qed.

Lemma is_dangerous_code (a : ascii) :
  is_dangerous a = true ->
  In (nat_of_ascii a) [60; 62; 123; 125; 124; 92; 94; 126; 91; 93; 96].
Proof.
  unfold is_dangerous. rewrite existsb_exists.
  intros (c & Hc & ->%is_char_true).
  simpl in Hc. simpl.
  repeat (destruct Hc as [<-|Hc]; [simpl; tauto|]). contradiction.
Qed.

Lemma digit_not_dangerous (a : ascii) : is_digit a = true -> is_dangerous a = false.
Proof.
  intros [H1 H2]%in_range_spec. destruct (is_dangerous a) eqn:E; [|reflexivity].
  apply is_dangerous_code in E. simpl in E. lia.
Qed.

Lemma upper_not_dangerous (a : ascii) : is_upper a = true -> is_dangerous a = false.
Proof.
  intros [H1 H2]%in_range_spec. destruct (is_dangerous a) eqn:E; [|reflexivity].
  apply is_dangerous_code in E. simpl in E. lia.
Qed.

Lemma all_chars_app (p : ascii -> bool) (a b : string) :
  all_chars p (a +:+ b) = all_chars p a && all_chars p b.
Proof.
  induction a as [|x a IH]; [reflexivity|].
  rewrite string_app_cons. simpl. now rewrite IH, andb_assoc.
Qed.

Lemma all_chars_weaken (p q : ascii -> bool) (s : string) :
  (forall a, p a = true -> q a = true) -> all_chars p s = true -> all_chars q s = true.
Proof.
  intros Hpq. induction s as [|a s IH]; simpl; [reflexivity|].
  intros [Ha Hs]%andb_prop. now rewrite (Hpq a Ha), IH.
Qed.

Lemma sanitize_student_id (id : string) :
  student_id_shape id -> sanitize_string id = id.
Proof.
  intros (digits & letter & -> & _ & Hd & Hl). apply remove_chars_none.
  rewrite all_chars_app. apply andb_true_intro. split.
  - apply (all_chars_weaken is_digit); [|exact Hd].
    intros a Ha. now rewrite digit_not_dangerous.
  - simpl. now rewrite upper_not_dangerous.
Qed.

Lemma sanitize_grade (g : string) : emitted_grade g -> sanitize_string g = g.
Proof.
  intros [->|[->|(l & sign & -> & Hl & Hsign)]]; try reflexivity.
  unfold sanitize_string. cbn [remove_chars]. rewrite upper_not_dangerous by exact Hl.
  now destruct Hsign as [->|[->| ->]].
Qed.

(** What [parse_grades] does guarantee of a record: an id of six digits and
    an uppercase letter, and a grade that [grade_pattern] can take. *)
Lemma parse_grades_shape (text : string) (r : GradeRecord) :
  In r (parse_grades text) ->
  student_id_shape (Index_No r) /\ emitted_grade (Grade r).
Proof.
  unfold parse_grades, re_findall. intros (m & <- & Hm)%in_map_iff.
  apply findall_from_sound in Hm as (pre & s & _ & Hm).
  apply re_match_sound in Hm as (rest & c & HM & ->).
  apply Matches_grade_pattern in HM as (id & g & Hid & Hg & ->).
  cbn [groups group group_text Nat.eqb Index_No Grade].
  now rewrite sanitize_student_id, sanitize_grade.
Qed.

(** ** process_pdf and the "Add This Result" button *)

Section PdfProperties.

Variable extract_text_from_pdf_bytes : list byte -> string.

(** C9. When the text extracted from a document is empty, or holds no grade
    record, [process_pdf] returns no grades frame, and the handler of the
    button leaves the session as it was, roster included, without reaching
    the merge. *)
Theorem unparseable_document (pdf_bytes : list byte) (filename : string)
    (st : Session) (new_weight : float) :
  extract_text_from_pdf_bytes pdf_bytes = ""
  \/ parse_grades (extract_text_from_pdf_bytes pdf_bytes) = [] ->
  fst (fst (process_pdf extract_text_from_pdf_bytes pdf_bytes filename)) = None /\
  fst (add_result extract_text_from_pdf_bytes st (Some pdf_bytes) filename new_weight)
  = st /\
  reached_merge
    (snd (add_result extract_text_from_pdf_bytes st (Some pdf_bytes) filename new_weight))
  = false.
Proof.
  intros H.
  assert (Hnone : fst (fst (process_pdf extract_text_from_pdf_bytes pdf_bytes filename))
                  = None).
  { unfold process_pdf. destruct H as [-> | H]; [reflexivity|].
    destruct (string_eqb _ ""); [reflexivity|].
    destruct (extract_module_info _) as [code name]. now rewrite H. }
  split; [exact Hnone|].
  unfold add_result. destruct pdf_bytes as [|b bs]; [now split|].
  destruct (process_pdf extract_text_from_pdf_bytes (b :: bs) filename)
    as [[grades_df code] name].
  simpl in Hnone. subst grades_df. now split.
Qed.

End PdfProperties.

Lemma unparseable_document_witness :
  fst (add_result (fun _ => "no grade in this text") empty_session
         (Some [x25; x50; x44; x46]) "result.pdf" 3.0%float)
  = empty_session.
Proof.
  apply (unparseable_document (fun _ => "no grade in this text")
           [x25; x50; x44; x46] "result.pdf" empty_session 3.0%float).
  right. vm_compute. reflexivity.
Defined.

(** ** The module code of a grade column the merge has made *)

Lemma prefix_other_first (a : ascii) (s : string) :
  is_char "_" a = false -> String.prefix "_Grade" (String a s) = false.
Proof.
  intros Ha.
  change (String.prefix "_Grade" (String a s))
    with (if ascii_dec "_" a then String.prefix "Grade" s else false).
  destruct (ascii_dec "_" a) as [<-|_]; [|reflexivity].
  discriminate Ha.
Qed.

(** For a code without underscore, [col.replace('_Grade', '')] strips the
    suffix of the code's grade column. *)
Lemma module_code_of_grade_column (code : string) :
  all_chars (fun a => negb (is_char "_" a)) code = true ->
  module_code_of (code +:+ "_Grade") = code.
Proof.
  unfold module_code_of, str_replace. induction code as [|a code IH]; [reflexivity|].
  cbn [all_chars]. intros [Ha Hcode]%andb_prop. apply negb_true_iff in Ha.
  rewrite string_app_cons. cbn [replace_from].
  rewrite (prefix_other_first a _ Ha). now rewrite IH.
Qed.

(** ** The models of the library functions on inputs run through CPython *)

Example py_round_half_even :
  py_round 0.125 2 = 0.12%float /\ py_round 2.5 0 = 2.0%float.
Proof. split; vm_compute; reflexivity. Qed.

Example py_round_binary_value :
  py_round 2.675 2 = 2.67%float /\ py_round 3.1375 3 = 3.138%float /\
  py_round 0.0005 3 = 0.001%float /\ py_round 0.0015 3 = 0.002%float.
Proof. repeat split; vm_compute; reflexivity. Qed.

Example py_round_keeps_sign_and_size :
  py_round (-0.0001) 3 = (-0.0)%float /\ py_round 1e300 3 = 1e300%float /\
  py_round 1234567890123.4567 3 = 1234567890123.457%float /\
  py_round infinity 3 = infinity.
Proof. repeat split; vm_compute; reflexivity. Qed.

Example search_backtracks_into_spaces :
  extract_module_info ("Results CS2023 - " +:+ String newline "") = ("CS2023", "") /\
  extract_module_info "AB1234-  Intake" = ("AB1234", "Intake").
Proof. split; vm_compute; reflexivity. Qed.

Example search_skips_a_failed_header :
  extract_module_info
    ("x CS2023 - Data & Algo" +:+ String newline "AB1111 - Maths Intake 21")
  = ("AB1111", "Maths").
Proof. vm_compute. reflexivity. Qed.

Example findall_left_to_right :
  parse_grades
    ("1234567A  I-we 200145A" +:+ String newline "B+200146B F- 200147C I-cx")
  = [mkGrade "234567A" "I-we"; mkGrade "200145A" "B+"; mkGrade "200146B" "F-";
     mkGrade "200147C" "I-"].
Proof. vm_compute. reflexivity. Qed.

Example replace_every_occurrence :
  str_replace "A_Grade_GradeX_Grad_Grade" "_Grade" "" = "AX_Grad".
Proof. vm_compute. reflexivity. Qed.

(** * Further properties of the code *)

(** ** What every successful merge has done *)

(** X1. A module that already has a grade column in the roster is never
    merged over it: whatever the records, [merge_grades_with_department]
    raises, and returns no roster. *)
Theorem merge_existing_column_raises (dept_df : DataFrame) (grades : list GradeRecord)
    (module_code : string) :
  has_column (module_code +:+ "_Grade") (columns dept_df) = true ->
  exists e, merge_grades_with_department dept_df grades module_code = Raise e.
Proof.
  intros Hgc.
  destruct (merge_grades_with_department dept_df grades module_code) as [merged|e] eqn:E;
    [|now exists e].
  apply merge_Ok_inv in E as [E _]. congruence.
Qed.

Lemma merge_existing_column_raises_witness :
  exists e,
    merge_grades_with_department
      (mkFrame ["Index"; "CS2023_Grade"] [[Str "200145A"; Str "B"]])
      one_record "CS2023" = Raise e.
Proof.
  apply (merge_existing_column_raises
           (mkFrame ["Index"; "CS2023_Grade"] [[Str "200145A"; Str "B"]])
           one_record "CS2023").
  reflexivity.
Defined.

(** X2. After a merge that returns, [get_existing_modules] lists the modules
    it listed before and the merged module after them, for every module code
    without an underscore. *)
Theorem merge_adds_module (dept_df : DataFrame) (grades : list GradeRecord)
    (module_code : string) (merged : DataFrame) :
  all_chars (fun a => negb (is_char "_" a)) module_code = true ->
  merge_grades_with_department dept_df grades module_code = Ok merged ->
  get_existing_modules merged = get_existing_modules dept_df ++ [module_code].
Proof.
  intros Hcode (_ & Hgc & _)%merge_Ok_inv.
  unfold get_existing_modules. rewrite Hgc, map_app. cbn [map].
  pose proof (module_code_of_grade_column module_code Hcode) as E.
  unfold module_code_of in E. now rewrite E.
Qed.

Lemma merge_adds_module_witness :
  get_existing_modules
    (mkFrame ["Index"; "MA1014_Grade"; "CS2023_Grade"]
             [[Str "200145A"; Str "A"; Str "B+"]; [Str "200146B"; Str "C"; Str "N/A"]])
  = get_existing_modules
      (mkFrame ["Index"; "MA1014_Grade"] [[Str "200145A"; Str "A"]; [Str "200146B"; Str "C"]])
    ++ ["CS2023"].
Proof.
  apply (merge_adds_module
           (mkFrame ["Index"; "MA1014_Grade"]
                    [[Str "200145A"; Str "A"]; [Str "200146B"; Str "C"]])
           one_record "CS2023"); reflexivity.
Defined.

(** X3. A merge that returns never loses a student: whatever the roster and
    the records, the merged roster has at least as many rows as the input. *)
Theorem merge_never_drops_rows (dept_df : DataFrame) (grades : list GradeRecord)
    (module_code : string) (merged : DataFrame) :
  merge_grades_with_department dept_df grades module_code = Ok merged ->
  length (rows dept_df) <= length (rows merged).
Proof.
  intros H. apply merge_Ok_inv in H as (_ & _ & Hrows). exact Hrows.
Qed.

Lemma merge_never_drops_rows_witness :
  length (rows roster_one) <=
  length (rows (mkFrame ["Index"; "CS2023_Grade"]
                        [[Str "200145A"; Str "A"]; [Str "200145A"; Str "B"]])).
Proof.
  apply (merge_never_drops_rows roster_one twice_listed "CS2023"). reflexivity.
Defined.

(** Dropping the column a merge has appended gives the roster back. *)
Lemma drop_appended_column (cols : list string) (rws : list (list cell)) (gc : string)
    (f : list cell -> cell) :
  gc ∉ cols -> Forall (fun row => length row = length cols) rws ->
  drop_column gc (mkFrame (cols ++ [gc]) (map (fun row => row ++ [f row]) rws))
  = mkFrame cols rws.
Proof.
  intros Hgc Hwf. unfold drop_column. cbn [columns rows]. f_equal.
  - rewrite <- (app_nil_r cols) at 3.
    rewrite drop_cells_app by (assumption || reflexivity).
    cbn [drop_cells]. now rewrite string_eqb_refl.
  - rewrite map_map. rewrite <- (map_id rws) at 2.
    apply map_ext_in. intros row Hrow. rewrite List.Forall_forall in Hwf.
    rewrite drop_cells_app by (try assumption; now apply Hwf).
    cbn [drop_cells]. rewrite string_eqb_refl. apply app_nil_r.
Qed.

(** X4. Dropping the module's column from the merged roster gives the input
    roster back, when the roster was ready for the module and no student id
    occurs twice in the records: this is the step the handler takes before
    it merges a module again. *)
Theorem drop_after_merge (dept_df : DataFrame) (grades : list GradeRecord)
    (module_code : string) :
  merge_ready dept_df module_code = true -> grades <> [] ->
  NoDup (map Index_No grades) ->
  exists merged,
    merge_grades_with_department dept_df grades module_code = Ok merged /\
    drop_column (module_code +:+ "_Grade") merged = dept_df.
Proof.
  intros Hready Hne Hnd.
  destruct (merge_unique_result dept_df grades module_code Hready Hne Hnd)
    as (ki & _ & Hm).
  eexists. split; [exact Hm|].
  rewrite drop_appended_column.
  - now destruct dept_df.
  - now apply merge_ready_no_grade.
  - now apply (merge_ready_well_formed dept_df module_code).
Qed.

Lemma drop_after_merge_witness :
  exists merged,
    merge_grades_with_department roster_two one_record "CS2023" = Ok merged /\
    drop_column "CS2023_Grade" merged = roster_two.
Proof.
  apply (drop_after_merge roster_two one_record "CS2023").
  - reflexivity.
  - discriminate.
  - repeat constructor. apply not_elem_of_nil.
Defined.

(** ** More on calculate_sgpa_and_rank *)

(** Some value of a list without nan has no value above it. *)
Lemma greater_top (xs : list float) (x : float) :
  x ∈ xs -> exists t, t ∈ xs /\ greater t xs = 0.
Proof.
  remember (greater x xs) as n eqn:En. revert x En.
  induction n as [n IH] using lt_wf_ind. intros x En Hx.
  destruct n as [|n]; [now exists x|].
  assert (Hex : exists y, y ∈ xs /\ PrimFloat.ltb x y = true).
  { unfold greater in En.
    destruct (filter (fun y => PrimFloat.ltb x y = true) xs) as [|y l] eqn:E;
      [discriminate|].
    assert (Hy : y ∈ filter (fun y => PrimFloat.ltb x y = true) xs)
      by (rewrite E; apply list_elem_of_here).
    apply list_elem_of_filter in Hy as [Hlt Hy]. now exists y. }
  destruct Hex as (y & Hy & Hlt).
  pose proof (greater_ltb y x xs Hlt Hy) as Hless.
  apply (IH (greater y xs)) with (x := y); [lia | reflexivity | exact Hy].
Qed.

Lemma greater_below_length (xs : list float) (x : float) :
  x ∈ xs -> greater x xs < length xs.
Proof.
  intros Hx. unfold greater.
  rewrite <- (filter_all (fun _ : float => true) xs) at 2 by reflexivity.
  apply (filter_length_lt _ _ xs x); try reflexivity; try assumption.
  apply float_ltb_irrefl.
Qed.

Lemma Sorted_head_le (r : Z) (rs : list Z) :
  Sorted Z.le (r :: rs) -> forall x, In x rs -> (r <= x)%Z.
Proof.
  intros H%Sorted_StronglySorted; [|intros a b c; apply Z.le_trans].
  apply StronglySorted_inv in H as [_ H]. rewrite List.Forall_forall in H. exact H.
Qed.

Section RankingExtras.

Variable argsort : list Z -> list nat.

(** X5. Ranking a roster leaves the list of its modules as it was: the two
    columns [calculate_sgpa_and_rank] writes are no grade columns, so
    [get_existing_modules] finds the same modules in the ranked roster. *)
Theorem ranking_keeps_modules (df : DataFrame) (weights : gmap string float)
    (out : DataFrame) :
  calculate_sgpa_and_rank argsort df weights = Ok out ->
  get_existing_modules out = get_existing_modules df.
Proof.
  intros H. destruct (calculate_Ok argsort _ _ _ H) as [Hamb Hnan].
  rewrite (calculate_total argsort df weights Hamb Hnan) in H. injection H as <-.
  unfold get_existing_modules. cbn [columns]. now rewrite grade_columns_ranked.
Qed.

(** X6. The ranking reads the weights of the modules of the roster and no
    other: two weight tables that agree on the module code of every grade
    column give the same result, an exception included. *)
Theorem ranking_reads_roster_weights (df : DataFrame) (w1 w2 : gmap string float) :
  (forall col, col ∈ grade_columns_of (columns df) ->
     w1 !! str_replace col "_Grade" "" = w2 !! str_replace col "_Grade" "") ->
  calculate_sgpa_and_rank argsort df w1 = calculate_sgpa_and_rank argsort df w2.
Proof.
  intros Hagree. unfold calculate_sgpa_and_rank.
  assert (E : map (calc_student_sgpa w1 (columns df)) (rows df)
              = map (calc_student_sgpa w2 (columns df)) (rows df)).
  { apply map_ext. intros row. unfold calc_student_sgpa.
    rewrite (fold_left_ext_in (sgpa_step w1 (columns df) row)
                              (sgpa_step w2 (columns df) row)); [reflexivity|].
    intros col Hcol acc. unfold sgpa_step. now rewrite (Hagree col Hcol). }
  now rewrite E.
Qed.

Hypothesis argsort_permutes :
  forall keys, Permutation (argsort keys) (seq 0 (length keys)).

(** X7. When no row of a well-formed roster has a countable grade (no cell
    of a grade column is a grade symbol of a weighted module), the total of
    the credits is zero for every student and the division is never made:
    every SGPA is 0.0 and every rank is 1. *)
Theorem nothing_countable_all_zero (df : DataFrame) (weights : gmap string float) :
  well_formed_b df = true ->
  ambiguous_labels (columns df) = false ->
  (forall row, row ∈ rows df -> countable_modules weights (columns df) row = []) ->
  exists out,
    calculate_sgpa_and_rank argsort df weights = Ok out /\
    column_values out "SGPA" = Some (map (fun _ => Flt 0.0%float) (rows df)) /\
    column_values out "Rank" = Some (map (fun _ => Int 1) (rows df)).
Proof.
  intros Hwf Hamb Hnone. apply well_formed_b_true in Hwf.
  assert (Hzero : forall rws, (forall row, row ∈ rws -> row ∈ rows df) ->
            sgpa_column weights (columns df) rws = map (fun _ => 0%float) rws).
  { intros rws Hsub. unfold sgpa_column. apply map_ext_in. intros row Hrow.
    rewrite calc_student_sgpa_spec. apply sgpa_of_nothing, Hnone, Hsub.
    now apply list_elem_of_In. }
  assert (Hnan : no_nan (sgpa_column weights (columns df) (rows df))).
  { rewrite Hzero by auto. unfold no_nan. rewrite List.Forall_forall.
    now intros x (row & <- & _)%in_map_iff. }
  pose proof (calculate_total argsort df weights Hamb Hnan) as Hcalc.
  pose proof (calculate_result argsort argsort_permutes df weights _ Hcalc) as Hout.
  rewrite Hout in Hcalc. eexists. split; [exact Hcalc|].
  destruct (column_values_ranked weights (columns df) (sorted_rows argsort weights df)
              (sorted_rows_well_formed argsort argsort_permutes weights df Hwf)) as [HS HR].
  pose proof (sorted_rows_Permutation argsort argsort_permutes weights df) as Hperm.
  assert (Hsub : forall row, row ∈ sorted_rows argsort weights df -> row ∈ rows df).
  { intros row Hrow. now rewrite <- Hperm. }
  assert (Hlen : length (sorted_rows argsort weights df) = length (rows df))
    by now apply Permutation_length.
  assert (Hconst : forall (A B : Type) (b : B) (l l' : list A),
            length l = length l' -> map (fun _ => b) l = map (fun _ => b) l').
  { intros A B b l. induction l as [|a l IH]; intros [|a' l'] Hl; simpl in *;
      try discriminate; [reflexivity|]. f_equal. apply IH. lia. }
  rewrite HS, HR. unfold rank_column. rewrite (Hzero _ Hsub). split; f_equal.
  - rewrite map_map. now apply Hconst.
  - rewrite !map_map. rewrite <- (Hconst _ _ (Int 1) _ _ Hlen).
    apply map_ext. intros _. f_equal. unfold min_rank, greater.
    rewrite filter_none; [reflexivity|].
    intros y (row & -> & _)%list_elem_of_fmap. reflexivity.
Qed.

Hypothesis argsort_sorts :
  forall keys, Sorted Z.le (map (fun i => nth i keys 0%Z) (argsort keys)).

(** X8. In a ranked roster every rank lies between 1 and the number of
    students, and the first row, when there is one, has rank 1. *)
Theorem rank_bounds (df : DataFrame) (weights : gmap string float) (out : DataFrame) :
  well_formed_b df = true ->
  calculate_sgpa_and_rank argsort df weights = Ok out ->
  exists rank,
    column_values out "Rank" = Some (map Int rank) /\
    length rank = length (rows df) /\
    (forall r, In r rank -> (1 <= r <= Z.of_nat (length (rows df)))%Z) /\
    (forall r, nth_error rank 0 = Some r -> r = 1%Z).
Proof.
  intros Hwf Hcalc. apply well_formed_b_true in Hwf.
  destruct (calculate_Ok argsort _ _ _ Hcalc) as [Hamb Hnan].
  pose proof (calculate_result argsort argsort_permutes df weights _ Hcalc) as ->.
  destruct (column_values_ranked weights (columns df) (sorted_rows argsort weights df)
              (sorted_rows_well_formed argsort argsort_permutes weights df Hwf)) as [_ HR].
  pose proof (sorted_rows_Permutation argsort argsort_permutes weights df) as Hperm.
  assert (Hlen : length (sorted_rows argsort weights df) = length (rows df))
    by now apply Permutation_length.
  set (sgpa := sgpa_column weights (columns df) (sorted_rows argsort weights df)).
  assert (Hn : length sgpa = length (rows df))
    by (unfold sgpa, sgpa_column; now rewrite length_map).
  exists (rank_column weights (columns df) (sorted_rows argsort weights df)).
  split; [exact HR|]. fold sgpa. unfold rank_column. fold sgpa.
  split; [now rewrite length_map|]. split.
  - intros r (s & <- & Hs)%in_map_iff. apply list_elem_of_In in Hs.
    pose proof (greater_below_length sgpa s Hs). unfold min_rank. lia.
  - pose proof (rank_column_Sorted argsort argsort_permutes argsort_sorts weights df)
      as Hsorted.
    unfold rank_column in Hsorted. fold sgpa in Hsorted.
    destruct sgpa as [|s0 sgpa'] eqn:Es; [discriminate|].
    cbn [map nth_error]. intros r [= <-].
    destruct (greater_top (s0 :: sgpa') s0 (list_elem_of_here _ _)) as (t & Ht & Htop).
    assert (H1 : min_rank t (s0 :: sgpa') = 1%Z) by (unfold min_rank; rewrite Htop; lia).
    apply elem_of_cons in Ht as [->|Ht]; [exact H1|].
    cbn [map] in Hsorted.
    pose proof (Sorted_head_le _ _ Hsorted (min_rank t (s0 :: sgpa'))) as Hle.
    assert (Hin : In (min_rank t (s0 :: sgpa'))
                     (map (fun s => min_rank s (s0 :: sgpa')) sgpa')).
    { apply in_map_iff. exists t. split; [reflexivity | now apply list_elem_of_In]. }
    specialize (Hle Hin). unfold min_rank in *. lia.
Qed.

End RankingExtras.

Lemma ranking_keeps_modules_witness :
  get_existing_modules ranked_tie = get_existing_modules roster_tie.
Proof.
  apply (ranking_keeps_modules stable_argsort roster_tie weights_3_2 ranked_tie).
  vm_compute. reflexivity.
Defined.

Lemma ranking_reads_roster_weights_witness :
  calculate_sgpa_and_rank stable_argsort roster_tie weights_3_2
  = calculate_sgpa_and_rank stable_argsort roster_tie (<["CS2023" := 2.0%float]> ∅).
Proof.
  apply (ranking_reads_roster_weights stable_argsort roster_tie weights_3_2
           (<["CS2023" := 2.0%float]> ∅)).
  intros col Hcol. vm_compute in Hcol.
  apply list_elem_of_singleton in Hcol. subst col. reflexivity.
Defined.

Lemma nothing_countable_all_zero_witness :
  exists out,
    calculate_sgpa_and_rank stable_argsort roster_tie ∅ = Ok out /\
    column_values out "SGPA" = Some [Flt 0.0%float; Flt 0.0%float; Flt 0.0%float] /\
    column_values out "Rank" = Some [Int 1; Int 1; Int 1].
Proof.
  apply (nothing_countable_all_zero stable_argsort stable_argsort_permutes roster_tie ∅).
  - reflexivity.
  - reflexivity.
  - intros row Hrow. unfold roster_tie in Hrow. cbn [rows] in Hrow.
    repeat (apply elem_of_cons in Hrow as [->|Hrow]; [reflexivity|]).
    now apply elem_of_nil in Hrow.
Defined.

Lemma rank_bounds_witness :
  exists rank,
    column_values ranked_tie "Rank" = Some (map Int rank) /\
    length rank = 3 /\
    (forall r, In r rank -> (1 <= r <= 3)%Z) /\
    (forall r, nth_error rank 0 = Some r -> r = 1%Z).
Proof.
  apply (rank_bounds stable_argsort stable_argsort_permutes stable_argsort_sorts
           roster_tie weights_3_2 ranked_tie).
  - reflexivity.
  - vm_compute. reflexivity.
Defined.

(** ** Where the records of parse_grades come from *)

(** A match of [grade_pattern] with the text it has consumed. *)
Lemma Matches_grade_pattern_text (s : string) (rest : string) (c' : captures) :
  Matches grade_pattern s [] rest c' ->
  exists id ws g,
    s = id +:+ ws +:+ g +:+ rest /\
    student_id_shape id /\ ws <> "" /\ all_chars is_space ws = true /\
    emitted_grade g /\ c' = [(2, g); (1, id)].
Proof.
  unfold grade_pattern.
  intros (s1 & c1 & H1 & H)%Matches_Seq_inv.
  apply Matches_Group_inv in H1 as (c0 & H1 & ->).
  apply Matches_Seq_inv in H1 as (s0 & c00 & Hd & Hl).
  apply Matches_Rep_inv in Hd as (-> & digits & -> & Hdig & Hlo & Hhi).
  apply Matches_Chr_inv in Hl as (-> & letter & -> & Hup).
  simpl in Hhi.
  replace (digits +:+ String letter s1) with ((digits +:+ String letter "") +:+ s1) in *
    by now rewrite string_app_assoc.
  rewrite consumed_app in H.
  apply Matches_Seq_inv in H as (s2 & c2 & Hws & H).
  apply Matches_Rep_inv in Hws as (-> & ws & -> & Hws & Hwlo & _).
  apply Matches_Group_inv in H as (c3 & H & ->).
  exists (digits +:+ String letter ""), ws, (consumed s2 rest).
  assert (Hg : s2 = consumed s2 rest +:+ rest /\ emitted_grade (consumed s2 rest)
               /\ c3 = [(1, digits +:+ String letter "")]).
  { apply Matches_Alt_inv in H as [H|H].
    { apply Matches_Lit in H as [-> ->]. rewrite consumed_app.
      split; [reflexivity|]. split; [now left | reflexivity]. }
    apply Matches_Alt_inv in H as [H|H].
    { apply Matches_Lit in H as [-> ->]. rewrite consumed_app.
      split; [reflexivity|]. split; [right; now left | reflexivity]. }
    apply Matches_Alt_inv in H as [H|H].
    { apply Matches_Seq_inv in H as (s3 & c4 & Hl & Hs).
      apply Matches_Chr_inv in Hl as (-> & l & -> & Hl).
      apply Matches_Rep_inv in Hs as (-> & sign & -> & Hsign & _ & Hmax).
      simpl in Hmax.
      change (String l (sign +:+ rest)) with (String l sign +:+ rest).
      rewrite consumed_app. split; [reflexivity|]. split; [|reflexivity].
      right. right. exists l, sign. repeat split; try assumption.
      destruct (all_chars_length_1 _ _ Hsign Hmax) as [->|(x & -> & Hx)]; [now left|].
      apply orb_prop in Hx as [->%is_char_true | ->%is_char_true];
        [right; now left | right; now right]. }
    apply Matches_Alt_inv in H as [H|H];
      apply Matches_Chr_inv in H as (-> & l & -> & ->%is_char_true);
      change (String ?x rest) with (String x "" +:+ rest);
      rewrite consumed_app; (split; [reflexivity|]); (split; [|reflexivity]);
      right; right; eexists _, ""; repeat split; now left. }
  destruct Hg as (Hs2 & Hg & ->).
  split; [now rewrite <- Hs2|].
  split; [exists digits, letter; repeat split; try assumption; lia|].
  split; [intros ->; simpl in Hwlo; lia|].
  repeat split; assumption.
Qed.

(** X9. [parse_grades] invents no record: every record it returns stands in
    the text, as a student id of six digits and an uppercase letter, then
    whitespace, then the grade, which is [I-we], [I-ca] or one uppercase
    letter with an optional sign. *)
Theorem parse_grades_sound (text : string) (r : GradeRecord) :
  In r (parse_grades text) ->
  exists pre ws post,
    text = pre +:+ Index_No r +:+ ws +:+ Grade r +:+ post /\
    ws <> "" /\ all_chars is_space ws = true /\
    student_id_shape (Index_No r) /\ emitted_grade (Grade r).
Proof.
  unfold parse_grades, re_findall. intros (m & <- & Hm)%in_map_iff.
  apply findall_from_sound in Hm as (pre & s & -> & Hm).
  apply re_match_sound in Hm as (rest & c & HM & ->).
  apply Matches_grade_pattern_text in HM
    as (id & ws & g & -> & Hid & Hne & Hws & Hg & ->).
  cbn [groups group group_text Nat.eqb Index_No Grade].
  rewrite sanitize_student_id, sanitize_grade by assumption.
  exists pre, ws, rest. repeat split; assumption.
Qed.

Lemma parse_grades_sound_witness :
  exists pre ws post,
    "CS2023 - Data Structures 200145A  B+ 200146B C"
    = pre +:+ "200145A" +:+ ws +:+ "B+" +:+ post /\
    ws <> "" /\ all_chars is_space ws = true /\
    student_id_shape "200145A" /\ emitted_grade "B+".
Proof.
  apply (parse_grades_sound "CS2023 - Data Structures 200145A  B+ 200146B C"
           (mkGrade "200145A" "B+")).
  vm_compute. left. reflexivity.
Defined.

(** [re.findall] finds nothing exactly when [re.search] finds nothing. *)
Lemma findall_nil_search (r : regex) (s : string) :
  findall_from r 0 s = [] <-> re_search r s = None.
Proof.
  induction s as [|a s IH]; simpl.
  - destruct (re_match r ""); split; (discriminate || reflexivity).
  - destruct (re_match r (String a s)); [split; discriminate | exact IH].
Qed.

Lemma emitted_grade_upper (g : string) :
  emitted_grade g -> exists letter t, g = String letter t /\ is_upper letter = true.
Proof.
  intros [->|[->|(l & sign & -> & Hl & _)]]; [now exists "I"%char, "-we" | now exists "I"%char, "-ca"|].
  now exists l, sign.
Qed.

(** A text that gives a record holds one. *)
Lemma parse_grades_has_record (text : string) :
  parse_grades text <> [] -> has_record text.
Proof.
  unfold parse_grades, re_findall. intros Hne.
  destruct (findall_from grade_pattern 0 text) as [|m ms] eqn:E; [contradiction|].
  assert (Hm : In m (findall_from grade_pattern 0 text)) by (rewrite E; now left).
  apply findall_from_sound in Hm as (pre & s & -> & Hm).
  apply re_match_sound in Hm as (rest & c & HM & _).
  apply Matches_grade_pattern_text in HM
    as (id & ws & g & -> & Hid & Hws & Hsp & Hg & _).
  apply emitted_grade_upper in Hg as (letter & t & -> & Hup).
  exists pre, id, ws, letter, (t +:+ rest). now repeat split.
Qed.

(** [parse_grades] returns no record exactly when the text holds no
    student id that is followed by whitespace and an uppercase letter. *)
Lemma parse_grades_nil_iff (text : string) :
  parse_grades text = [] <-> ~ has_record text.
Proof.
  unfold parse_grades, re_findall. split.
  - intros Hnil (pre & id & ws & letter & post & -> & Hid & Hne & Hws & Hup).
    apply map_eq_nil in Hnil. apply findall_nil_search in Hnil.
    apply (re_search_complete grade_pattern pre (id +:+ ws +:+ String letter post));
      [|exact Hnil].
    apply (re_match_complete _ _ [] post [(2, consumed (String letter post) post); (1, consumed (id +:+ ws +:+ String letter post) (ws +:+ String letter post))]).
    destruct Hid as (digits & l & -> & Hlen & Hdig & Hl).
    unfold grade_pattern.
    apply M_Seq with (s1 := ws +:+ String letter post)
                     (c1 := [(1, consumed ((digits +:+ String l "") +:+ ws +:+ String letter post)
                                          (ws +:+ String letter post))]).
    + apply M_Group. rewrite string_app_assoc.
      apply M_Seq with (s1 := String l (ws +:+ String letter post)) (c1 := []).
      * change (String l "" +:+ ws +:+ String letter post)
          with (String l (ws +:+ String letter post)).
        apply M_Rep; [exact Hdig | lia | simpl; lia].
      * now apply M_Chr.
    + apply M_Seq with (s1 := String letter post)
                       (c1 := [(1, consumed ((digits +:+ String l "") +:+ ws +:+ String letter post)
                                            (ws +:+ String letter post))]).
      * apply M_Rep; [exact Hws | | exact I].
        destruct ws; [contradiction | simpl; lia].
      * apply M_Group. apply M_AltR, M_AltR, M_AltL.
        apply M_Seq with (s1 := post) (c1 := [(1, consumed ((digits +:+ String l "") +:+ ws +:+ String letter post)
                                            (ws +:+ String letter post))]).
        -- now apply M_Chr.
        -- rewrite <- (string_app_nil_l post) at 1.
           apply M_Rep; [reflexivity | simpl; lia | simpl; lia].
  - intros Hno. fold (re_findall grade_pattern text). fold (parse_grades text).
    destruct (parse_grades text) as [|r rs] eqn:E; [reflexivity|].
    exfalso. apply Hno, parse_grades_has_record. rewrite E. discriminate.
Qed.

(** A match of [grade_pattern] takes nine characters or more. *)
Lemma grade_match_length (s : string) (m : Match) :
  re_match grade_pattern s = Some m ->
  9 <= String.length (group0 m) <= String.length s.
Proof.
  intros (rest & c & HM & ->)%re_match_sound. cbn [group0].
  apply Matches_grade_pattern_text in HM
    as (id & ws & g & -> & (digits & letter & -> & Hd & _) & Hws & _ & Hg & _).
  replace ((digits +:+ String letter "") +:+ ws +:+ g +:+ rest)
    with ((((digits +:+ String letter "") +:+ ws) +:+ g) +:+ rest)
    by now rewrite !string_app_assoc.
  rewrite consumed_app, !string_length_app. cbn [String.length].
  apply emitted_grade_upper in Hg as (l & t & -> & _). cbn [String.length].
  destruct ws; [contradiction|]. cbn [String.length]. lia.
Qed.

Lemma findall_grades_count (s : string) (skip : nat) :
  9 * length (findall_from grade_pattern skip s) + skip <= String.length s
  \/ findall_from grade_pattern skip s = [].
Proof.
  revert skip. induction s as [|a s IH]; intros skip.
  - destruct skip; cbn [findall_from]; [|now right].
    destruct (re_match grade_pattern "") as [m|] eqn:E; [|now right].
    apply grade_match_length in E. simpl in E. lia.
  - destruct skip as [|k]; cbn [findall_from].
    + destruct (re_match grade_pattern (String a s)) as [m|] eqn:E.
      * left. apply grade_match_length in E. cbn [String.length] in *.
        destruct (IH (String.length (group0 m) - 1)) as [H|H].
        -- cbn [length]. lia.
        -- rewrite H. cbn [length]. lia.
      * destruct (IH 0) as [H|H]; [left; cbn [String.length]; lia | now right].
    + destruct (IH k) as [H|H]; [left; cbn [String.length]; lia | now right].
Qed.

(** X10. [parse_grades] returns at most one record for every nine characters
    of the text: a record takes seven characters for the student id, one or
    more of whitespace and one or more for the grade, and the search for the
    next record starts where the last one ended. *)
Theorem parse_grades_count (text : string) :
  9 * length (parse_grades text) <= String.length text.
Proof.
  unfold parse_grades, re_findall. rewrite length_map.
  destruct (findall_grades_count text 0) as [H|H].
  - lia.
  - rewrite H. cbn [length]. lia.
Qed.

(** ** The module code extract_module_info returns *)

Lemma upper_not_underscore (a : ascii) :
  is_upper a = true -> negb (is_char "_" a) = true.
Proof.
  intros H. apply negb_true_iff. destruct (is_char "_" a) eqn:E; [|reflexivity].
  apply is_char_true in E. subst a. discriminate H.
Qed.

Lemma digit_not_underscore (a : ascii) :
  is_digit a = true -> negb (is_char "_" a) = true.
Proof.
  intros H. apply negb_true_iff. destruct (is_char "_" a) eqn:E; [|reflexivity].
  apply is_char_true in E. subst a. discriminate H.
Qed.

Lemma module_code_shape_plain (code : string) :
  module_code_shape code -> all_chars (fun a => negb (is_char "_" a)) code = true.
Proof.
  intros (letters & digits & -> & _ & Hl & _ & Hd).
  rewrite all_chars_app. apply andb_true_intro. split.
  - apply (all_chars_weaken is_upper); [apply upper_not_underscore | exact Hl].
  - apply (all_chars_weaken is_digit); [apply digit_not_underscore | exact Hd].
Qed.

(** The code [extract_module_info] returns is ["Unknown"] or two uppercase
    letters and four digits. *)
Lemma extracted_code_shape (text : string) :
  fst (extract_module_info text) = "Unknown"
  \/ module_code_shape (fst (extract_module_info text)).
Proof.
  unfold extract_module_info.
  destruct (re_search module_pattern text) as [m|] eqn:E1.
  - right. apply search_module_pattern_Some in E1
      as (pre & code & ws1 & ws2 & name & rest & (_ & Hcode & _) & ->).
    cbn [fst group group_text Nat.eqb]. now rewrite strip_module_code.
  - destruct (re_search code_pattern text) as [m|] eqn:E2; [|now left].
    right. now apply search_code_pattern_Some in E2 as (pre & post & _ & Hcode).
Qed.

Lemma extracted_code_plain (text : string) :
  all_chars (fun a => negb (is_char "_" a)) (fst (extract_module_info text)) = true.
Proof.
  destruct (extracted_code_shape text) as [-> | H]; [reflexivity|].
  now apply module_code_shape_plain.
Qed.

(** X11. Whatever the text, the module code [extract_module_info] returns is
    ["Unknown"] or two uppercase letters and four digits, and
    [col.replace('_Grade', '')] gives it back from the name of its grade
    column: the key under which the handler stores the weight is the key
    [calc_student_sgpa] and [get_existing_modules] compute from the column. *)
Theorem extracted_code_round_trip (text : string) :
  (fst (extract_module_info text) = "Unknown"
   \/ module_code_shape (fst (extract_module_info text))) /\
  str_replace (fst (extract_module_info text) +:+ "_Grade") "_Grade" ""
  = fst (extract_module_info text).
Proof.
  split; [apply extracted_code_shape|].
  pose proof (module_code_of_grade_column _ (extracted_code_plain text)) as H.
  exact H.
Qed.

(** ** The handler of the button, step by step *)

Lemma before_merge_weights (st : Session) (code : string) :
  weights (before_merge st code) = weights st /\
  processed_modules (before_merge st code) = processed_modules st.
Proof. unfold before_merge. now destruct (_ && _). Qed.

Section HandlerProperties.

Variable extract_text_from_pdf_bytes : list byte -> string.

(** The ways through the handler. *)
Lemma add_result_cases (st : Session) (cached_bytes : option (list byte))
    (cached_name : string) (new_weight : float) :
  add_result extract_text_from_pdf_bytes st cached_bytes cached_name new_weight = (st, Stopped) \/
  add_result extract_text_from_pdf_bytes st cached_bytes cached_name new_weight = (st, NothingToMerge) \/
  exists pdf_bytes,
    cached_bytes = Some pdf_bytes /\
    let text := extract_text_from_pdf_bytes pdf_bytes in
    let code := fst (extract_module_info text) in
    text <> "" /\ parse_grades text <> [] /\
    add_result extract_text_from_pdf_bytes st cached_bytes cached_name new_weight
    = match merge_grades_with_department (department_df (before_merge st code))
              (parse_grades text) code with
      | Raise e => (before_merge st code, Failed e)
      | Ok merged =>
          (after_merge st code new_weight merged,
           Added code (snd (extract_module_info text)) (length (parse_grades text)))
      end.
Proof.
  destruct cached_bytes as [[|b bs]|]; [now left | | now left].
  unfold add_result, process_pdf.
  set (text := extract_text_from_pdf_bytes (b :: bs)).
  destruct (string_eqb text "") eqn:Etext; [right; now left|].
  apply string_eqb_false in Etext.
  destruct (extract_module_info text) as [code mname] eqn:Einfo.
  destruct (parse_grades text) as [|r rs] eqn:Erecs; [right; now left|].
  right. right. exists (b :: bs). split; [reflexivity|].
  fold text. rewrite Einfo, Erecs. cbn [fst snd grade_rows].
  split; [exact Etext|]. split; [discriminate|].
  fold (before_merge st code).
  destruct (before_merge_weights st code) as [Hw Hp].
  destruct (merge_grades_with_department _ _ code) as [merged|e]; [|reflexivity].
  unfold after_merge. now rewrite Hw, Hp.
Qed.


(** X12. [process_pdf] returns a frame exactly when the text of the document
    holds a grade record, a student id followed by whitespace and an
    uppercase letter; the frame then holds the records of [parse_grades],
    never none, under the code and the name of [extract_module_info], which
    are also the code and the name returned beside it. *)
Theorem process_pdf_frame (pdf_bytes : list byte) (filename : string) :
  let text := extract_text_from_pdf_bytes pdf_bytes in
  let result := process_pdf extract_text_from_pdf_bytes pdf_bytes filename in
  (fst (fst result) <> None <-> has_record text) /\
  (forall grades,
     fst (fst result) = Some grades ->
     grade_rows grades = parse_grades text /\ grade_rows grades <> [] /\
     (Module_Code grades, Module_Name grades) = extract_module_info text /\
     (snd (fst result), snd result) = extract_module_info text).
Proof.
  intros text result. subst result. unfold process_pdf. fold text.
  pose proof (parse_grades_nil_iff text) as Hnil.
  destruct (string_eqb text "") eqn:Etext.
  - apply string_eqb_true in Etext. cbn [fst snd]. split; [|discriminate].
    split; [contradiction|]. intros Hrec. apply Hnil in Hrec; [contradiction|].
    now rewrite Etext.
  - destruct (extract_module_info text) as [code name].
    destruct (parse_grades text) as [|r rs] eqn:Erecs; cbn [fst snd].
    + split; [|discriminate]. split; [contradiction|].
      intros Hrec. now apply Hnil in Hrec.
    + split.
      * split; [|discriminate]. intros _.
        apply parse_grades_has_record. rewrite Erecs. discriminate.
      * intros grades [= <-]. cbn [grade_rows Module_Code Module_Name].
        repeat split. discriminate.
Qed.

Lemma count_label_grade_columns (l : string) (cols : list string) :
  endswith l "_Grade" = true ->
  count_label l (grade_columns_of cols) = count_label l cols.
Proof.
  intros Hl. unfold count_label, grade_columns_of.
  induction cols as [|c cols IH]; [reflexivity|].
  rewrite (filter_cons (fun col => endswith col "_Grade" = true)).
  destruct (decide (endswith c "_Grade" = true)) as [Hc|Hc].
  - rewrite !filter_cons. destruct (decide (string_eqb l c = true)); simpl; now rewrite IH.
  - rewrite filter_cons_False; [exact IH|].
    intros E. apply string_eqb_true in E. subst c. contradiction.
Qed.

(** A roster a merge has returned has one column for the module. *)
Lemma merged_one_column (dept_df : DataFrame) (grades : list GradeRecord)
    (module_code : string) (merged : DataFrame) :
  merge_grades_with_department dept_df grades module_code = Ok merged ->
  count_label (module_code +:+ "_Grade") (columns merged) = 1.
Proof.
  intros (Hno & Hgc & _)%merge_Ok_inv.
  rewrite <- count_label_grade_columns by apply endswith_app.
  rewrite Hgc, count_label_app, count_label_grade_columns by apply endswith_app.
  rewrite (count_label_absent _ _ Hno). unfold count_label.
  rewrite filter_cons_True by apply string_eqb_refl. reflexivity.
Qed.

(** X13. When the handler reports a module as added, the session holds the
    new weight under the module's code and the weights of the other modules
    as they were, lists the module, after the modules it listed before, and
    its roster has exactly one column for the module, also when the module
    was in the roster before: the old column is replaced, not doubled. The
    number of grades it reports is positive. *)
Theorem added_module_state (st : Session) (cached_bytes : option (list byte))
    (cached_name : string) (new_weight : float) (code name : string) (n : nat) :
  snd (add_result extract_text_from_pdf_bytes st cached_bytes cached_name new_weight)
  = Added code name n ->
  let st' :=
    fst (add_result extract_text_from_pdf_bytes st cached_bytes cached_name new_weight) in
  weights st' = <[code := new_weight]> (weights st) /\
  (processed_modules st' = processed_modules st /\ code ∈ processed_modules st
   \/ processed_modules st' = processed_modules st ++ [code]) /\
  count_label (code +:+ "_Grade") (columns (department_df st')) = 1 /\
  0 < n.
Proof.
  intros Hout st'. subst st'.
  destruct (add_result_cases st cached_bytes cached_name new_weight)
    as [E|[E|(pdf_bytes & _ & _ & Hrecs & E)]];
    rewrite E in Hout |- *; try discriminate Hout.
  destruct (merge_grades_with_department _ _ _) as [merged|e] eqn:Em;
    [|discriminate Hout].
  cbn [snd] in Hout. injection Hout as <- <- <-.
  cbn [fst after_merge weights processed_modules department_df].
  split; [reflexivity|]. split; [|split].
  - destruct (has_column _ (processed_modules st)) eqn:Ep; [left | now right].
    split; [reflexivity | now apply has_column_true].
  - now apply merged_one_column in Em.
  - destruct (parse_grades _); [contradiction | simpl; lia].
Qed.

(** X14. The check before the ranking stays passed: when every listed module
    has a weight before the handler runs, every listed module has a weight
    after it, whatever the handler has done. *)
Theorem add_result_keeps_weights_set (st : Session) (cached_bytes : option (list byte))
    (cached_name : string) (new_weight : float) :
  all_weights_set st = true ->
  all_weights_set
    (fst (add_result extract_text_from_pdf_bytes st cached_bytes cached_name new_weight))
  = true.
Proof.
  intros Hset.
  destruct (add_result_cases st cached_bytes cached_name new_weight)
    as [E|[E|(pdf_bytes & _ & _ & _ & E)]]; rewrite E; try exact Hset.
  set (code := fst (extract_module_info (extract_text_from_pdf_bytes pdf_bytes))).
  destruct (merge_grades_with_department _ _ _) as [merged|e]; cbn [fst].
  - unfold all_weights_set, after_merge in *. cbn [weights processed_modules].
    rewrite forallb_forall in Hset.
    assert (Hold : forall m, In m (processed_modules st) ->
              bool_decide (is_Some (<[code := new_weight]> (weights st) !! m)) = true).
    { intros m Hm. apply bool_decide_eq_true.
      destruct (decide (code = m)) as [->|Hne].
      - rewrite lookup_insert_eq. now eexists.
      - rewrite lookup_insert_ne by exact Hne.
        specialize (Hset m Hm). now apply bool_decide_eq_true in Hset. }
    apply forallb_forall. intros m Hm.
    destruct (has_column code (processed_modules st)); [now apply Hold|].
    apply in_app_iff in Hm as [Hm|[<-|[]]]; [now apply Hold|].
    apply bool_decide_eq_true. rewrite lookup_insert_eq. now eexists.
  - unfold all_weights_set.
    destruct (before_merge_weights st code) as [-> ->]. exact Hset.
Qed.


Lemma grade_columns_drop_self (gc : string) (cols : list string) :
  grade_columns_of (drop_cells gc cols cols)
  = filter (fun c => c <> gc) (grade_columns_of cols).
Proof.
  unfold grade_columns_of. induction cols as [|c cols IH]; [reflexivity|].
  cbn [drop_cells]. destruct (string_eqb gc c) eqn:E.
  - apply string_eqb_true in E. subst c. rewrite IH.
    rewrite (filter_cons (fun col => endswith col "_Grade" = true)).
    destruct (decide (endswith gc "_Grade" = true)); [|reflexivity].
    now rewrite filter_cons_False by (intros H; now apply H).
  - apply string_eqb_false in E.
    rewrite !(filter_cons (fun col => endswith col "_Grade" = true)).
    destruct (decide (endswith c "_Grade" = true)); [|exact IH].
    rewrite filter_cons_True by congruence. now rewrite IH.
Qed.

Lemma NoDup_filter_out (x : string) (l : list string) :
  NoDup l -> x ∈ l -> Permutation l (filter (fun c => c <> x) l ++ [x]).
Proof.
  induction 1 as [|a l Ha Hl IH]; [now intros ?%elem_of_nil|].
  intros [->|Hx]%elem_of_cons.
  - rewrite filter_cons_False by (intros H; now apply H).
    assert (E : filter (fun c => c <> a) l = l).
    { clear IH Hl. induction l as [|b l IH]; [reflexivity|].
      apply not_elem_of_cons in Ha as [Hab Ha].
      rewrite filter_cons_True by congruence. now rewrite IH. }
    rewrite E. apply Permutation_cons_append.
  - assert (Hne : a <> x) by (intros ->; contradiction).
    rewrite filter_cons_True by exact Hne.
    cbn [app]. constructor. now apply IH.
Qed.

Lemma has_column_drop_self (gc : string) (cols : list string) :
  has_column gc (drop_cells gc cols cols) = false.
Proof.
  apply has_column_false. induction cols as [|c cols IH]; [apply not_elem_of_nil|].
  cbn [drop_cells]. destruct (string_eqb gc c) eqn:E; [exact IH|].
  apply string_eqb_false in E. apply not_elem_of_cons. now split.
Qed.

Lemma grade_column_in (gc : string) (cols : list string) :
  endswith gc "_Grade" = true -> gc ∈ cols -> gc ∈ grade_columns_of cols.
Proof. intros He Hin. unfold grade_columns_of. now apply list_elem_of_filter. Qed.

Lemma grade_columns_subset (gc : string) (cols : list string) :
  gc ∈ grade_columns_of cols -> gc ∈ cols.
Proof. unfold grade_columns_of. now intros [_ H]%list_elem_of_filter. Qed.

(** X15. The handler keeps the session consistent. When the grade columns of
    the roster are distinct, each is the grade column of its module code,
    and [processed_modules] lists the module codes of these columns, the same
    holds after the handler has run, unless an exception has left it. *)
Theorem add_result_keeps_consistent (st : Session) (cached_bytes : option (list byte))
    (cached_name : string) (new_weight : float) :
  consistent st ->
  (forall e,
     snd (add_result extract_text_from_pdf_bytes st cached_bytes cached_name new_weight)
     <> Failed e) ->
  consistent
    (fst (add_result extract_text_from_pdf_bytes st cached_bytes cached_name new_weight)).
Proof.
  intros (Hnd & Hcan & Hperm) Hok.
  destruct (add_result_cases st cached_bytes cached_name new_weight)
    as [E|[E|(pdf_bytes & _ & _ & _ & E)]];
    rewrite E in Hok |- *; try (now repeat split).
  set (text := extract_text_from_pdf_bytes pdf_bytes) in *.
  set (code := fst (extract_module_info text)) in *.
  set (gc := code +:+ "_Grade").
  assert (Hcode : str_replace gc "_Grade" "" = code)
    by apply (module_code_of_grade_column _ (extracted_code_plain text)).
  assert (Hgce : endswith gc "_Grade" = true) by apply endswith_app.
  assert (Hcgc : canonical gc) by (unfold canonical; now rewrite Hcode).
  destruct (merge_grades_with_department _ _ _) as [merged|e] eqn:Em;
    [|now destruct (Hok e)].
  apply merge_Ok_inv in Em as (Hno & Hgc & _). fold gc in Hno, Hgc.
  assert (Hdf0 : department_df (before_merge st code)
                 = if has_column code (processed_modules st)
                      && has_column gc (columns (department_df st))
                   then drop_column gc (department_df st) else department_df st).
  { unfold before_merge. fold gc. now destruct (_ && _). }
  rewrite Hdf0 in Hno, Hgc. clear Hdf0.
  cbn [fst]. unfold consistent, after_merge, get_existing_modules.
  cbn [department_df processed_modules]. rewrite Hgc.
  unfold get_existing_modules in Hperm.
  set (gcs := grade_columns_of (columns (department_df st))) in *.
  destruct (has_column code (processed_modules st)) eqn:Ep;
    destruct (has_column gc (columns (department_df st))) eqn:Eg;
    cbn [andb] in Hno |- *; cbn [department_df columns drop_column] in Hno |- *.
  - (* the module is merged again: its column moves to the end *)
    rewrite grade_columns_drop_self. fold gcs.
    assert (Hin : gc ∈ gcs) by (apply grade_column_in; [exact Hgce | now apply has_column_true]).
    pose proof (NoDup_filter_out gc gcs Hnd Hin) as Hmove.
    split; [now rewrite <- Hmove|]. split.
    + rewrite List.Forall_forall in *. intros col Hcol. apply Hcan.
      apply list_elem_of_In. rewrite Hmove. now apply list_elem_of_In.
    + rewrite Hperm. now apply Permutation_map.
  - (* a listed module has its column *)
    exfalso. apply has_column_true in Ep. rewrite Hperm in Ep.
    apply list_elem_of_fmap in Ep as (col & Hcol & Hin).
    rewrite List.Forall_forall in Hcan.
    pose proof (Hcan col (proj1 (list_elem_of_In _ _) Hin)) as Hc.
    unfold canonical in Hc. rewrite <- Hcol in Hc. fold gc in Hc. subst col.
    apply grade_columns_subset in Hin. apply has_column_false in Eg. contradiction.
  - congruence.
  - (* a new module: its column and its code go to the end *)
    fold gcs. split; [|split].
    + apply NoDup_app. split; [exact Hnd|]. split; [|apply NoDup_singleton].
      intros col Hcol ->%list_elem_of_singleton.
      apply grade_columns_subset in Hcol. apply has_column_false in Hno. contradiction.
    + apply Forall_app. split; [exact Hcan | now constructor].
    + rewrite map_app. cbn [map]. rewrite Hcode. now apply Permutation_app_tail.
Qed.


(** The handler with a document that holds records reaches the merge. *)
Lemma add_result_reaches_merge (st : Session) (pdf_bytes : list byte)
    (cached_name : string) (new_weight : float) :
  let text := extract_text_from_pdf_bytes pdf_bytes in
  let code := fst (extract_module_info text) in
  pdf_bytes <> [] -> text <> "" -> parse_grades text <> [] ->
  add_result extract_text_from_pdf_bytes st (Some pdf_bytes) cached_name new_weight
  = match merge_grades_with_department (department_df (before_merge st code))
            (parse_grades text) code with
    | Raise e => (before_merge st code, Failed e)
    | Ok merged =>
        (after_merge st code new_weight merged,
         Added code (snd (extract_module_info text)) (length (parse_grades text)))
    end.
Proof.
  intros text code Hbytes Htext Hrecs.
  destruct (add_result_cases st (Some pdf_bytes) cached_name new_weight)
    as [E|[E|(pdf_bytes' & [= <-] & _ & _ & E)]]; [| |exact E]; exfalso.
  - destruct pdf_bytes as [|b bs]; [contradiction|].
    unfold add_result, process_pdf in E. fold text in E.
    destruct (string_eqb text ""); [discriminate E|].
    destruct (extract_module_info text).
    destruct (parse_grades text); [discriminate E|]. cbn [grade_rows] in E.
    destruct (merge_grades_with_department _ _ _); discriminate E.
  - destruct pdf_bytes as [|b bs]; [contradiction|].
    unfold add_result, process_pdf in E. fold text in E.
    apply string_eqb_false in Htext. rewrite Htext in E.
    destruct (extract_module_info text).
    destruct (parse_grades text); [contradiction|]. cbn [grade_rows] in E.
    destruct (merge_grades_with_department _ _ _); discriminate E.
Qed.

(** X16. Adding the same document a second time changes the weight and
    nothing else. When the roster is ready for the module of the document and
    no student id occurs twice in its records, the first run of the handler
    adds the module, and a second run on the same bytes returns the roster
    and the module list of the first, with the weight of the second. *)
Theorem add_result_again (st : Session) (pdf_bytes : list byte)
    (cached_name : string) (w1 w2 : float) :
  let text := extract_text_from_pdf_bytes pdf_bytes in
  let code := fst (extract_module_info text) in
  pdf_bytes <> [] -> text <> "" -> parse_grades text <> [] ->
  NoDup (map Index_No (parse_grades text)) ->
  merge_ready (department_df st) code = true ->
  exists st1 name n,
    add_result extract_text_from_pdf_bytes st (Some pdf_bytes) cached_name w1
    = (st1, Added code name n) /\
    add_result extract_text_from_pdf_bytes st1 (Some pdf_bytes) cached_name w2
    = (mkSession (department_df st1) (<[code := w2]> (weights st1))
                 (processed_modules st1),
       Added code name n).
Proof.
  intros text code Hbytes Htext Hrecs Hnd Hready.
  pose proof (merge_ready_no_grade _ _ Hready) as Hgc.
  pose proof (merge_ready_well_formed _ _ Hready) as Hwf.
  destruct (merge_unique_result _ _ _ Hready Hrecs Hnd) as (ki & _ & Hm).
  set (merged := mkFrame (columns (department_df st) ++ [code +:+ "_Grade"])
                   (map (fun row => row ++ [grade_cell (nth ki row NaN) (parse_grades text)])
                        (rows (department_df st)))) in *.
  assert (Hbefore : before_merge st code = st).
  { unfold before_merge. apply has_column_false in Hgc. rewrite Hgc.
    now rewrite andb_false_r. }
  exists (after_merge st code w1 merged), (snd (extract_module_info text)),
         (length (parse_grades text)).
  split.
  - rewrite (add_result_reaches_merge st pdf_bytes cached_name w1 Hbytes Htext Hrecs).
    fold text code. now rewrite Hbefore, Hm.
  - rewrite (add_result_reaches_merge _ pdf_bytes cached_name w2 Hbytes Htext Hrecs).
    fold text code.
    assert (Hlisted : has_column code (processed_modules (after_merge st code w1 merged))
                      = true).
    { unfold after_merge. cbn [processed_modules].
      destruct (has_column code (processed_modules st)) eqn:Ep; [exact Ep|].
      apply has_column_true, elem_of_app. right. apply list_elem_of_here. }
    assert (Hcol : has_column (code +:+ "_Grade")
                     (columns (department_df (after_merge st code w1 merged))) = true).
    { unfold after_merge, merged. cbn [department_df columns].
      apply has_column_true, elem_of_app. right. apply list_elem_of_here. }
    assert (Hdrop : department_df (before_merge (after_merge st code w1 merged) code)
                    = department_df st).
    { unfold before_merge. rewrite Hlisted, Hcol. cbn [andb department_df].
      unfold after_merge at 1. cbn [department_df]. unfold merged.
      rewrite drop_appended_column by assumption. now destruct (department_df st). }
    rewrite Hdrop, Hm. unfold after_merge at 1. rewrite Hlisted. reflexivity.
Qed.

(** X17. An update is not undone when the merge fails. When the module is
    listed and has its column, and the merge of the new records raises once
    that column is dropped, the exception leaves the handler with the old
    grades gone: the session keeps the roster without the module's column,
    while the module stays listed with its weight. *)
Theorem failed_update_loses_grades (st : Session) (pdf_bytes : list byte)
    (cached_name : string) (new_weight : float) (e : exn) :
  let text := extract_text_from_pdf_bytes pdf_bytes in
  let code := fst (extract_module_info text) in
  pdf_bytes <> [] -> text <> "" -> parse_grades text <> [] ->
  has_column code (processed_modules st) = true ->
  has_column (code +:+ "_Grade") (columns (department_df st)) = true ->
  merge_grades_with_department
    (drop_column (code +:+ "_Grade") (department_df st)) (parse_grades text) code
  = Raise e ->
  exists st',
    add_result extract_text_from_pdf_bytes st (Some pdf_bytes) cached_name new_weight
    = (st', Failed e) /\
    has_column (code +:+ "_Grade") (columns (department_df st')) = false /\
    processed_modules st' = processed_modules st /\
    weights st' = weights st.
Proof.
  intros text code Hbytes Htext Hrecs Hlisted Hcol Hraise.
  rewrite (add_result_reaches_merge st pdf_bytes cached_name new_weight Hbytes Htext Hrecs).
  fold text code. unfold before_merge. rewrite Hlisted, Hcol.
  cbn [andb department_df]. rewrite Hraise.
  eexists. split; [reflexivity|]. cbn [department_df processed_modules weights].
  split; [|now split]. unfold drop_column. cbn [columns].
  apply has_column_drop_self.
Qed.

End HandlerProperties.

Lemma added_module_state_witness :
  let st' := fst (add_result read_result_document empty_session (Some some_bytes)
                    "result.pdf" 3.0%float) in
  weights st' = <["CS2023" := 3.0%float]> (weights empty_session) /\
  (processed_modules st' = processed_modules empty_session /\
   "CS2023" ∈ processed_modules empty_session
   \/ processed_modules st' = processed_modules empty_session ++ ["CS2023"]) /\
  count_label ("CS2023" +:+ "_Grade") (columns (department_df st')) = 1 /\
  0 < 1.
Proof.
  apply (added_module_state read_result_document empty_session (Some some_bytes)
           "result.pdf" 3.0%float "CS2023" "Data Structures" 1).
  vm_compute. reflexivity.
Defined.

Lemma add_result_keeps_weights_set_witness :
  all_weights_set
    (fst (add_result read_result_document empty_session (Some some_bytes)
            "result.pdf" 3.0%float)) = true.
Proof.
  apply (add_result_keeps_weights_set read_result_document empty_session
           (Some some_bytes) "result.pdf" 3.0%float).
  reflexivity.
Defined.

Lemma add_result_keeps_consistent_witness :
  consistent
    (fst (add_result read_result_document empty_session (Some some_bytes)
            "result.pdf" 3.0%float)).
Proof.
  apply (add_result_keeps_consistent read_result_document empty_session
           (Some some_bytes) "result.pdf" 3.0%float).
  - unfold consistent. cbn. repeat split; constructor.
  - intros e. vm_compute. discriminate.
Defined.

Lemma add_result_again_witness :
  exists st1 name n,
    add_result read_result_document empty_session (Some some_bytes) "result.pdf" 3.0%float
    = (st1, Added "CS2023" name n) /\
    add_result read_result_document st1 (Some some_bytes) "result.pdf" 2.0%float
    = (mkSession (department_df st1) (<["CS2023" := 2.0%float]> (weights st1))
                 (processed_modules st1),
       Added "CS2023" name n).
Proof.
  assert (E : fst (extract_module_info (read_result_document some_bytes)) = "CS2023")
    by (vm_compute; reflexivity).
  rewrite <- E.
  apply (add_result_again read_result_document empty_session some_bytes "result.pdf"
           3.0%float 2.0%float).
  - discriminate.
  - discriminate.
  - vm_compute. discriminate.
  - vm_compute. repeat constructor. apply not_elem_of_nil.
  - vm_compute. reflexivity.
Defined.

Lemma failed_update_loses_grades_witness :
  exists st',
    add_result read_result_document session_numeric_index (Some some_bytes)
      "result.pdf" 3.0%float
    = (st', Failed (ValueError "You are trying to merge on numeric and object columns")) /\
    has_column "CS2023_Grade" (columns (department_df st')) = false /\
    processed_modules st' = ["CS2023"] /\
    weights st' = weights session_numeric_index.
Proof.
  assert (E : "CS2023_Grade"
              = fst (extract_module_info (read_result_document some_bytes)) +:+ "_Grade")
    by (vm_compute; reflexivity).
  rewrite E.
  apply (failed_update_loses_grades read_result_document session_numeric_index
           some_bytes "result.pdf" 3.0%float).
  - discriminate.
  - discriminate.
  - vm_compute. discriminate.
  - vm_compute. reflexivity.
  - vm_compute. reflexivity.
  - vm_compute. reflexivity.
Defined.

(** ** The summary of the modules *)

Lemma filter_map_length {A B : Type} (P : B -> bool) (f : A -> B) (l : list A) :
  length (filter (fun b => P b = true) (map f l))
  = length (filter (fun a => P (f a) = true) l).
Proof.
  induction l as [|a l IH]; [reflexivity|]. cbn [map].
  rewrite !filter_cons. destruct (decide (P (f a) = true)); simpl; now rewrite IH.
Qed.

Lemma grade_cell_found (key : cell) (grades : list GradeRecord) :
  (forall g, In g grades -> Grade g <> "N/A") ->
  cell_ne (grade_cell key grades) "N/A" = existsb (key_matches key) grades.
Proof.
  intros Hna. unfold grade_cell, grades_for.
  induction grades as [|g grades IH]; [reflexivity|].
  rewrite filter_cons. cbn [existsb].
  destruct (key_matches key g) eqn:E.
  - destruct (decide (true = true)); [|congruence]. cbn [map cell_ne orb].
    apply negb_true_iff, string_eqb_false, Hna. now left.
  - destruct (decide (false = true)); [discriminate|]. cbn [orb].
    apply IH. intros g' Hg'. apply Hna. now right.
Qed.

(** X18. After a merge the summary counts the students that have a record.
    For a roster that is ready for the module and records with distinct
    student ids, none of them holding the grade ["N/A"], "Grades Found" of
    the merged module is the number of roster rows whose [Index] is the id of
    a record. *)
Theorem grades_found_after_merge (dept_df : DataFrame) (grades : list GradeRecord)
    (module_code : string) :
  merge_ready dept_df module_code = true -> grades <> [] ->
  NoDup (map Index_No grades) ->
  (forall g, In g grades -> Grade g <> "N/A") ->
  exists merged ki,
    merge_grades_with_department dept_df grades module_code = Ok merged /\
    column_index "Index" (columns dept_df) = Some ki /\
    grades_found merged module_code
    = length (filter (fun row => existsb (key_matches (nth ki row NaN)) grades = true)
                     (rows dept_df)).
Proof.
  intros Hready Hne Hnd Hna.
  destruct (merge_unique_result dept_df grades module_code Hready Hne Hnd)
    as (ki & Hki & Hm).
  pose proof (merge_ready_no_grade _ _ Hready) as Hgc.
  pose proof (merge_ready_well_formed _ _ Hready) as Hwf.
  eexists. exists ki. split; [exact Hm|]. split; [exact Hki|].
  unfold grades_found, column_values. cbn [columns rows].
  set (gc := module_code +:+ "_Grade") in *.
  assert (Hhas : has_column gc (columns dept_df ++ [gc]) = true).
  { apply has_column_true, elem_of_app. right. apply list_elem_of_here. }
  rewrite Hhas, (column_index_app_r _ _ _ Hgc). cbn [column_index].
  rewrite string_eqb_refl. cbn [option_map].
  rewrite map_map.
  rewrite (map_ext_in _ (fun row => grade_cell (nth ki row NaN) grades)).
  - rewrite filter_map_length. apply filter_length_ext.
    intros row _. now apply grade_cell_found.
  - intros row Hrow. unfold well_formed in Hwf. rewrite List.Forall_forall in Hwf.
    rewrite app_nth2 by (rewrite (Hwf row Hrow); lia).
    rewrite (Hwf row Hrow). now replace (_ + 0 - _) with 0 by lia.
Qed.

Lemma grades_found_after_merge_witness :
  exists merged ki,
    merge_grades_with_department roster_two one_record "CS2023" = Ok merged /\
    column_index "Index" (columns roster_two) = Some ki /\
    grades_found merged "CS2023"
    = length (filter (fun row => existsb (key_matches (nth ki row NaN)) one_record = true)
                     (rows roster_two)).
Proof.
  apply (grades_found_after_merge roster_two one_record "CS2023").
  - reflexivity.
  - discriminate.
  - repeat constructor. apply not_elem_of_nil.
  - intros g [<-|[]]. discriminate.
Defined.

(** ** sanitize_string *)

(** X19. The result of [sanitize_string] holds none of the eleven characters
    of the class, whatever the input, and sanitizing it again changes
    nothing. *)
Theorem sanitize_string_clean (s : string) :
  (forall a, In a (list_ascii_of_string (sanitize_string s)) ->
             ~ In a (list_ascii_of_string "<>{}|\^~[]`")) /\
  sanitize_string (sanitize_string s) = sanitize_string s.
Proof.
  assert (Hclean : all_chars (fun a => negb (is_dangerous a)) (sanitize_string s) = true).
  { unfold sanitize_string. induction s as [|a s IH]; [reflexivity|].
    cbn [remove_chars]. destruct (is_dangerous a) eqn:E; [exact IH|].
    cbn [all_chars]. now rewrite E, IH. }
  split.
  - revert Hclean. generalize (sanitize_string s) as t.
    induction t as [|b t IH]; cbn [all_chars list_ascii_of_string]; [now intros _ a []|].
    intros [Hb Ht]%andb_prop a [<-|Ha]; [|now apply IH].
    apply negb_true_iff in Hb. unfold is_dangerous in Hb. intros Hin.
    assert (E : existsb (fun c => is_char c b) (list_ascii_of_string "<>{}|\^~[]`") = true).
    { apply existsb_exists. exists b. split; [exact Hin | now apply is_char_true]. }
    congruence.
  - now apply remove_chars_none.
Qed.

(** X20. [sanitize_string] returns its argument unchanged exactly when the
    argument holds none of the characters of the class; it never makes a
    string longer. *)
Theorem sanitize_string_fixed_point (s : string) :
  (sanitize_string s = s <-> all_chars (fun a => negb (is_dangerous a)) s = true) /\
  String.length (sanitize_string s) <= String.length s.
Proof.
  assert (Hlen : forall t, String.length (sanitize_string t) <= String.length t).
  { unfold sanitize_string. induction t as [|a t IH]; [reflexivity|].
    cbn [remove_chars]. destruct (is_dangerous a); simpl; lia. }
  split; [|apply Hlen]. split; [|apply remove_chars_none].
  induction s as [|a s IH]; [reflexivity|].
  unfold sanitize_string in *. cbn [remove_chars all_chars].
  destruct (is_dangerous a) eqn:E.
  - intros H. pose proof (Hlen s) as Hl. unfold sanitize_string in Hl.
    rewrite H in Hl. simpl in Hl. lia.
  - intros [= H]. now rewrite IH.
Qed.

(** ** Python's str.lower, rfind and splitext *)

Lemma substring_all (s : string) : substring 0 (String.length s) s = s.
Proof. induction s as [|a s IH]; [reflexivity|]. simpl. now rewrite IH. Qed.

Lemma slice_to_app (a b : string) : slice_to (String.length a) (a +:+ b) = a.
Proof.
  unfold slice_to. induction a as [|c a IH].
  - now destruct b.
  - rewrite string_app_cons. simpl. now rewrite IH.
Qed.

Lemma slice_from_app (a b : string) : slice_from (String.length a) (a +:+ b) = b.
Proof.
  unfold slice_from. induction a as [|c a IH].
  - rewrite string_app_nil_l. simpl. rewrite Nat.sub_0_r. apply substring_all.
  - rewrite string_app_cons. exact IH.
Qed.

Lemma free_of_app (c : ascii) (a b : string) :
  free_of c (a +:+ b) = free_of c a && free_of c b.
Proof. apply all_chars_app. Qed.

Lemma rfind_range (c : ascii) (p : string) :
  (-1 <= rfind c p < Z.of_nat (String.length p))%Z.
Proof.
  induction p as [|a p IH]; [simpl; lia|].
  cbn [rfind String.length]. destruct (0 <=? rfind c p)%Z eqn:E.
  - apply Z.leb_le in E. lia.
  - destruct (is_char c a); lia.
Qed.

Lemma rfind_free (c : ascii) (p : string) :
  rfind c p = (-1)%Z <-> free_of c p = true.
Proof.
  unfold free_of. induction p as [|a p IH]; [easy|].
  cbn [rfind all_chars]. pose proof (rfind_range c p) as Hr.
  destruct (0 <=? rfind c p)%Z eqn:E.
  - apply Z.leb_le in E. split; [lia|].
    intros [_ H]%andb_prop. apply IH in H. lia.
  - apply Z.leb_gt in E. assert (Hp : rfind c p = (-1)%Z) by lia.
    apply IH in Hp. rewrite Hp, andb_true_r.
    destruct (is_char c a); simpl; split; (lia || discriminate || reflexivity).
Qed.

Lemma rfind_app (c : ascii) (a b : string) :
  rfind c (a +:+ b)
  = if (0 <=? rfind c b)%Z then (Z.of_nat (String.length a) + rfind c b)%Z
    else rfind c a.
Proof.
  induction a as [|x a IH].
  - rewrite string_app_nil_l. cbn [String.length rfind].
    destruct (0 <=? rfind c b)%Z eqn:E; [lia|].
    apply Z.leb_gt in E. pose proof (rfind_range c b). lia.
  - rewrite string_app_cons. cbn [rfind String.length]. rewrite IH.
    destruct (0 <=? rfind c b)%Z eqn:E.
    + apply Z.leb_le in E.
      destruct (0 <=? Z.of_nat (String.length a) + rfind c b)%Z eqn:E'; [lia|].
      apply Z.leb_gt in E'. lia.
    + reflexivity.
Qed.

Lemma rfind_split (c : ascii) (p : string) :
  (0 <= rfind c p)%Z ->
  exists pre post,
    p = pre +:+ String c post /\ rfind c p = Z.of_nat (String.length pre) /\
    free_of c post = true.
Proof.
  induction p as [|a p IH]; [simpl; lia|].
  cbn [rfind]. destruct (0 <=? rfind c p)%Z eqn:E.
  - apply Z.leb_le in E. intros _. destruct (IH E) as (pre & post & -> & Hr & Hfree).
    exists (String a pre), post. rewrite string_app_cons. cbn [String.length].
    repeat split; [lia | exact Hfree].
  - apply Z.leb_gt in E. destruct (is_char c a) eqn:Ea; [|lia].
    intros _. apply is_char_true in Ea. subst a.
    exists "", p. rewrite string_app_nil_l. repeat split.
    apply rfind_free. pose proof (rfind_range c p). lia.
Qed.

Lemma rfind_here (c : ascii) (post : string) :
  free_of c post = true -> rfind c (String c post) = 0%Z.
Proof.
  intros H%rfind_free. cbn [rfind]. rewrite H.
  assert (E : is_char c c = true) by now apply is_char_true.
  now rewrite E.
Qed.

Lemma get_app_here (a b : string) (x : ascii) :
  String.get (String.length a) (a +:+ String x b) = Some x.
Proof.
  induction a as [|c a IH]; [reflexivity|]. rewrite string_app_cons. exact IH.
Qed.

Lemma get_split (i : nat) (s : string) (x : ascii) :
  String.get i s = Some x ->
  exists a b, s = a +:+ String x b /\ String.length a = i.
Proof.
  revert i. induction s as [|c s IH]; intros i; [now destruct i|].
  destruct i as [|i]; cbn [String.get].
  - intros [= ->]. now exists "", s.
  - intros (a & b & -> & <-)%IH. now exists (String c a), b.
Qed.

Lemma get_in_range (i : nat) (s : string) :
  i < String.length s -> exists x, String.get i s = Some x.
Proof.
  revert i. induction s as [|c s IH]; intros i; simpl; [lia|].
  destruct i as [|i]; [now exists c|]. intros H. apply IH. lia.
Qed.

Lemma leading_dots_false (p : string) (n start i : nat) (x : ascii) :
  start <= i < start + n -> String.get i p = Some x -> is_char "." x = false ->
  leading_dots p start n = false.
Proof.
  revert start. induction n as [|n IH]; intros start Hi Hget Hx; [lia|].
  cbn [leading_dots]. destruct (String.get start p) as [a|] eqn:E; [|reflexivity].
  destruct (Nat.eq_dec start i) as [->|Hne].
  - rewrite Hget in E. injection E as <-. now rewrite Hx.
  - rewrite (IH (S start)); [apply andb_false_r | lia | exact Hget | exact Hx].
Qed.

Lemma leading_dots_false_inv (p : string) (n start : nat) :
  leading_dots p start n = false -> start + n <= String.length p ->
  exists i x, start <= i < start + n /\ String.get i p = Some x /\ is_char "." x = false.
Proof.
  revert start. induction n as [|n IH]; intros start H Hlen; [discriminate|].
  cbn [leading_dots] in H.
  destruct (get_in_range start p) as [a Ha]; [lia|]. rewrite Ha in H.
  destruct (is_char "." a) eqn:Ea.
  - cbn [andb] in H. destruct (IH (S start) H) as (i & x & Hi & Hget & Hx); [lia|].
    exists i, x. repeat split; (lia || assumption).
  - exists start, a. repeat split; (lia || assumption).
Qed.

(** The extension [splitext] splits off a path that has one. *)
Lemma splitext_extension (stem e : string) :
  free_of "." e = true -> free_of "/" e = true -> named stem ->
  splitext (stem +:+ String "." e) = (stem, String "." e).
Proof.
  intros Hdot Hsep (a & x & b & -> & Hx1 & Hx2 & Hb).
  set (stem := a +:+ String x b). unfold splitext.
  assert (Hd : rfind "." (stem +:+ String "." e) = Z.of_nat (String.length stem)).
  { rewrite rfind_app, (rfind_here _ _ Hdot). change (0 <=? 0)%Z with true. lia. }
  assert (Hs : rfind "/" (stem +:+ String "." e) = rfind "/" a).
  { assert (H1 : rfind "/" (String "." e) = (-1)%Z) by now apply rfind_free.
    assert (H2 : rfind "/" (String x b) = (-1)%Z).
    { apply rfind_free. unfold free_of in *. cbn [all_chars]. now rewrite Hx2, Hb. }
    rewrite rfind_app, H1. change (0 <=? -1)%Z with false.
    unfold stem. rewrite rfind_app, H2. reflexivity. }
  rewrite Hd, Hs. pose proof (rfind_range "/" a) as Ha.
  assert (Hl : String.length stem = String.length a + S (String.length b)).
  { unfold stem. now rewrite string_length_app. }
  assert (E1 : (rfind "/" a <? Z.of_nat (String.length stem))%Z = true)
    by (apply Z.ltb_lt; lia).
  rewrite E1. cbn [andb].
  rewrite (leading_dots_false _ _ _ (String.length a) x).
  - cbn [negb]. rewrite Nat2Z.id. now rewrite slice_to_app, slice_from_app.
  - lia.
  - unfold stem. rewrite string_app_assoc, string_app_cons. apply get_app_here.
  - exact Hx1.
Qed.

(** An extension [splitext] has split off is the extension of the path. *)
Lemma splitext_has_extension (p : string) :
  snd (splitext p) <> "" -> has_extension p (snd (splitext p)).
Proof.
  unfold splitext.
  destruct (rfind "/" p <? rfind "." p)%Z eqn:E1; [|now intros []].
  destruct (leading_dots _ _ _) eqn:E2; [now intros []|]. cbn [andb negb snd].
  intros _. apply Z.ltb_lt in E1. pose proof (rfind_range "/" p) as Hs.
  destruct (rfind_split "." p) as (pre & post & -> & Hd & Hfree); [lia|].
  rewrite Hd in *. rewrite Nat2Z.id, slice_from_app.
  rewrite rfind_app in E1, E2, Hs.
  destruct (0 <=? rfind "/" (String "." post))%Z eqn:E3; [apply Z.leb_le in E3; lia|].
  apply Z.leb_gt in E3. pose proof (rfind_range "/" (String "." post)) as Hr.
  assert (Hpost : free_of "/" (String "." post) = true) by (apply rfind_free; lia).
  apply leading_dots_false_inv in E2 as (i & x & Hi & Hget & Hx).
  2:{ rewrite string_length_app. lia. }
  assert (Hipre : i < String.length pre) by lia.
  destruct (get_in_range i pre Hipre) as [x' Hx'].
  destruct (get_split i pre x' Hx') as (a & b & -> & Hlen).
  assert (x' = x).
  { rewrite string_app_assoc, string_app_cons, <- Hlen, get_app_here in Hget.
    now injection Hget. }
  subst x'.
  rewrite rfind_app in Hi.
  destruct (0 <=? rfind "/" (String x b))%Z eqn:E4; [apply Z.leb_le in E4; lia|].
  apply Z.leb_gt in E4. pose proof (rfind_range "/" (String x b)) as Hr'.
  assert (Hxb : free_of "/" (String x b) = true) by (apply rfind_free; lia).
  unfold free_of in Hxb. cbn [all_chars] in Hxb. apply andb_prop in Hxb as [Hx2 Hb].
  apply negb_true_iff in Hx2.
  exists (a +:+ String x b), post.
  split; [reflexivity|]. split; [reflexivity|]. split; [exact Hfree|]. split.
  - unfold free_of in Hpost. cbn [all_chars] in Hpost.
    apply andb_prop in Hpost as [_ Hp]. exact Hp.
  - exists a, x, b. repeat split; assumption.
Qed.

(** ** validate_file_extension and the checks of the uploaders *)

Lemma lower_nil (s : string) : lower s = "" -> s = "".
Proof. now destruct s. Qed.

Lemma has_extension_not_nil (ext : string) : ~ has_extension "" ext.
Proof.
  intros (stem & e & H & -> & _). destruct stem; discriminate H.
Qed.

(** The names [validate_file_extension] accepts. *)
Lemma accepted_extension (filename : string) (allowed_extensions : list string) :
  "" ∉ allowed_extensions ->
  fst (validate_file_extension filename allowed_extensions) = true <->
  exists ext, ext ∈ allowed_extensions /\ has_extension (lower filename) ext.
Proof.
  intros Hnil. unfold validate_file_extension.
  destruct (string_eqb filename "") eqn:Ename.
  - apply string_eqb_true in Ename. subst filename. split; [discriminate|].
    intros (ext & _ & H). now apply has_extension_not_nil in H.
  - set (ext := snd (splitext (lower filename))).
    destruct (has_column ext allowed_extensions) eqn:Ein; cbn [negb fst]; split;
      try discriminate; try reflexivity.
    + intros _. apply has_column_true in Ein. exists ext. split; [exact Ein|].
      apply splitext_has_extension. fold ext. intros E. rewrite E in Ein. contradiction.
    + intros (ext' & Hin & stem & e & Hp & -> & Hdot & Hsep & Hnamed).
      apply has_column_false in Ein. exfalso. apply Ein.
      unfold ext. rewrite Hp, (splitext_extension stem e Hdot Hsep Hnamed). exact Hin.
Qed.

(** X21. When no allowed extension is the empty string,
    [validate_file_extension] accepts a name exactly when the name in lower
    case is a stem with a name of its own in its last component, followed by
    one of the allowed extensions; the extension is what follows the last
    dot. *)
Theorem validate_file_extension_accepts (filename : string)
    (allowed_extensions : list string) :
  "" ∉ allowed_extensions ->
  validate_file_extension filename allowed_extensions = (true, "File type OK") <->
  exists ext, ext ∈ allowed_extensions /\ has_extension (lower filename) ext.
Proof.
  intros Hnil. rewrite <- (accepted_extension filename allowed_extensions Hnil).
  unfold validate_file_extension.
  destruct (string_eqb filename ""); [split; discriminate|].
  destruct (has_column _ allowed_extensions); cbn [negb fst]; split;
    (discriminate || reflexivity).
Qed.

Lemma validate_file_extension_accepts_witness :
  validate_file_extension "Results.PDF" [ALLOWED_PDF_EXTENSION] = (true, "File type OK") <->
  exists ext, ext ∈ [ALLOWED_PDF_EXTENSION] /\ has_extension (lower "Results.PDF") ext.
Proof.
  apply (validate_file_extension_accepts "Results.PDF" [ALLOWED_PDF_EXTENSION]).
  intros H. apply list_elem_of_singleton in H. discriminate H.
Defined.

Lemma check_upload_accepted (file : UploadedFile) (allowed_extensions : list string) :
  check_upload file allowed_extensions = Accepted <->
  (file_size file <= 10485760)%Z /\
  fst (validate_file_extension (file_name file) allowed_extensions) = true.
Proof.
  unfold check_upload, validate_file_size.
  change MAX_FILE_SIZE_BYTES with 10485760%Z.
  destruct (10485760 <? file_size file)%Z eqn:Esize.
  - apply Z.ltb_lt in Esize.
    destruct (validate_file_extension _ _) as [ok msg]. cbn [negb].
    split; [discriminate | lia].
  - apply Z.ltb_ge in Esize.
    destruct (validate_file_extension _ _) as [[|] msg]; cbn [negb fst].
    + split; [now split | reflexivity].
    + split; [discriminate | now intros [_ ?]].
Qed.

(** X22. The checks of the two uploaders of the application pass, and no
    error is shown, exactly when the file has at most 10485760 bytes and its
    name in lower case has the extension [.pdf], for a result document, or
    one of [.csv], [.xlsx] and [.xls], for a roster. *)
Theorem check_upload_accepts (file : UploadedFile) :
  (check_upload file [ALLOWED_PDF_EXTENSION] = Accepted <->
   (file_size file <= 10485760)%Z /\ has_extension (lower (file_name file)) ".pdf") /\
  (check_upload file ALLOWED_DEPT_EXTENSIONS = Accepted <->
   (file_size file <= 10485760)%Z /\
   (has_extension (lower (file_name file)) ".csv"
    \/ has_extension (lower (file_name file)) ".xlsx"
    \/ has_extension (lower (file_name file)) ".xls")).
Proof.
  split.
  - rewrite check_upload_accepted, accepted_extension.
    + split.
      * intros [Hs (ext & ->%list_elem_of_singleton & H)]. now split.
      * intros [Hs H]. split; [exact Hs|]. exists ".pdf". split; [|exact H].
        apply list_elem_of_here.
    + intros H. apply list_elem_of_singleton in H. discriminate H.
  - rewrite check_upload_accepted, accepted_extension.
    + unfold ALLOWED_DEPT_EXTENSIONS. split.
      * intros [Hs (ext & Hin & H)]. split; [exact Hs|].
        repeat (apply elem_of_cons in Hin as [->|Hin]; [tauto|]).
        now apply elem_of_nil in Hin.
      * intros [Hs H]. split; [exact Hs|].
        destruct H as [H|[H|H]]; eexists; (split; [|exact H]).
        -- apply list_elem_of_here.
        -- apply list_elem_of_further, list_elem_of_here.
        -- do 2 apply list_elem_of_further. apply list_elem_of_here.
    + unfold ALLOWED_DEPT_EXTENSIONS. intros H.
      repeat (apply elem_of_cons in H as [H|H]; [discriminate H|]).
      now apply elem_of_nil in H.
Qed.

(** ** load_department_data *)

Lemma lower_app (a b : string) : lower (a +:+ b) = lower a +:+ lower b.
Proof.
  induction a as [|c a IH]; [now rewrite !string_app_nil_l|].
  rewrite string_app_cons. cbn [lower]. now rewrite string_app_cons, IH.
Qed.

Lemma endswith_inv (s suffix : string) :
  endswith s suffix = true -> exists pre, s = pre +:+ suffix.
Proof.
  induction s as [|a s IH]; cbn [endswith].
  - destruct (string_eqb "" suffix) eqn:E; [|discriminate].
    apply string_eqb_true in E. subst suffix. now exists "".
  - destruct (string_eqb (String a s) suffix) eqn:E.
    + apply string_eqb_true in E. subst suffix. now exists "".
    + intros (pre & ->)%IH. now exists (String a pre).
Qed.

Section LoadingProperties.

Variable read_csv : list byte -> result DataFrame.
Variable read_excel : list byte -> result DataFrame.

(** X23. The reader of a roster file is chosen by the letters of the name as
    they are, its acceptance by the letters in lower case: a file named
    [<stem>.CSV] of an allowed size is accepted by the uploader, and
    [load_department_data] reads it with [read_excel], not with [read_csv]. *)
Theorem upper_case_csv_read_as_excel (file_bytes : list byte) (stem : string)
    (size : Z) :
  named (lower stem) -> (size <= 10485760)%Z ->
  check_upload (mkUpload (stem +:+ ".CSV") size) ALLOWED_DEPT_EXTENSIONS = Accepted /\
  load_department_data read_csv read_excel file_bytes (stem +:+ ".CSV")
  = match read_excel file_bytes with
    | Ok df => if has_column "Index" (columns df) then Some df else None
    | Raise _ => None
    end.
Proof.
  intros Hnamed Hsize. split.
  - apply check_upload_accepted. cbn [file_size file_name]. split; [exact Hsize|].
    apply accepted_extension.
    + unfold ALLOWED_DEPT_EXTENSIONS. intros H.
      repeat (apply elem_of_cons in H as [H|H]; [discriminate H|]).
      now apply elem_of_nil in H.
    + exists ".csv". split; [apply list_elem_of_here|].
      exists (lower stem), "csv". rewrite lower_app. now repeat split.
  - unfold load_department_data.
    destruct (endswith (stem +:+ ".CSV") ".csv") eqn:E.
    + apply endswith_inv in E as (pre & E). exfalso.
      assert (H : (stem +:+ ".CS") +:+ "V" = (pre +:+ ".cs") +:+ "v")
        by now rewrite !string_app_assoc.
      apply string_app_last in H. discriminate H.
    + destruct (read_excel file_bytes) as [df|e]; [|reflexivity].
      now destruct (has_column "Index" (columns df)).
Qed.

(** X24. A roster [load_department_data] has returned has the column
    [Index], so that no merge into it raises [KeyError] for that column,
    whatever the records and the module. *)
Theorem loaded_roster_has_index (file_bytes : list byte) (filename : string)
    (df : DataFrame) (grades : list GradeRecord) (module_code : string) :
  load_department_data read_csv read_excel file_bytes filename = Some df ->
  has_column "Index" (columns df) = true /\
  merge_grades_with_department df grades module_code <> Raise (KeyError "Index").
Proof.
  intros Hload.
  assert (Hidx : has_column "Index" (columns df) = true).
  { unfold load_department_data in Hload.
    destruct (if endswith filename ".csv" then read_csv file_bytes
              else read_excel file_bytes) as [df'|e]; [|discriminate].
    destruct (has_column "Index" (columns df')) eqn:E; [|discriminate].
    cbn [negb] in Hload. now injection Hload as <-. }
  split; [exact Hidx|].
  unfold merge_grades_with_department.
  destruct grades as [|g grades]; [discriminate|].
  unfold merge_left.
  destruct (column_index_present _ _ Hidx) as [ki ->].
  destruct (Nat.ltb 1 (count_label "Index" (columns df))); [discriminate|].
  destruct (numeric_dtype _); [discriminate|].
  destruct (suffix_collision _ _); [discriminate|]. cbn [bind].
  match goal with |- context [if has_column ?gc (columns ?m) then _ else _] =>
    destruct (has_column gc (columns m)) end; [discriminate|].
  intros [= H]. revert H.
  change "Index" with ("Inde" +:+ "x").
  now apply not_eq_sym, grade_column_last.
Qed.

End LoadingProperties.

Lemma upper_case_csv_read_as_excel_witness :
  check_upload (mkUpload ("roster" +:+ ".CSV") 2048) ALLOWED_DEPT_EXTENSIONS = Accepted /\
  load_department_data (fun _ => Ok roster_two)
    (fun _ => Raise (ValueError "Excel file format cannot be determined"))
    some_bytes ("roster" +:+ ".CSV")
  = None.
Proof.
  apply (upper_case_csv_read_as_excel (fun _ => Ok roster_two)
           (fun _ => Raise (ValueError "Excel file format cannot be determined"))
           some_bytes "roster" 2048).
  - exists "", "r"%char, "oster". now repeat split.
  - lia.
Defined.

Lemma loaded_roster_has_index_witness :
  has_column "Index" (columns roster_two) = true /\
  merge_grades_with_department roster_two one_record "CS2023" <> Raise (KeyError "Index").
Proof.
  apply (loaded_roster_has_index (fun _ => Ok roster_two)
           (fun _ => Raise (ValueError "Excel file format cannot be determined"))
           some_bytes "roster.csv" roster_two one_record "CS2023").
  reflexivity.
Defined.

(** ** From the merge to the ranking *)

Lemma grade_columns_app (xs ys : list string) :
  grade_columns_of (xs ++ ys) = grade_columns_of xs ++ grade_columns_of ys.
Proof. unfold grade_columns_of. apply filter_app. Qed.

(** X25. A student without a record in the new document keeps the SGPA of
    before. For a roster that is ready for the module and a row whose
    [Index] is the id of no record, the merged roster holds the row with
    ["N/A"] in the new column, and [calc_student_sgpa] gives that row, under
    the merged labels, what it gave the row before the merge, whatever the
    weights, the weight of the new module included. *)
Theorem absent_student_keeps_sgpa (dept_df : DataFrame) (grades : list GradeRecord)
    (module_code : string) (weights : gmap string float) :
  merge_ready dept_df module_code = true -> grades <> [] ->
  exists merged ki,
    merge_grades_with_department dept_df grades module_code = Ok merged /\
    column_index "Index" (columns dept_df) = Some ki /\
    forall row,
      row ∈ rows dept_df ->
      existsb (key_matches (nth ki row NaN)) grades = false ->
      (row ++ [Str "N/A"]) ∈ rows merged /\
      calc_student_sgpa weights (columns merged) (row ++ [Str "N/A"])
      = calc_student_sgpa weights (columns dept_df) row.
Proof.
  intros Hready Hne.
  destruct (merge_ready_result dept_df grades module_code Hready Hne) as (ki & Hki & Hm).
  pose proof (merge_ready_no_grade _ _ Hready) as Hgc.
  pose proof (merge_ready_well_formed _ _ Hready) as Hwf.
  eexists. exists ki. split; [exact Hm|]. split; [exact Hki|].
  intros row Hrow Hnone. cbn [columns rows].
  unfold well_formed in Hwf. rewrite List.Forall_forall in Hwf.
  pose proof (Hwf row (proj1 (list_elem_of_In _ _) Hrow)) as Hlen.
  set (gc := module_code +:+ "_Grade") in *.
  split.
  - apply list_elem_of_In, in_flat_map. exists row.
    split; [now apply list_elem_of_In|].
    unfold merged_rows, grades_for.
    rewrite filter_none; [now left|].
    intros g Hg. destruct (key_matches (nth ki row NaN) g) eqn:E; [|reflexivity].
    exfalso. assert (Hex : existsb (key_matches (nth ki row NaN)) grades = true).
    { apply existsb_exists. exists g. split; [now apply list_elem_of_In | exact E]. }
    congruence.
  - unfold calc_student_sgpa. rewrite grade_columns_app, fold_left_app.
    assert (Hold : fold_left (sgpa_step weights (columns dept_df ++ [gc]) (row ++ [Str "N/A"]))
                     (grade_columns_of (columns dept_df)) (0%float, 0%float)
                   = fold_left (sgpa_step weights (columns dept_df) row)
                       (grade_columns_of (columns dept_df)) (0%float, 0%float)).
    { apply fold_left_ext_in. intros col Hcol acc. unfold sgpa_step.
      rewrite row_get_app_l; [reflexivity | | exact Hlen].
      unfold grade_columns_of in Hcol. now apply list_elem_of_filter in Hcol as [_ ?]. }
    rewrite Hold.
    assert (Hnew : grade_columns_of [gc] = [gc]).
    { unfold grade_columns_of. rewrite filter_cons_True by apply endswith_app. reflexivity. }
    rewrite Hnew. cbn [fold_left]. unfold sgpa_step at 1.
    rewrite (row_get_last _ _ _ _ Hgc Hlen), not_available_uncountable. reflexivity.
Qed.

Lemma absent_student_keeps_sgpa_witness :
  exists merged ki,
    merge_grades_with_department roster_two one_record "CS2023" = Ok merged /\
    column_index "Index" (columns roster_two) = Some ki /\
    forall row,
      row ∈ rows roster_two ->
      existsb (key_matches (nth ki row NaN)) one_record = false ->
      (row ++ [Str "N/A"]) ∈ rows merged /\
      calc_student_sgpa weights_3_2 (columns merged) (row ++ [Str "N/A"])
      = calc_student_sgpa weights_3_2 (columns roster_two) row.
Proof.
  apply (absent_student_keeps_sgpa roster_two one_record "CS2023" weights_3_2).
  - reflexivity.
  - discriminate.
Defined.

(** X26. In a consistent session that passes the check before the ranking,
    every grade column of the roster counts: the module code
    [calc_student_sgpa] computes from the column has a weight. *)
Theorem every_module_has_weight (st : Session) (col : string) :
  consistent st -> all_weights_set st = true ->
  col ∈ grade_columns_of (columns (department_df st)) ->
  is_Some (weights st !! str_replace col "_Grade" "").
Proof.
  intros (_ & _ & Hperm) Hset Hcol.
  unfold all_weights_set in Hset. rewrite forallb_forall in Hset.
  assert (Hin : str_replace col "_Grade" "" ∈ processed_modules st).
  { rewrite Hperm. unfold get_existing_modules.
    apply list_elem_of_fmap. now exists col. }
  apply list_elem_of_In, Hset in Hin. now apply bool_decide_eq_true in Hin.
Qed.

Lemma every_module_has_weight_witness :
  is_Some (weights (mkSession roster_tie weights_3_2 ["CS2023"])
           !! str_replace "CS2023_Grade" "_Grade" "").
Proof.
  apply (every_module_has_weight (mkSession roster_tie weights_3_2 ["CS2023"])
           "CS2023_Grade").
  - unfold consistent, get_existing_modules. cbn [department_df processed_modules columns].
    change (grade_columns_of (columns roster_tie)) with ["CS2023_Grade"].
    split; [|split].
    + repeat constructor. apply not_elem_of_nil.
    + repeat constructor.
    + reflexivity.
  - reflexivity.
  - apply list_elem_of_here.
Defined.

(** ** More library models on inputs run through CPython *)

Example lower_letters : lower "Results_2023.PDF" = "results_2023.pdf".
Proof. vm_compute. reflexivity. Qed.

Example splitext_last_dot :
  map splitext ["a.pdf"; ".pdf"; "a.pdf.exe"; "dir.d/file"; "..pdf"; "a..pdf";
                "x/.a.pdf"; "a."; "a.pdf/"; "x/...a"]
  = [("a", ".pdf"); (".pdf", ""); ("a.pdf", ".exe"); ("dir.d/file", "");
     ("..pdf", ""); ("a.", ".pdf"); ("x/.a", ".pdf"); ("a", "."); ("a.pdf/", "");
     ("x/...a", "")].
Proof. vm_compute. reflexivity. Qed.

Example size_message_two_decimals :
  map (fun n => validate_file_size (Some (mkUpload "results.pdf" n)))
      [10485760; 10485761; 11000000; 10753147]%Z
  = [(true, "File size OK");
     (false, "File size (10.00 MB) exceeds limit of 10 MB");
     (false, "File size (10.49 MB) exceeds limit of 10 MB");
     (false, "File size (10.26 MB) exceeds limit of 10 MB")].
Proof. vm_compute. reflexivity. Qed.

Example extension_message :
  validate_file_extension "results.doc" ALLOWED_DEPT_EXTENSIONS
  = (false, "Invalid file type. Allowed: .csv, .xlsx, .xls").
Proof. vm_compute. reflexivity. Qed.
